(** * iTermFileDescriptorMultiServer: the multi-server daemon's control plane

    A shallow embedding of [sources/iTermFileDescriptorMultiServer.c]: the
    child registry, the launch pipeline, the handshake / wait handlers, the
    reaper, the select loop and the bootstrap, followed by the properties
    the specification states about them.

    The daemon is single threaded and all of its state lives in globals, so
    every C function becomes a computation in a small state monad over
    [World].  Everything the file calls but does not define (system calls,
    the wire codec, header constants) is collected in the record [Env]. *)

From Stdlib Require Import ZArith List String Lia Bool.
From Stdlib Require Import Init.Byte.
From stdpp Require Import base list.

Local Open Scope Z_scope.

(** ** Data model *)

Definition pid_t := Z.

(** A frame is the contiguous buffer produced by the wire codec
    ([obj.ioVectors[0]]). *)
Definition Frame := list byte.

(** [iTermMultiServerRequestLaunch] (declared in iTermMultiServerProtocol.h;
    the fields are those this file reads). *)
Record iTermMultiServerRequestLaunch := {
  launch_path : string;
  launch_argv : list string;
  launch_argc : Z;
  launch_envp : list string;
  launch_envc : Z;
  launch_columns : Z;
  launch_rows : Z;
  launch_pixel_width : Z;
  launch_pixel_height : Z;
  launch_isUTF8 : Z;
  launch_pwd : string;
  launch_uniqueId : Z
}.

Record iTermMultiServerRequestHandshake := {
  maximumProtocolVersion : Z
}.

Record iTermMultiServerRequestWait := {
  wait_pid : pid_t;
  removePreemptively : Z
}.

(** [iTermMultiServerClientOriginatedMessage]: the [type] tag together with
    the member of the [payload] union it selects.  The two server-originated
    tags carry no payload the daemon looks at. *)
Inductive iTermMultiServerClientOriginatedMessage :=
| ClientHandshake (handshake : iTermMultiServerRequestHandshake)
| ClientLaunch (launch : iTermMultiServerRequestLaunch)
| ClientWait (wait : iTermMultiServerRequestWait)
| ClientTermination
| ClientReportChild.

Record iTermMultiServerReportChild := {
  report_isLast : Z;
  report_pid : pid_t;
  report_path : string;
  report_argv : list string;
  report_argc : Z;
  report_envp : list string;
  report_envc : Z;
  report_isUTF8 : Z;
  report_pwd : string;
  report_terminated : Z;
  report_tty : option string
}.

(** [iTermMultiServerServerOriginatedMessage]. *)
Inductive iTermMultiServerServerOriginatedMessage :=
| ServerHandshake (protocolVersion numChildren : Z) (pid : pid_t)
| ServerLaunch (status : Z) (pid : pid_t) (uniqueId : Z) (tty : string)
| ServerWait (pid : pid_t) (status errorNumber : Z)
| ServerReportChild (reportChild : iTermMultiServerReportChild)
| ServerTermination (pid : pid_t).

(** [iTermMultiServerChild], one entry of the global [children] array.
    [tty] is a C string pointer: [None] is NULL. *)
Record iTermMultiServerChild := {
  messageWithLaunchRequest : iTermMultiServerClientOriginatedMessage;
  pid : pid_t;
  terminated : Z;
  willTerminate : Z;
  masterFd : Z;
  status : Z;
  tty : option string
}.

Definition set_terminated (v : Z) (c : iTermMultiServerChild) :=
  {| messageWithLaunchRequest := messageWithLaunchRequest c; pid := pid c;
     terminated := v; willTerminate := willTerminate c;
     masterFd := masterFd c; status := status c; tty := tty c |}.

Definition set_willTerminate (v : Z) (c : iTermMultiServerChild) :=
  {| messageWithLaunchRequest := messageWithLaunchRequest c; pid := pid c;
     terminated := terminated c; willTerminate := v;
     masterFd := masterFd c; status := status c; tty := tty c |}.

Definition set_masterFd (v : Z) (c : iTermMultiServerChild) :=
  {| messageWithLaunchRequest := messageWithLaunchRequest c; pid := pid c;
     terminated := terminated c; willTerminate := willTerminate c;
     masterFd := v; status := status c; tty := tty c |}.

Definition set_status (v : Z) (c : iTermMultiServerChild) :=
  {| messageWithLaunchRequest := messageWithLaunchRequest c; pid := pid c;
     terminated := terminated c; willTerminate := willTerminate c;
     masterFd := masterFd c; status := v; tty := tty c |}.

Definition set_messageWithLaunchRequest (v : iTermMultiServerClientOriginatedMessage)
    (c : iTermMultiServerChild) :=
  {| messageWithLaunchRequest := v; pid := pid c;
     terminated := terminated c; willTerminate := willTerminate c;
     masterFd := masterFd c; status := status c; tty := tty c |}.

Definition set_pid (v : pid_t) (c : iTermMultiServerChild) :=
  {| messageWithLaunchRequest := messageWithLaunchRequest c; pid := v;
     terminated := terminated c; willTerminate := willTerminate c;
     masterFd := masterFd c; status := status c; tty := tty c |}.

Definition set_tty (v : option string) (c : iTermMultiServerChild) :=
  {| messageWithLaunchRequest := messageWithLaunchRequest c; pid := pid c;
     terminated := terminated c; willTerminate := willTerminate c;
     masterFd := masterFd c; status := status c; tty := v |}.

(** ** The environment

    Answers of everything outside the file.  System calls are answered by
    call number: the [n]-th external call the daemon makes receives the
    answer the environment holds for [n], whatever its arguments; this
    covers every schedule of child exits, hang-ups and interrupts.  The wire
    codec is a function of its argument.  Header constants are fields. *)

Record forkpty_answer := {
  fp_pid : pid_t;      (* return value: child pid in the parent, 0 in the child, -1 on error *)
  fp_fd : Z;           (* content of the local [fd] after the call; forkpty
                          stores the master only when it succeeds *)
  fp_tty : string;     (* slave name written to [ttyStatePtr->tty] *)
  fp_errno : Z
}.

Record waitpid_answer := {
  wp_result : pid_t;
  wp_status : Z;       (* stored through [statusOut] when a child was reaped *)
  wp_errno : Z
}.

Record Env := {
  (* errno.h, fcntl.h *)
  EINTR : Z;
  EAGAIN : Z;
  O_NONBLOCK : Z;
  (* iTermMultiServerProtocol.h *)
  iTermMultiServerProtocolVersion1 : Z;
  iTermMultiServerProtocolVersionRejected : Z;
  iTermMultiServerProtocolEncodeMessageFromServer :
    iTermMultiServerServerOriginatedMessage -> Z * Frame;
  iTermMultiServerProtocolEncodeMessageFromClient :
    iTermMultiServerClientOriginatedMessage -> Z * Frame;
  iTermMultiServerProtocolParseMessageFromClient :
    Frame -> Z * iTermMultiServerClientOriginatedMessage;
  (* stdlib.h: what a slot added to [children] holds, read as a record.
     calloc hands out zero bytes, whose message is the one the header gives
     tag 0; realloc leaves the slot indeterminate *)
  zeroed_message : iTermMultiServerClientOriginatedMessage;
  realloc_content : nat -> iTermMultiServerChild;
  (* system calls and helpers of iTermFileDescriptorServerShared,
     answered by call number *)
  getpid : pid_t;
  forkpty : nat -> forkpty_answer;
  sendmsg : nat -> Z * Z;               (* (bytes or -1, errno) *)
  waitpid : nat -> waitpid_answer;
  read_pipe : nat -> Z * Z;             (* (rc, errno) of read(gPipe[0], &c, 1) *)
  iTermFileDescriptorServerAccept : nat -> Z;
  iTermSelect : nat -> nat -> Z;        (* results[i] of the call *)
  iTermMultiServerRead : nat -> Z * Frame;
  pipe : nat -> Z * (Z * Z);            (* (rc, (fds[0], fds[1])) *)
  fcntl_getfl : nat -> Z;
  fcntl_setfl : nat -> Z * Z;           (* (rc, errno) *)
  signal_fails : nat -> bool;           (* signal() returned SIG_ERR *)
  sigprocmask : nat -> Z
}.

(** What the daemon does to the outside, in program order. *)
Inductive Event :=
| EvSend (fd : Z) (frame : Frame) (attached : option Z) (result : Z)
| EvClose (fd : Z)
| EvSetFlags (fd : Z) (flags : Z)
| EvUnlink (path : string).

(** The globals of the file, the trace of effects and the call counter. *)
Record World := {
  children : list iTermMultiServerChild;   (* [children], [numberOfChildren] *)
  gPipe : Z * Z;
  gPath : option string;
  gMultiServerSocketPath : option string;
  trace : list Event;
  clock : nat
}.

Definition with_children (l : list iTermMultiServerChild) (w : World) :=
  {| children := l; gPipe := gPipe w; gPath := gPath w;
     gMultiServerSocketPath := gMultiServerSocketPath w;
     trace := trace w; clock := clock w |}.

Definition with_gPipe (p : Z * Z) (w : World) :=
  {| children := children w; gPipe := p; gPath := gPath w;
     gMultiServerSocketPath := gMultiServerSocketPath w;
     trace := trace w; clock := clock w |}.

Definition with_gPath (p : option string) (w : World) :=
  {| children := children w; gPipe := gPipe w; gPath := p;
     gMultiServerSocketPath := gMultiServerSocketPath w;
     trace := trace w; clock := clock w |}.

Definition with_gMultiServerSocketPath (p : option string) (w : World) :=
  {| children := children w; gPipe := gPipe w; gPath := gPath w;
     gMultiServerSocketPath := p;
     trace := trace w; clock := clock w |}.

Definition with_trace (t : list Event) (w : World) :=
  {| children := children w; gPipe := gPipe w; gPath := gPath w;
     gMultiServerSocketPath := gMultiServerSocketPath w;
     trace := t; clock := clock w |}.

Definition with_clock (n : nat) (w : World) :=
  {| children := children w; gPipe := gPipe w; gPath := gPath w;
     gMultiServerSocketPath := gMultiServerSocketPath w;
     trace := trace w; clock := n |}.

(** ** The monad *)

(** Ways a run ends other than by returning: a failed [assert] (the process
    dies on SIGABRT), the forked child handing itself over to [iTermExec],
    an access outside [children], or a loop that outlived its fuel. *)
Inductive halt := AssertionFailed | ExecInChild | OutOfBounds.

Inductive outcome (A : Type) :=
| Done (a : A) (w : World)
| Halt (h : halt) (w : World)
| OutOfFuel.
Arguments Done {A} a w.
Arguments Halt {A} h w.
Arguments OutOfFuel {A}.

Definition M (A : Type) := World -> outcome A.

Definition ret {A} (a : A) : M A := fun w => Done a w.

Definition bind {A B} (m : M A) (k : A -> M B) : M B := fun w =>
  match m w with
  | Done a w' => k a w'
  | Halt h w' => Halt h w'
  | OutOfFuel => OutOfFuel
  end.

Declare Scope daemon_scope.
Delimit Scope daemon_scope with daemon.
Notation "'let*' x ':=' c1 'in' c2" := (bind c1 (fun x => c2))
  (at level 10, x pattern, c1 at level 100, c2 at level 200) : daemon_scope.
Notation "c1 ';;;' c2" := (bind c1 (fun _ => c2))
  (at level 100, c2 at level 200, right associativity) : daemon_scope.
Local Open Scope daemon_scope.

Definition halt_with {A} (h : halt) : M A := fun w => Halt h w.

Definition assert (b : bool) : M unit :=
  if b then ret tt else halt_with AssertionFailed.

Definition when (b : bool) (m : M unit) : M unit := if b then m else ret tt.

Definition get {A} (f : World -> A) : M A := fun w => Done (f w) w.
Definition modify (f : World -> World) : M unit := fun w => Done tt (f w).
Definition emit (e : Event) : M unit := modify (fun w => with_trace (trace w ++ [e]) w).

(** A loop whose body either continues with a new loop state or leaves with
    a result; [fuel] bounds the number of iterations. *)
Fixpoint iter {I R} (fuel : nat) (body : I -> M (I + R)) (i : I) : M R :=
  match fuel with
  | O => fun _ => OutOfFuel
  | S fuel' =>
      let* x := body i in
      match x with
      | inl i' => iter fuel' body i'
      | inr r => ret r
      end
  end.

(** C truth value of an [int]. *)
Definition truthy (z : Z) : bool := negb (z =? 0).
Definition of_bool (b : bool) : Z := if b then 1 else 0.

Record iTermForkState := {
  fork_pid : pid_t;
  connectionFd : Z;
  deadMansPipe : Z * Z;
  numFileDescriptorsToPreserve : Z
}.

(** The launch member of the payload union.  The registry only ever holds
    what parsing an encoded Launch request returned; for any other tag the
    C code would reinterpret the union, which the model replaces by a blank
    request. *)
Definition blank_launch : iTermMultiServerRequestLaunch :=
  {| launch_path := ""; launch_argv := []; launch_argc := 0;
     launch_envp := []; launch_envc := 0; launch_columns := 0;
     launch_rows := 0; launch_pixel_width := 0; launch_pixel_height := 0;
     launch_isUTF8 := 0; launch_pwd := ""; launch_uniqueId := 0 |}.

Definition payload_launch (m : iTermMultiServerClientOriginatedMessage) :=
  match m with
  | ClientLaunch l => l
  | _ => blank_launch
  end.

(** ** The daemon *)

Section Daemon.

Variable env : Env.

(** The answer of the environment to the next external call. *)
Definition ask {A} (f : Env -> nat -> A) : M A := fun w =>
  Done (f env (clock w)) (with_clock (S (clock w)) w).

Definition close (fd : Z) : M unit := emit (EvClose fd).
Definition unlink (path : string) : M unit := emit (EvUnlink path).

(** Modelled from the spec: iTermFileDescriptorServerSendMessage lives in
    iTermFileDescriptorServerShared.c; per section 4.B it writes the frame
    with one sendmsg call and returns the byte count or an error.  The
    second component is the error number it reports. *)
Definition iTermFileDescriptorServerSendMessage (fd : Z) (frame : Frame) : M (Z * Z) :=
  let* r := ask sendmsg in
  emit (EvSend fd frame None (fst r)) ;;;
  ret r.

(** Modelled from the spec: as above, with exactly one descriptor attached
    as ancillary data; the second component is [errno] after the call. *)
Definition iTermFileDescriptorServerSendMessageAndFileDescriptor
    (fd : Z) (frame : Frame) (fdToSend : Z) : M (Z * Z) :=
  let* r := ask sendmsg in
  emit (EvSend fd frame (Some fdToSend) (fst r)) ;;;
  ret r.

Definition numberOfChildren : M Z := get (fun w => Z.of_nat (length (children w))).

(** [children[i]] *)
Definition child_at (i : nat) : M iTermMultiServerChild := fun w =>
  match children w !! i with
  | Some c => Done c w
  | None => Halt OutOfBounds w
  end.

(** [children[i] = f(children[i])] *)
Definition update_child (i : nat) (f : iTermMultiServerChild -> iTermMultiServerChild) : M unit :=
  let* c := child_at i in
  modify (fun w => with_children (<[i := f c]> (children w)) w).

(** [SigChildHandler] writes one byte to [gPipe[1]] when a child changes
    state; it touches none of the globals, and what the daemon sees of it is
    that select reports [gPipe[0]] and that the pipe has bytes to drain,
    both of which are answers of the environment. *)

(** *** Inspect children *)

Fixpoint count_reportable (l : list iTermMultiServerChild) (n : Z) : Z :=
  match l with
  | [] => n
  | c :: l' =>
      if truthy (willTerminate c) then count_reportable l' n
      else count_reportable l' (n + 1)
  end.

Definition GetNumberOfReportableChildren : M Z :=
  let* l := get children in ret (count_reportable l 0).

(** *** Mutate children *)

(** The slot that [calloc] (when [children] is NULL, which is when the
    registry is empty) or [realloc] adds at the end of [children]. *)
Definition new_slot : M iTermMultiServerChild :=
  let* l := get children in
  match l with
  | [] =>
      ret {| messageWithLaunchRequest := zeroed_message env; pid := 0;
             terminated := 0; willTerminate := 0; masterFd := 0; status := 0;
             tty := None |}
  | _ :: _ => get (fun w => realloc_content env (clock w))
  end.

(** The array is grown and [numberOfChildren] incremented before the two
    assertions run; the parser writes the copy into the new slot, and the
    remaining fields are filled in after the second assertion. *)
Definition AddChild (launch : iTermMultiServerRequestLaunch) (masterFd : Z)
    (tty : string) (forkState : iTermForkState) : M unit :=
  let* slot := new_slot in
  let* i := get (fun w => length (children w)) in
  modify (fun w => with_children (children w ++ [slot]) w) ;;;
  let tempClientMessage := ClientLaunch launch in
  let '(status, tempMessage) :=
    iTermMultiServerProtocolEncodeMessageFromClient env tempClientMessage in
  assert (status =? 0) ;;;
  let '(status, copy) :=
    iTermMultiServerProtocolParseMessageFromClient env tempMessage in
  update_child i (set_messageWithLaunchRequest copy) ;;;
  assert (status =? 0) ;;;
  update_child i (set_masterFd masterFd) ;;;
  update_child i (set_pid (fork_pid forkState)) ;;;
  update_child i (set_willTerminate 0) ;;;
  update_child i (set_terminated 0) ;;;
  update_child i (set_status 0) ;;;
  update_child i (set_tty (Some tty)).

(** Freeing the tty string and the copied launch request releases memory
    only; what the model keeps of it is the NULL left in [tty]. *)
Definition FreeChild (i : Z) : M unit :=
  assert (0 <=? i) ;;;
  let* n := numberOfChildren in
  assert (i <? n) ;;;
  update_child (Z.to_nat i) (set_tty None).

(** [memmove] shifts the entries after [i] down by one and [realloc] drops
    the last slot. *)
Definition RemoveChild (i : Z) : M unit :=
  assert (0 <=? i) ;;;
  let* n := numberOfChildren in
  assert (i <? n) ;;;
  (if n =? 1 then
     modify (with_children [])
   else
     FreeChild i ;;;
     modify (fun w => with_children
       (take (Z.to_nat i) (children w) ++ drop (S (Z.to_nat i)) (children w)) w)).

(** *** Launch *)

(** Modelled from the spec: iTermExec belongs to iTermPosixTTYReplacements;
    per section 4.E it replaces the process image of the forked child, so
    the run of the daemon's code ends there. *)
Definition iTermExec : M unit := halt_with ExecInChild.

(** Returns the function result together with [*forkState], the tty name
    left in [*ttyStatePtr] and [*errorPtr].  iTermTTYStateInit only prepares
    the terminal settings handed to forkpty. *)
Definition Launch (launch : iTermMultiServerRequestLaunch) (forkState : iTermForkState)
    : M (Z * iTermForkState * string * Z) :=
  let* a := ask forkpty in
  let fd := fp_fd a in
  let forkState :=
    {| fork_pid := fp_pid a;
       connectionFd := connectionFd forkState;
       deadMansPipe := deadMansPipe forkState;
       numFileDescriptorsToPreserve := 3 |} in
  when (fork_pid forkState =? 0) iTermExec ;;;
  if fork_pid forkState =? 1 then
    ret (-1, forkState, fp_tty a, fp_errno a)
  else
    ret (fd, forkState, fp_tty a, 0).

Definition SendLaunchResponse (fd : Z) (status : Z) (pid : pid_t) (masterFd : Z)
    (tty : string) (uniqueId : Z) : M Z :=
  let message := ServerLaunch status pid uniqueId tty in
  let '(rc, obj) := iTermMultiServerProtocolEncodeMessageFromServer env message in
  if truthy rc then ret (-1) else
  let* result :=
    (if 0 <=? masterFd then
       iTermFileDescriptorServerSendMessageAndFileDescriptor fd obj masterFd
     else
       iTermFileDescriptorServerSendMessage fd obj) in
  ret (of_bool (fst result =? -1)).

Definition HandleLaunchRequest (fd : Z) (launch : iTermMultiServerRequestLaunch) : M Z :=
  let forkState :=
    {| fork_pid := 0; connectionFd := -1; deadMansPipe := (0, 0);
       numFileDescriptorsToPreserve := 0 |} in
  let* (masterFd, forkState, tty, error) := Launch launch forkState in
  if masterFd <? 0 then
    SendLaunchResponse fd (-1) 0 (-1) "" (launch_uniqueId launch)
  else
    AddChild launch masterFd tty forkState ;;;
    SendLaunchResponse fd 0 (fork_pid forkState) masterFd tty (launch_uniqueId launch).

(** *** Report termination *)

Definition ReportTermination (fd : Z) (pid : pid_t) : M Z :=
  let message := ServerTermination pid in
  let '(rc, obj) := iTermMultiServerProtocolEncodeMessageFromServer env message in
  if truthy rc then ret (-1) else
  let* result := iTermFileDescriptorServerSendMessage fd obj in
  ret (of_bool (fst result =? -1)).

(** *** Report child *)

Definition PopulateReportChild (child : iTermMultiServerChild) (isLast : Z)
    : iTermMultiServerReportChild :=
  let launch := payload_launch (messageWithLaunchRequest child) in
  {| report_isLast := isLast;
     report_pid := pid child;
     report_path := launch_path launch;
     report_argv := launch_argv launch;
     report_argc := launch_argc launch;
     report_envp := launch_envp launch;
     report_envc := launch_envc launch;
     report_isUTF8 := launch_isUTF8 launch;
     report_pwd := launch_pwd launch;
     report_terminated := of_bool (truthy (terminated child));
     report_tty := tty child |}.

Definition ReportChild (fd : Z) (child : iTermMultiServerChild) (isLast : Z) : M Z :=
  let message := ServerReportChild (PopulateReportChild child isLast) in
  let '(rc, obj) := iTermMultiServerProtocolEncodeMessageFromServer env message in
  if truthy rc then ret (-1) else
  let* r := iTermFileDescriptorServerSendMessageAndFileDescriptor fd obj (masterFd child) in
  let bytes := fst r in
  (if bytes <? 0 then
     let theError := snd r in
     assert (negb (theError =? EAGAIN env))
   else ret tt) ;;;
  ret (of_bool (bytes <? 0)).

(** *** Termination handling *)

(** The value stored through [statusOut] is returned next to the result:
    waitpid stores a status only when it reports a child. *)
Definition WaitPidNoHang (fuel : nat) (pid : pid_t) : M (pid_t * option Z) :=
  iter fuel (fun _ : unit =>
    let* a := ask waitpid in
    let result := wp_result a in
    if (result <? 0) && (wp_errno a =? EINTR env) then ret (inl tt)
    else ret (inr (result, if 0 <? result then Some (wp_status a) else None))) tt.

(** The body of the [for] loop of [WaitForAllProcesses] from index [i] on,
    with [k] entries left to visit. *)
Fixpoint WaitForAllProcesses_from (fuel : nat) (connectionFd : Z) (k i : nat) : M Z :=
  match k with
  | O => ret 0
  | S k' =>
      let* c := child_at i in
      if truthy (terminated c) then
        WaitForAllProcesses_from fuel connectionFd k' (S i)
      else
        let* r := WaitPidNoHang fuel (pid c) in
        match snd r with
        | Some st => update_child i (set_status st)
        | None => ret tt
        end ;;;
        if 0 <? fst r then
          update_child i (set_terminated 1) ;;;
          let* c := child_at i in
          let* failed :=
            (if negb (truthy (willTerminate c)) && (0 <=? connectionFd) then
               let* e := ReportTermination connectionFd (pid c) in
               ret (truthy e)
             else ret false) in
          if failed then ret (-1)
          else WaitForAllProcesses_from fuel connectionFd k' (S i)
        else
          WaitForAllProcesses_from fuel connectionFd k' (S i)
  end.

Definition WaitForAllProcesses (fuel : nat) (connectionFd : Z) : M Z :=
  iter fuel (fun _ : unit =>
    let* r := ask read_pipe in
    let rc := fst r in
    if (0 <? rc) || ((rc =? -1) && (snd r =? EINTR env)) then ret (inl tt)
    else ret (inr tt)) tt ;;;
  let* n := get (fun w => length (children w)) in
  WaitForAllProcesses_from fuel connectionFd n O.

(** *** Report children *)

(** The [for] loop of [ReportChildren], which runs from the last index down:
    [k] is the number of entries not yet visited, so [k - 1] is visited
    next. *)
Fixpoint ReportChildren_from (fd : Z) (numberOfReportableChildren : Z)
    (k : nat) (numberSent : Z) : M Z :=
  match k with
  | O => ret 0
  | S i =>
      let* c := child_at i in
      if truthy (willTerminate c) then
        ReportChildren_from fd numberOfReportableChildren i numberSent
      else
        let* e := ReportChild fd c (of_bool (numberSent + 1 =? numberOfReportableChildren)) in
        if truthy e then ret (-1)
        else ReportChildren_from fd numberOfReportableChildren i (numberSent + 1)
  end.

Definition ReportChildren (fd : Z) : M Z :=
  let* numberOfReportableChildren := GetNumberOfReportableChildren in
  let* n := get (fun w => length (children w)) in
  ReportChildren_from fd numberOfReportableChildren n 0.

(** *** Handshake *)

Definition HandleHandshake (fd : Z) (handshake : iTermMultiServerRequestHandshake) : M Z :=
  if maximumProtocolVersion handshake <? iTermMultiServerProtocolVersion1 env then
    ret (-1)
  else
    let* n := GetNumberOfReportableChildren in
    let message := ServerHandshake (iTermMultiServerProtocolVersion1 env) n (getpid env) in
    let '(rc, obj) := iTermMultiServerProtocolEncodeMessageFromServer env message in
    if truthy rc then ret (-1) else
    let* r := iTermFileDescriptorServerSendMessage fd obj in
    let bytes := fst r in
    if bytes <? 0 then ret (-1)
    else ReportChildren fd.

(** *** Wait *)

Fixpoint find_pid (l : list iTermMultiServerChild) (p : pid_t) (i : Z) : Z :=
  match l with
  | [] => -1
  | c :: l' => if pid c =? p then i else find_pid l' p (i + 1)
  end.

Definition GetChildIndexByPID (p : pid_t) : M Z :=
  let* l := get children in ret (find_pid l p 0).

Definition HandleWait (fd : Z) (wait : iTermMultiServerRequestWait) : M Z :=
  let* childIndex := GetChildIndexByPID (wait_pid wait) in
  let* se :=
    (if childIndex <? 0 then
       ret (0, -1)
     else
       let* c := child_at (Z.to_nat childIndex) in
       if negb (truthy (terminated c)) then
         if truthy (removePreemptively wait) then
           update_child (Z.to_nat childIndex) (set_willTerminate 1) ;;;
           let* c := child_at (Z.to_nat childIndex) in
           close (masterFd c) ;;;
           update_child (Z.to_nat childIndex) (set_masterFd (-1)) ;;;
           ret (0, 1)
         else
           ret (0, -2)
       else
         ret (status c, 0)) in
  let status := fst se in
  let errorNumber := snd se in
  let message := ServerWait (wait_pid wait) status errorNumber in
  let '(rc, obj) := iTermMultiServerProtocolEncodeMessageFromServer env message in
  if truthy rc then ret (-1) else
  let* r := iTermFileDescriptorServerSendMessage fd obj in
  let bytes := fst r in
  if bytes <? 0 then ret (-1) else
  when (errorNumber =? 0) (RemoveChild childIndex) ;;;
  ret 0.

(** *** Requests *)

(** The result is the non-zero status on failure and [*out] on success. *)
Definition ReadRequest (fd : Z) : M (Z + iTermMultiServerClientOriginatedMessage) :=
  let* r := ask iTermMultiServerRead in
  let status := fst r in
  if truthy status then ret (inl status) else
  let '(status, out) := iTermMultiServerProtocolParseMessageFromClient env (snd r) in
  if truthy status then ret (inl status) else ret (inr out).

Definition ReadAndHandleRequest (readFd writeFd : Z) : M Z :=
  let* rq := ReadRequest readFd in
  match rq with
  | inl _ => ret (-1)
  | inr request =>
      let* result :=
        match request with
        | ClientHandshake handshake => HandleHandshake writeFd handshake
        | ClientWait wait => HandleWait writeFd wait
        | ClientLaunch launch => HandleLaunchRequest writeFd launch
        | ClientTermination => ret 0
        | ClientReportChild => ret 0
        end in
      ret 0
  end.

(** *** Core *)

Definition AcceptAndReject (socket : Z) : M unit :=
  let* fd := ask iTermFileDescriptorServerAccept in
  if fd <? 0 then ret tt else
  let message := ServerHandshake (iTermMultiServerProtocolVersionRejected env) 0 0 in
  let '(rc, obj) := iTermMultiServerProtocolEncodeMessageFromServer env message in
  (if truthy rc then ret tt
   else
     let* result := iTermFileDescriptorServerSendMessage fd obj in
     ret tt) ;;;
  close fd.

(** One turn of the [while (1)] of [SelectLoop]: [inr tt] is [break]. *)
Definition SelectLoop_body (fuel : nat) (acceptFd writeFd readFd : Z) (_ : unit)
    : M (unit + unit) :=
  let* results := ask iTermSelect in
  let* leave :=
    (if truthy (results 2%nat) then
       let* e := ReadAndHandleRequest readFd writeFd in
       if truthy e then
         (if truthy (results 0%nat) then
            let* _ := WaitForAllProcesses fuel (-1) in ret tt
          else ret tt) ;;;
         ret true
       else ret false
     else ret false) in
  if leave : bool then ret (inr tt) else
  let* leave :=
    (if truthy (results 0%nat) then
       let* e := WaitForAllProcesses fuel writeFd in
       ret (truthy e)
     else ret false) in
  if leave : bool then ret (inr tt) else
  when (truthy (results 1%nat)) (AcceptAndReject acceptFd) ;;;
  ret (inl tt).

Definition SelectLoop (fuel : nat) (acceptFd writeFd readFd : Z) : M unit :=
  iter fuel (SelectLoop_body fuel acceptFd writeFd readFd) tt ;;;
  close writeFd.

Definition MakeAndSendPipe (unixDomainSocketFd : Z) : M Z :=
  let* p := ask pipe in
  if negb (fst p =? 0) then ret (-1) else
  let readPipe := fst (snd p) in
  let writePipe := snd (snd p) in
  let* rc := iTermFileDescriptorServerSendMessageAndFileDescriptor
               unixDomainSocketFd [] writePipe in
  let* readPipe :=
    (if fst rc =? -1 then close readPipe ;;; ret (-1) else ret readPipe) in
  close writePipe ;;;
  ret readPipe.

Definition iTermMultiServerAccept (fuel : nat) (socketFd : Z) : M Z :=
  iter fuel (fun _ : unit =>
    let* results := ask iTermSelect in
    (if truthy (results 1%nat) then
       let* _ := WaitForAllProcesses fuel (-1) in ret tt
     else ret tt) ;;;
    if truthy (results 0%nat) then
      let* connectionFd := ask iTermFileDescriptorServerAccept in
      if negb (connectionFd =? -1) then ret (inr connectionFd)
      else ret (inl tt)
    else ret (inl tt)) tt.

(** *** Bootstrap *)

Definition MakeNonBlocking (fuel : nat) (fd : Z) : M Z :=
  let* flags := ask fcntl_getfl in
  let* rc := iter fuel (fun _ : unit =>
    emit (EvSetFlags fd (Z.lor flags (O_NONBLOCK env))) ;;;
    let* r := ask fcntl_setfl in
    if (fst r =? -1) && (snd r =? EINTR env) then ret (inl tt)
    else ret (inr (fst r))) tt in
  ret (of_bool (rc =? -1)).

Definition MakeBlocking (fuel : nat) (fd : Z) : M Z :=
  let* flags := ask fcntl_getfl in
  let* rc := iter fuel (fun _ : unit =>
    emit (EvSetFlags fd (Z.land flags (Z.lnot (O_NONBLOCK env)))) ;;;
    let* r := ask fcntl_setfl in
    if (fst r =? -1) && (snd r =? EINTR env) then ret (inl tt)
    else ret (inr (fst r))) tt in
  ret (of_bool (rc =? -1)).

(** One turn of the [do ... while] of [MainLoop] on the loop variables
    [(writeFd, readFd)]; [inr tt] leaves the loop ([return] and [break] alike,
    since nothing follows the loop but a log line). *)
Definition MainLoop_body (fuel : nat) (acceptFd : Z) (fds : Z * Z)
    : M (Z * Z + unit) :=
  let writeFd := fst fds in
  let readFd := snd fds in
  when ((0 <=? writeFd) && (0 <=? readFd))
       (SelectLoop fuel acceptFd writeFd readFd) ;;;
  let* n := GetNumberOfReportableChildren in
  if n =? 0 then ret (inr tt) else
  let* writeFd := iTermMultiServerAccept fuel acceptFd in
  if writeFd =? -1 then ret (inr tt) else
  let* readFd := MakeAndSendPipe writeFd in
  let* _ := MakeBlocking fuel writeFd in
  let* _ := MakeBlocking fuel readFd in
  if (0 <=? writeFd) && (0 <=? readFd) then ret (inl (writeFd, readFd))
  else ret (inr tt).

Definition MainLoop (fuel : nat) (path : string)
    (acceptFd initialWriteFd initialReadFd : Z) : M unit :=
  assert (0 <=? acceptFd) ;;;
  assert (negb (acceptFd =? initialWriteFd)) ;;;
  assert (0 <=? initialWriteFd) ;;;
  assert (0 <=? initialReadFd) ;;;
  let writeFd := initialWriteFd in
  let readFd := initialReadFd in
  let* _ := MakeBlocking fuel writeFd in
  let* _ := MakeBlocking fuel readFd in
  iter fuel (MainLoop_body fuel acceptFd) (writeFd, readFd).

(** [iTermMultiServerFileDescriptor] *)
Definition iTermMultiServerFileDescriptorAcceptSocket : Z := 0.
Definition iTermMultiServerFileDescriptorInitialWrite : Z := 1.
Definition iTermMultiServerFileDescriptorDeadMansPipe : Z := 2.
Definition iTermMultiServerFileDescriptorInitialRead : Z := 3.

Definition MakeStandardFileDescriptorsNonBlocking (fuel : nat) : M Z :=
  let* e := MakeNonBlocking fuel iTermMultiServerFileDescriptorAcceptSocket in
  if truthy e then ret 1 else
  let* e := MakeBlocking fuel iTermMultiServerFileDescriptorInitialWrite in
  if truthy e then ret 1 else
  let* e := MakeBlocking fuel iTermMultiServerFileDescriptorDeadMansPipe in
  if truthy e then ret 1 else
  let* e := MakeBlocking fuel iTermMultiServerFileDescriptorInitialRead in
  if truthy e then ret 1 else
  ret 0.

Definition MakePipe (fuel : nat) : M Z :=
  let* p := ask pipe in
  (* pipe() fills gPipe only when it succeeds *)
  when (negb (fst p <? 0)) (modify (with_gPipe (snd p))) ;;;
  if fst p <? 0 then ret 1 else
  let* g := get gPipe in
  let* e := MakeNonBlocking fuel (fst g) in
  if truthy e then ret 2 else
  let* e := MakeNonBlocking fuel (snd g) in
  if truthy e then ret 2 else
  ret 0.

Definition InitializeSignals : M Z :=
  (* signal(SIGHUP, SIG_IGN) *)
  let* failed := ask signal_fails in
  if failed : bool then ret 1 else
  (* sigprocmask(SIG_UNBLOCK, {SIGCHLD}, NULL) *)
  let* rc := ask sigprocmask in
  if rc =? -1 then ret 1 else
  (* signal(SIGCHLD, SigChildHandler) *)
  let* failed := ask signal_fails in
  if failed : bool then ret 1 else
  ret 0.

(** Logging (openlog, setlogmask, FDLog) has no effect the model tracks. *)
Definition Initialize (fuel : nat) (path : string) : M Z :=
  let* e := MakeStandardFileDescriptorsNonBlocking fuel in
  if truthy e then ret 1 else
  modify (with_gPath (Some path)) ;;;
  let* e := MakePipe fuel in
  if truthy e then ret 1 else
  let* e := InitializeSignals in
  if truthy e then ret 1 else
  ret 0.

(** GetCurrentProcess, TransformProcessType and SetRunningServer are the
    platform hook that detaches the process from the GUI session; they touch
    none of the modelled state. *)
Definition iTermFileDescriptorMultiServerRun (fuel : nat) (path : string)
    (socketFd writeFD readFD : Z) : M Z :=
  (* signal(SIGPIPE, SIG_IGN), result unused *)
  let* _ := ask signal_fails in
  let* rc := Initialize fuel path in
  (if truthy rc then ret tt
   else MainLoop fuel path socketFd writeFD readFD) ;;;
  unlink path ;;;
  ret 1.

(** The result is the exit status of the process. *)
Definition main (fuel : nat) (argc : Z) (argv : list string) : M Z :=
  assert (argc =? 2) ;;;
  match argv !! 1%nat with
  | None => halt_with OutOfBounds
  | Some path =>
      modify (with_gMultiServerSocketPath (Some path)) ;;;
      let* _ := iTermFileDescriptorMultiServerRun fuel path
                  iTermMultiServerFileDescriptorAcceptSocket
                  iTermMultiServerFileDescriptorInitialWrite
                  iTermMultiServerFileDescriptorInitialRead in
      ret 1
  end.

End Daemon.

(** ** Vocabulary of the statements *)

(** The world after one external call. *)
Definition tick (w : World) : World := with_clock (S (clock w)) w.

(** The frame the codec produces for a message, and the fact that the codec
    accepted the message. *)
Definition encoded (env : Env) (m : iTermMultiServerServerOriginatedMessage) : Frame :=
  snd (iTermMultiServerProtocolEncodeMessageFromServer env m).

Definition encodes (env : Env) (m : iTermMultiServerServerOriginatedMessage) : Prop :=
  fst (iTermMultiServerProtocolEncodeMessageFromServer env m) = 0.

(** [c] at index [i] is the record [GetChildIndexByPID] selects for [p]:
    the first one whose pid is [p]. *)
Definition first_match (l : list iTermMultiServerChild) (p : pid_t)
    (i : nat) (c : iTermMultiServerChild) : Prop :=
  l !! i = Some c /\ pid c = p /\
  forall j c', (j < i)%nat -> l !! j = Some c' -> pid c' <> p.

Definition no_match (l : list iTermMultiServerChild) (p : pid_t) : Prop :=
  forall c, In c l -> pid c <> p.

(** How a run of [HandleWait] that started in [w] ended in [w'] with result
    [r], given the reply [m] it built, the events [closes] that came before
    the reply, and the registry [kept] it had when it came to reply, of
    which [removed] is what remains once the reply has gone through:
    - the reply is sent, once and without a descriptor, exactly when it
      encodes;
    - the result is 0 exactly when it encodes and sendmsg does not fail,
      and -1 otherwise;
    - [removed] is installed exactly when the result is 0. *)
Definition wait_reply (env : Env) (fd : Z) (w : World)
    (m : iTermMultiServerServerOriginatedMessage) (closes : list Event)
    (kept removed : list iTermMultiServerChild) (r : Z) (w' : World) : Prop :=
  let bytes := fst (sendmsg env (clock w)) in
  (r = 0 \/ r = -1) /\
  (r = 0 <-> encodes env m /\ 0 <= bytes) /\
  trace w' = trace w ++ closes ++
             (if fst (iTermMultiServerProtocolEncodeMessageFromServer env m) =? 0
              then [EvSend fd (encoded env m) None bytes] else []) /\
  children w' = (if r =? 0 then removed else kept).

(** The two halves of [HandleWait]: the case analysis that fixes [status]
    and [errorNumber], and the reply with the removal that follows it. *)
Definition HandleWait_decide (wait : iTermMultiServerRequestWait)
    (childIndex : Z) : M (Z * Z) :=
  if childIndex <? 0 then
    ret (0, -1)
  else
    let* c := child_at (Z.to_nat childIndex) in
    if negb (truthy (terminated c)) then
      if truthy (removePreemptively wait) then
        update_child (Z.to_nat childIndex) (set_willTerminate 1) ;;;
        let* c := child_at (Z.to_nat childIndex) in
        close (masterFd c) ;;;
        update_child (Z.to_nat childIndex) (set_masterFd (-1)) ;;;
        ret (0, 1)
      else
        ret (0, -2)
    else
      ret (status c, 0).

Definition HandleWait_reply (env : Env) (fd : Z) (wait : iTermMultiServerRequestWait)
    (childIndex : Z) (se : Z * Z) : M Z :=
  let status := fst se in
  let errorNumber := snd se in
  let message := ServerWait (wait_pid wait) status errorNumber in
  let '(rc, obj) := iTermMultiServerProtocolEncodeMessageFromServer env message in
  if truthy rc then ret (-1) else
  let* r := iTermFileDescriptorServerSendMessage env fd obj in
  let bytes := fst r in
  if bytes <? 0 then ret (-1) else
  when (errorNumber =? 0) (RemoveChild childIndex) ;;;
  ret 0.

(** Reportable children: the records with [!willTerminate]. *)
Definition reportable (c : iTermMultiServerChild) : bool :=
  negb (truthy (willTerminate c)).

(** The [isLast] flag [ReportChildren] computes for each record it reports,
    given how many it has sent before and the reportable count [n]. *)
Fixpoint numbered (numberSent n : Z) (cs : list iTermMultiServerChild)
    : list (iTermMultiServerChild * Z) :=
  match cs with
  | [] => []
  | c :: cs' => (c, of_bool (numberSent + 1 =? n)) :: numbered (numberSent + 1) n cs'
  end.

(** The ReportChild message the specification describes for a record: the
    fields of its launch record echoed, its pid, its tty, whether it has
    terminated, and the [is_last] flag. *)
Definition report_message (c : iTermMultiServerChild) (isLast : Z)
    : iTermMultiServerReportChild :=
  {| report_isLast := isLast;
     report_pid := pid c;
     report_path := launch_path (payload_launch (messageWithLaunchRequest c));
     report_argv := launch_argv (payload_launch (messageWithLaunchRequest c));
     report_argc := launch_argc (payload_launch (messageWithLaunchRequest c));
     report_envp := launch_envp (payload_launch (messageWithLaunchRequest c));
     report_envc := launch_envc (payload_launch (messageWithLaunchRequest c));
     report_isUTF8 := launch_isUTF8 (payload_launch (messageWithLaunchRequest c));
     report_pwd := launch_pwd (payload_launch (messageWithLaunchRequest c));
     report_terminated := if terminated c =? 0 then 0 else 1;
     report_tty := tty c |}.

(** That message for a record with its [isLast] flag, as it appears in the
    trace when sendmsg returned [bytes]: sent to [fd] with the record's
    master descriptor attached. *)
Definition report_event (env : Env) (fd : Z)
    (x : iTermMultiServerChild * Z * Z) : Event :=
  EvSend fd
    (encoded env (ServerReportChild (report_message (fst (fst x)) (snd (fst x)))))
    (Some (masterFd (fst (fst x)))) (snd x).

(** Calls that only consult the environment leave the globals and the
    trace alone. *)
Definition quiet (w w' : World) : Prop :=
  children w' = children w /\ trace w' = trace w /\ gPipe w' = gPipe w.

(** A record after the reaper has reaped it: [status] holds the wait status,
    [terminated] is 1 and the other fields are what they were. *)
Definition reaped (st : Z) (c : iTermMultiServerChild) : iTermMultiServerChild :=
  {| messageWithLaunchRequest := messageWithLaunchRequest c; pid := pid c;
     terminated := 1; willTerminate := willTerminate c;
     masterFd := masterFd c; status := st; tty := tty c |}.

(** One pass of the reaper over the registry, record by record: the
    registry before, the registry after, the messages sent and the result.
    A record is left alone (it was terminated already, or waitpid found
    nothing to report), or reaped without a message (disowned, or nobody
    attached), or reaped with its Termination message; a message that fails
    to encode or to be sent ends the pass with -1 and leaves the records
    behind it untouched. *)
Inductive reaps (env : Env) (fd : Z) :
  list iTermMultiServerChild -> list iTermMultiServerChild -> list Event -> Z -> Prop :=
| reaps_nil : reaps env fd [] [] [] 0
| reaps_skip c l l' evs r :
    reaps env fd l l' evs r ->
    reaps env fd (c :: l) (c :: l') evs r
| reaps_quiet c st l l' evs r :
    terminated c = 0 ->
    willTerminate c <> 0 \/ fd < 0 ->
    reaps env fd l l' evs r ->
    reaps env fd (c :: l) (reaped st c :: l') evs r
| reaps_report c st bytes l l' evs r :
    terminated c = 0 -> willTerminate c = 0 -> 0 <= fd ->
    encodes env (ServerTermination (pid c)) ->
    bytes <> -1 ->
    reaps env fd l l' evs r ->
    reaps env fd (c :: l) (reaped st c :: l')
          (EvSend fd (encoded env (ServerTermination (pid c))) None bytes :: evs) r
| reaps_send_failed c st l :
    terminated c = 0 -> willTerminate c = 0 -> 0 <= fd ->
    encodes env (ServerTermination (pid c)) ->
    reaps env fd (c :: l) (reaped st c :: l)
          [EvSend fd (encoded env (ServerTermination (pid c))) None (-1)] (-1)
| reaps_encode_failed c st l :
    terminated c = 0 -> willTerminate c = 0 -> 0 <= fd ->
    ~ encodes env (ServerTermination (pid c)) ->
    reaps env fd (c :: l) (reaped st c :: l) [] (-1).

(** The two retry tests of the reaper. *)
Definition retry_read (env : Env) (a : Z * Z) : bool :=
  (0 <? fst a) || ((fst a =? -1) && (snd a =? EINTR env)).

Definition retry_wait (env : Env) (a : waitpid_answer) : bool :=
  (wp_result a <? 0) && (wp_errno a =? EINTR env).

(** A retry loop that started with external call [n]: the calls from [n]
    on were retried as long as [retry] held of their number, and [m] is the
    number of the call after the first one that was not retried. *)
Definition settled (retry : nat -> bool) (n m : nat) : Prop :=
  exists k, m = S (n + k) /\ retry (n + k)%nat = false /\
    forall j, (j < k)%nat -> retry (n + j)%nat = true.

(** [WaitPidNoHang] started with call [n]: waitpid was called again while it
    failed with EINTR, [a] is its first answer that is not an interrupt and
    [m] the number of the call after it. *)
Definition polled (env : Env) (n : nat) (a : waitpid_answer) (m : nat) : Prop :=
  settled (fun i => retry_wait env (waitpid env i)) n m /\
  a = waitpid env (Nat.pred m).

(** The self-pipe was emptied by the calls from [n] up to [m]: read was
    called again while it returned a byte or failed with EINTR. *)
Definition drained (env : Env) (n m : nat) : Prop :=
  settled (fun i => retry_read env (read_pipe env i)) n m.

(** One pass of the reaper over the registry, record by record, with the
    answers of the environment: [reaps_at env fd n l l' evs r m] says that
    the pass whose first waitpid is external call [n] turns the registry [l]
    into [l'], sends [evs], returns [r] and leaves [m] as the number of the
    next call.

    A terminated record is passed over without a call.  For a running
    record waitpid is polled; when its answer is not positive the record is
    left as it is; when it is positive, the status waitpid reported is
    stored and [terminated] is set, and a Termination message is sent exactly
    when the record is not disowned and a client is attached.  A message
    that fails to encode or to be sent ends the pass with -1, leaving the
    records behind it untouched. *)
Inductive reaps_at (env : Env) (fd : Z) :
  nat -> list iTermMultiServerChild -> list iTermMultiServerChild ->
  list Event -> Z -> nat -> Prop :=
| reaps_at_nil n : reaps_at env fd n [] [] [] 0 n
| reaps_at_terminated n c l l' evs r m :
    terminated c <> 0 ->
    reaps_at env fd n l l' evs r m ->
    reaps_at env fd n (c :: l) (c :: l') evs r m
| reaps_at_running n a n1 c l l' evs r m :
    terminated c = 0 ->
    polled env n a n1 -> wp_result a <= 0 ->
    reaps_at env fd n1 l l' evs r m ->
    reaps_at env fd n (c :: l) (c :: l') evs r m
| reaps_at_quiet n a n1 c l l' evs r m :
    terminated c = 0 ->
    polled env n a n1 -> 0 < wp_result a ->
    willTerminate c <> 0 \/ fd < 0 ->
    reaps_at env fd n1 l l' evs r m ->
    reaps_at env fd n (c :: l) (reaped (wp_status a) c :: l') evs r m
| reaps_at_report n a n1 c l l' evs r m :
    terminated c = 0 ->
    polled env n a n1 -> 0 < wp_result a ->
    willTerminate c = 0 -> 0 <= fd ->
    encodes env (ServerTermination (pid c)) ->
    fst (sendmsg env n1) <> -1 ->
    reaps_at env fd (S n1) l l' evs r m ->
    reaps_at env fd n (c :: l) (reaped (wp_status a) c :: l')
      (EvSend fd (encoded env (ServerTermination (pid c))) None (fst (sendmsg env n1)) :: evs)
      r m
| reaps_at_send_failed n a n1 c l :
    terminated c = 0 ->
    polled env n a n1 -> 0 < wp_result a ->
    willTerminate c = 0 -> 0 <= fd ->
    encodes env (ServerTermination (pid c)) ->
    fst (sendmsg env n1) = -1 ->
    reaps_at env fd n (c :: l) (reaped (wp_status a) c :: l)
      [EvSend fd (encoded env (ServerTermination (pid c))) None (-1)] (-1) (S n1)
| reaps_at_encode_failed n a n1 c l :
    terminated c = 0 ->
    polled env n a n1 -> 0 < wp_result a ->
    willTerminate c = 0 -> 0 <= fd ->
    ~ encodes env (ServerTermination (pid c)) ->
    reaps_at env fd n (c :: l) (reaped (wp_status a) c :: l) [] (-1) n1.

(** The records that went from running to terminated between two states of
    the registry. *)
Fixpoint newly_reaped (l l' : list iTermMultiServerChild) : list iTermMultiServerChild :=
  match l, l' with
  | c :: l, c' :: l' =>
      if (terminated c =? 0) && negb (terminated c' =? 0)
      then c :: newly_reaped l l' else newly_reaped l l'
  | _, _ => []
  end.

Definition is_termination_for (env : Env) (fd : Z)
    (c : iTermMultiServerChild) (e : Event) : Prop :=
  exists bytes, bytes <> -1 /\
    e = EvSend fd (encoded env (ServerTermination (pid c))) None bytes.

(** The environment lets every retry loop of the reaper end within [fuel]
    turns: from any call number on, one of the next [fuel] answers to a read
    of the self-pipe reports an empty pipe (or an error other than EINTR),
    and one of the next [fuel] answers to waitpid is not an interrupt. *)
Definition settles (env : Env) (fuel : nat) : Prop :=
  forall n,
    (exists k, (k < fuel)%nat /\ retry_read env (read_pipe env (n + k)%nat) = false) /\
    (exists k, (k < fuel)%nat /\ retry_wait env (waitpid env (n + k)%nat) = false).

(** The request stage of one turn of the select loop. *)
Definition SelectLoop_request (env : Env) (readFd writeFd : Z) (results : nat -> Z) : M Z :=
  if truthy (results 2%nat) then ReadAndHandleRequest env readFd writeFd else ret 0.

(** The world in which [Initialize] starts: [main] has recorded the socket
    path and SIGPIPE has been set to be ignored. *)
Definition main_start (path : string) (w : World) : World :=
  tick (with_gMultiServerSocketPath (Some path) w).

(** The [forkState] local of [HandleLaunchRequest] as it is initialised. *)
Definition forkState0 : iTermForkState :=
  {| fork_pid := 0; connectionFd := -1; deadMansPipe := (0, 0);
     numFileDescriptorsToPreserve := 0 |}.

(** The descriptor [SendLaunchResponse] attaches. *)
Definition launch_response_attachment (masterFd : Z) : option Z :=
  if 0 <=? masterFd then Some masterFd else None.

(** The entry [AddChild] creates. *)
Definition launched_child (launch : iTermMultiServerRequestLaunch) (p : pid_t)
    (masterFd : Z) (tty : string) : iTermMultiServerChild :=
  {| messageWithLaunchRequest := ClientLaunch launch;
     pid := p; terminated := 0; willTerminate := 0;
     masterFd := masterFd; status := 0; tty := Some tty |}.

(** The codec returns a Launch request unchanged from an encode / parse
    round trip, which is what the two assertions of [AddChild] state. *)
Definition launch_round_trips (env : Env) (launch : iTermMultiServerRequestLaunch) : Prop :=
  fst (iTermMultiServerProtocolEncodeMessageFromClient env (ClientLaunch launch)) = 0 /\
  iTermMultiServerProtocolParseMessageFromClient env
    (snd (iTermMultiServerProtocolEncodeMessageFromClient env (ClientLaunch launch)))
  = (0, ClientLaunch launch).

(** The descriptors closed in a trace, in order. *)
Fixpoint closes_of (t : list Event) : list Z :=
  match t with
  | [] => []
  | EvClose fd :: t' => fd :: closes_of t'
  | _ :: t' => closes_of t'
  end.

(** The frames sent in a trace, with destination and attachment, in order. *)
Fixpoint sends_of (t : list Event) : list (Z * Frame * option Z) :=
  match t with
  | [] => []
  | EvSend fd frame attached _ :: t' => (fd, frame, attached) :: sends_of t'
  | _ :: t' => sends_of t'
  end.

(** A record either is reportable and holds its master descriptor, or has
    been disowned by a preemptive Wait, which closed the descriptor and left
    -1 in its place. *)
Definition descriptor_ok (c : iTermMultiServerChild) : Prop :=
  (willTerminate c = 0 /\ 0 <= masterFd c) \/ (willTerminate c = 1 /\ masterFd c = -1).

Definition registry_ok (l : list iTermMultiServerChild) : Prop := Forall descriptor_ok l.

(** A message that carries a descriptor carries a non-negative one. *)
Definition attachment_ok (e : Event) : Prop :=
  match e with
  | EvSend _ _ (Some fd) _ => 0 <= fd
  | _ => True
  end.

Definition daemon_ok (w : World) : Prop :=
  registry_ok (children w) /\ Forall attachment_ok (trace w).

(** What holds of a run in whatever state it stopped.  Where it returned,
    the registry and the trace are in order.  Where it halted, the trace is
    in order, and so is the registry, except that an assertion of [AddChild]
    stops the daemon with one more slot at the end of the registry, which
    has not been filled in. *)
Definition stays_ok {A} (o : outcome A) : Prop :=
  match o with
  | Done _ w => daemon_ok w
  | Halt h w =>
      Forall attachment_ok (trace w) /\
      (registry_ok (children w) \/
       (h = AssertionFailed /\
        exists l slot, children w = l ++ [slot] /\ registry_ok l))
  | OutOfFuel => True
  end.

(** pipe() hands out descriptors, which are not negative. *)
Definition pipe_gives_descriptors (env : Env) : Prop :=
  forall n, fst (pipe env n) = 0 -> 0 <= snd (snd (pipe env n)).

(** A run did not end in an access outside [children] (or [argv]). *)
Definition in_bounds {A} (o : outcome A) : Prop := forall w, o <> Halt OutOfBounds w.

(** Between two states of the registry nothing happened but reaping: each
    record is the one it was, or was running and has had its wait status
    stored. *)
Definition only_reaped (l l' : list iTermMultiServerChild) : Prop :=
  Forall2 (fun c c' => c' = c \/ (terminated c = 0 /\ exists st, c' = reaped st c)) l l'.

(** The records of the registry that belong to other processes than [p]. *)
Definition others (p : pid_t) (l : list iTermMultiServerChild) : list iTermMultiServerChild :=
  List.filter (fun c => negb (pid c =? p)) l.

(** ** Sample data

    A concrete environment and a few registries, used to run the daemon on
    explicit inputs. *)

Definition low_byte (z : Z) : byte :=
  match Byte.of_N (Z.to_N (z mod 256)) with
  | Some b => b
  | None => x00
  end.

(** The Launch request of the specification's second scenario. *)
Definition sample_launch : iTermMultiServerRequestLaunch :=
  {| launch_path := "/bin/true"; launch_argv := ["true"%string]; launch_argc := 1;
     launch_envp := []; launch_envc := 0; launch_columns := 80;
     launch_rows := 24; launch_pixel_width := 0; launch_pixel_height := 0;
     launch_isUTF8 := 1; launch_pwd := "/"; launch_uniqueId := 42 |}.

(** A toy codec: a tag byte followed by the low bytes of the numeric
    fields. *)
Definition sample_encode_server (m : iTermMultiServerServerOriginatedMessage)
    : Z * Frame :=
  (0, match m with
      | ServerHandshake v n p => [x00; low_byte v; low_byte n; low_byte p]
      | ServerLaunch st p u _ => [x01; low_byte st; low_byte p; low_byte u]
      | ServerWait p st en => [x02; low_byte p; low_byte st; low_byte en]
      | ServerReportChild r =>
          [x03; low_byte (report_isLast r); low_byte (report_pid r);
           low_byte (report_terminated r)]
      | ServerTermination p => [x04; low_byte p]
      end).

Definition sample_encode_client (m : iTermMultiServerClientOriginatedMessage)
    : Z * Frame :=
  (0, match m with
      | ClientHandshake h => [x00; low_byte (maximumProtocolVersion h)]
      | ClientLaunch l => [x01; low_byte (launch_uniqueId l)]
      | ClientWait wt => [x02; low_byte (wait_pid wt); low_byte (removePreemptively wt)]
      | ClientReportChild => [x03]
      | ClientTermination => [x04]
      end).

Definition sample_parse_client (f : Frame)
    : Z * iTermMultiServerClientOriginatedMessage :=
  match f with
  | [x00; v] =>
      (0, ClientHandshake {| maximumProtocolVersion := Z.of_N (Byte.to_N v) |})
  | [x01; _] => (0, ClientLaunch sample_launch)
  | [x02; p; r] =>
      (0, ClientWait {| wait_pid := Z.of_N (Byte.to_N p);
                        removePreemptively := Z.of_N (Byte.to_N r) |})
  | [x03] => (0, ClientReportChild)
  | [x04] => (0, ClientTermination)
  | _ => (1, ClientTermination)
  end.

(** What realloc happens to leave in a new slot. *)
Definition stale_slot : iTermMultiServerChild :=
  {| messageWithLaunchRequest := ClientTermination; pid := 4242; terminated := 3;
     willTerminate := 5; masterFd := -9; status := 11; tty := None |}.

(** An environment in which descriptors can be configured, the self-pipe is
    empty and signal set-up works; the remaining answers are parameters. *)
Definition sample_env
    (fork : nat -> forkpty_answer) (send : nat -> Z * Z)
    (wp : nat -> waitpid_answer) (select : nat -> nat -> Z)
    (rd : nat -> Z * Frame) (acc : nat -> Z) (pp : nat -> Z * (Z * Z)) : Env :=
  {| EINTR := 4; EAGAIN := 35; O_NONBLOCK := 4;
     iTermMultiServerProtocolVersion1 := 1;
     iTermMultiServerProtocolVersionRejected := -1;
     iTermMultiServerProtocolEncodeMessageFromServer := sample_encode_server;
     iTermMultiServerProtocolEncodeMessageFromClient := sample_encode_client;
     iTermMultiServerProtocolParseMessageFromClient := sample_parse_client;
     zeroed_message := ClientHandshake {| maximumProtocolVersion := 0 |};
     realloc_content := fun _ => stale_slot;
     getpid := 1000;
     forkpty := fork;
     sendmsg := send;
     waitpid := wp;
     read_pipe := fun _ => (-1, 35);
     iTermFileDescriptorServerAccept := acc;
     iTermSelect := select;
     iTermMultiServerRead := rd;
     pipe := pp;
     fcntl_getfl := fun _ => 2;
     fcntl_setfl := fun _ => (0, 0);
     signal_fails := fun _ => false;
     sigprocmask := fun _ => 0 |}.

Definition fork_ok (_ : nat) : forkpty_answer :=
  {| fp_pid := 501; fp_fd := 7; fp_tty := "/dev/ttys001"; fp_errno := 0 |}.

(** forkpty fails: it returns -1 and never writes the master descriptor, so
    [fd] still holds whatever the stack slot held, here 7. *)
Definition fork_fails (_ : nat) : forkpty_answer :=
  {| fp_pid := -1; fp_fd := 7; fp_tty := ""; fp_errno := 35 |}.

Definition send_ok (_ : nat) : Z * Z := (16, 0).
Definition send_fails (_ : nat) : Z * Z := (-1, 32).

Definition nobody_exited (_ : nat) : waitpid_answer :=
  {| wp_result := 0; wp_status := 0; wp_errno := 0 |}.
Definition child_exited (_ : nat) : waitpid_answer :=
  {| wp_result := 501; wp_status := 256; wp_errno := 0 |}.

(** Which of the polled descriptors the select call reports. *)
Definition only_ready (k : nat) (_ : nat) (i : nat) : Z :=
  if Nat.eqb i k then 1 else 0.

Definition read_hangup (_ : nat) : Z * Frame := (1, []).
(** A Handshake request offering protocol version 0. *)
Definition read_handshake_v0 (_ : nat) : Z * Frame := (0, [x00; x00]).

Definition accept_ok (_ : nat) : Z := 9.
Definition pipe_ok (_ : nat) : Z * (Z * Z) := (0, (5, 6)).
Definition pipe_fails (_ : nat) : Z * (Z * Z) := (-1, (0, 0)).

(** Everything works; the client has hung up when the daemon reads. *)
Definition env_ok : Env :=
  sample_env fork_ok send_ok nobody_exited (only_ready 2) read_hangup accept_ok pipe_ok.

(** The client is gone: every sendmsg fails with EPIPE. *)
Definition env_send_fails : Env :=
  sample_env fork_ok send_fails nobody_exited (only_ready 2) read_hangup accept_ok pipe_ok.

Definition env_fork_fails : Env :=
  sample_env fork_fails send_ok nobody_exited (only_ready 2) read_hangup accept_ok pipe_ok.

(** Children exit and the self-pipe is readable. *)
Definition env_exits : Env :=
  sample_env fork_ok send_ok child_exited (only_ready 0) read_hangup accept_ok pipe_ok.

Definition env_handshake_v0 : Env :=
  sample_env fork_ok send_ok nobody_exited (only_ready 2) read_handshake_v0 accept_ok pipe_ok.

(** A second client knocks while one is attached. *)
Definition env_intruder : Env :=
  sample_env fork_ok send_ok nobody_exited (only_ready 1) read_hangup accept_ok pipe_ok.

Definition env_pipe_fails : Env :=
  sample_env fork_ok send_ok nobody_exited (only_ready 2) read_hangup accept_ok pipe_fails.

(** The state of the globals when the process starts. *)
Definition boot : World :=
  {| children := []; gPipe := (0, 0); gPath := None;
     gMultiServerSocketPath := None; trace := []; clock := O |}.

Definition running : iTermMultiServerChild :=
  launched_child sample_launch 501 7 "/dev/ttys001".
Definition exited : iTermMultiServerChild := reaped 256 running.
Definition disowned : iTermMultiServerChild :=
  set_masterFd (-1) (set_willTerminate 1 running).
Definition disowned_exited : iTermMultiServerChild := reaped 256 disowned.
Definition another (p : pid_t) : iTermMultiServerChild :=
  launched_child sample_launch p 8 "/dev/ttys002".

Definition wait_for (p : pid_t) (preemptive : Z) : iTermMultiServerRequestWait :=
  {| wait_pid := p; removePreemptively := preemptive |}.

Definition registry (l : list iTermMultiServerChild) : World := with_children l boot.

Definition sample_argv : list string :=
  ["iTermServer"; "/tmp/iterm2.socket"]%string.

Definition handshake_v (v : Z) : iTermMultiServerRequestHandshake :=
  {| maximumProtocolVersion := v |}.

(** A launched child whose pid fits the one byte the toy codec gives it. *)
Definition fork_small (_ : nat) : forkpty_answer :=
  {| fp_pid := 77; fp_fd := 7; fp_tty := "/dev/ttys001"; fp_errno := 0 |}.

Definition all_ready (_ : nat) (_ : nat) : Z := 1.

(** The requests of a whole session, by call number: the daemon's 23rd
    external call reads a Launch request and its 31st a preemptive Wait for
    the launched child; every other read finds the client gone. *)
Definition read_session (n : nat) : Z * Frame :=
  if Nat.eqb n 22 then (0, [x01; x00])
  else if Nat.eqb n 30 then (0, [x02; x4d; x01])
  else (1, []).

(** A session in which every descriptor is always ready: a child is
    launched, intruders are turned away, the child is disowned, the client
    hangs up and the daemon exits. *)
Definition env_session : Env :=
  sample_env fork_small send_ok nobody_exited all_ready read_session accept_ok pipe_ok.

(** An environment whose codec cannot encode a client message, so that the
    first assertion of [AddChild] fails. *)
Definition cannot_copy (e : Env) : Env :=
  {| EINTR := EINTR e; EAGAIN := EAGAIN e; O_NONBLOCK := O_NONBLOCK e;
     iTermMultiServerProtocolVersion1 := iTermMultiServerProtocolVersion1 e;
     iTermMultiServerProtocolVersionRejected := iTermMultiServerProtocolVersionRejected e;
     iTermMultiServerProtocolEncodeMessageFromServer :=
       iTermMultiServerProtocolEncodeMessageFromServer e;
     iTermMultiServerProtocolEncodeMessageFromClient := fun _ => (1, []);
     iTermMultiServerProtocolParseMessageFromClient :=
       iTermMultiServerProtocolParseMessageFromClient e;
     zeroed_message := zeroed_message e;
     realloc_content := realloc_content e;
     getpid := getpid e;
     forkpty := forkpty e;
     sendmsg := sendmsg e;
     waitpid := waitpid e;
     read_pipe := read_pipe e;
     iTermFileDescriptorServerAccept := iTermFileDescriptorServerAccept e;
     iTermSelect := iTermSelect e;
     iTermMultiServerRead := iTermMultiServerRead e;
     pipe := pipe e;
     fcntl_getfl := fcntl_getfl e;
     fcntl_setfl := fcntl_setfl e;
     signal_fails := signal_fails e;
     sigprocmask := sigprocmask e |}.

(** ** Running the monad *)

Lemma bind_Done {A B} (m : M A) (k : A -> M B) w a w1 :
  m w = Done a w1 -> bind m k w = k a w1.
Proof. unfold bind. intros ->. reflexivity. Qed.

Lemma bind_inv {A B} (m : M A) (k : A -> M B) w b w' :
  bind m k w = Done b w' -> exists a w1, m w = Done a w1 /\ k a w1 = Done b w'.
Proof.
  unfold bind. destruct (m w) as [a w1| |]; try discriminate.
  intros H. exists a, w1. split; [reflexivity | exact H].
Qed.

Lemma child_at_Some w i c : children w !! i = Some c -> child_at i w = Done c w.
Proof. unfold child_at. intros ->. reflexivity. Qed.

Lemma update_child_Some w i c f :
  children w !! i = Some c ->
  update_child i f w = Done tt (with_children (<[i := f c]> (children w)) w).
Proof.
  intros H. unfold update_child. rewrite (bind_Done _ _ _ _ _ (child_at_Some _ _ _ H)).
  reflexivity.
Qed.

Lemma quiet_trans w1 w2 w3 : quiet w1 w2 -> quiet w2 w3 -> quiet w1 w3.
Proof. unfold quiet. intros (?&?&?) (?&?&?). repeat split; congruence. Qed.

Lemma ask_quiet env {A} (f : Env -> nat -> A) w a w' :
  ask env f w = Done a w' -> quiet w w' /\ a = f env (clock w).
Proof. unfold ask. intros [= <- <-]. split; [repeat split | reflexivity]. Qed.

(** A loop whose turns are quiet is quiet, and what it returns is what some
    turn returned. *)
Lemma iter_quiet {I R} (Q : R -> Prop) fuel (body : I -> M (I + R)) :
  (forall i w x w1, body i w = Done x w1 ->
     quiet w w1 /\ match x with inl _ => True | inr r => Q r end) ->
  forall i w r w', iter fuel body i w = Done r w' -> quiet w w' /\ Q r.
Proof.
  intros Hbody. induction fuel as [|fuel IH]; intros i w r w'; simpl; [discriminate|].
  intros H. apply bind_inv in H as (x & w1 & Hx & H).
  apply Hbody in Hx as [Hq Hx]. destruct x as [i' | r'].
  - apply IH in H as [Hq' Hr]. split; [eapply quiet_trans; eassumption | exact Hr].
  - unfold ret in H. injection H as <- <-. split; assumption.
Qed.

(** ** The registry *)

Lemma find_pid_from (l : list iTermMultiServerChild) (p : pid_t) (k : Z) :
  0 <= k ->
  (find_pid l p k = -1 /\ no_match l p) \/
  (exists i c, find_pid l p k = k + Z.of_nat i /\ first_match l p i c).
Proof.
  revert k. induction l as [|c l IH]; intros k Hk; simpl.
  - left. split; [reflexivity | intros c []].
  - destruct (pid c =? p) eqn:E.
    + right. exists O, c. split; [lia|].
      repeat split; [lia | intros j c' Hj; lia].
    + apply Z.eqb_neq in E.
      destruct (IH (k + 1) ltac:(lia)) as [[H1 H2] | (i & c' & H1 & H2 & H3 & H4)].
      * left. split; [assumption|].
        intros c' [<- | Hin]; [assumption | apply H2; assumption].
      * right. exists (S i), c'. split; [lia|].
        repeat split; [assumption | assumption |].
        intros [|j] c'' Hj; simpl; intros Hl.
        -- congruence.
        -- apply (H4 j); [lia | assumption].
Qed.

Lemma GetChildIndexByPID_first_match w p i c :
  first_match (children w) p i c -> GetChildIndexByPID p w = Done (Z.of_nat i) w.
Proof.
  intros Hm. unfold GetChildIndexByPID. cbv [bind get ret]. f_equal.
  destruct (find_pid_from (children w) p 0 ltac:(lia)) as [[_ Hn] | (j & d & Hf & Hj)].
  - exfalso. destruct Hm as (Hi & Hp & _). apply (Hn c); [|exact Hp].
    apply list_elem_of_In. apply list_elem_of_lookup. eauto.
  - rewrite Hf. destruct Hm as (Hi & Hpi & Hbi). destruct Hj as (Hj & Hpj & Hbj).
    destruct (Nat.lt_trichotomy i j) as [H | [H | H]].
    + exfalso. exact (Hbj i c H Hi Hpi).
    + subst j. lia.
    + exfalso. exact (Hbi j d H Hj Hpj).
Qed.

Lemma first_match_bound l p i c : first_match l p i c -> (i < length l)%nat.
Proof. intros [H _]. apply lookup_lt_Some in H. exact H. Qed.

Lemma first_match_unique l p i c j d :
  first_match l p i c -> first_match l p j d -> i = j /\ c = d.
Proof.
  intros (Hi & Hpi & Hbi) (Hj & Hpj & Hbj).
  assert (i = j) as ->.
  { destruct (Nat.lt_trichotomy i j) as [H | [H | H]]; [|assumption|].
    - exfalso. exact (Hbj i c H Hi Hpi).
    - exfalso. exact (Hbi j d H Hj Hpj). }
  split; congruence.
Qed.

Lemma first_match_not_no_match l p i c : first_match l p i c -> ~ no_match l p.
Proof.
  intros (Hi & Hp & _) Hn. apply (Hn c); [|assumption].
  apply list_elem_of_In. apply list_elem_of_lookup. eauto.
Qed.

Lemma count_reportable_filter l n :
  count_reportable l n = n + Z.of_nat (length (List.filter reportable l)).
Proof.
  revert n. induction l as [|c l IH]; intros n; simpl.
  - lia.
  - unfold reportable at 1. destruct (truthy (willTerminate c)); simpl.
    + apply IH.
    + rewrite IH. lia.
Qed.

(** [RemoveChild] deletes the entry at a valid index, on both of its
    branches, and its assertions hold there. *)
Lemma RemoveChild_run w i :
  0 <= i < Z.of_nat (length (children w)) ->
  RemoveChild i w = Done tt (with_children (delete (Z.to_nat i) (children w)) w).
Proof.
  intros Hi.
  assert (H0 : (0 <=? i) = true) by (apply Z.leb_le; lia).
  assert (Hn : (i <? Z.of_nat (length (children w))) = true) by (apply Z.ltb_lt; lia).
  unfold RemoveChild, FreeChild, assert, numberOfChildren.
  cbv [bind ret get]. repeat (progress (rewrite ?H0, ?Hn; cbv beta iota)).
  destruct (Z.eqb_spec (Z.of_nat (length (children w))) 1) as [H1 | H1].
  - destruct (children w) as [|c [|c' l]] eqn:E; simpl in H1; try lia.
    assert (i = 0) as -> by (simpl in Hi; lia).
    unfold modify, with_children. simpl. rewrite ?E. reflexivity.
  - destruct (lookup_lt_is_Some_2 (children w) (Z.to_nat i) ltac:(lia)) as [c Hc].
    repeat (progress (rewrite ?H0, ?Hn; cbv beta iota)).
    rewrite (update_child_Some _ _ _ _ Hc). unfold modify. simpl.
    rewrite take_insert_ge by lia. rewrite drop_insert_lt by lia.
    rewrite <- delete_take_drop. reflexivity.
Qed.

(** ** The Wait handler *)

Lemma HandleWait_eq env fd wait :
  HandleWait env fd wait =
  (let* childIndex := GetChildIndexByPID (wait_pid wait) in
   let* se := HandleWait_decide wait childIndex in
   HandleWait_reply env fd wait childIndex se).
Proof. reflexivity. Qed.

Lemma HandleWait_reply_run env fd wait idx st en w :
  (en = 0 -> 0 <= idx < Z.of_nat (length (children w))) ->
  exists r w',
    HandleWait_reply env fd wait idx (st, en) w = Done r w' /\
    wait_reply env fd w (ServerWait (wait_pid wait) st en) []
      (children w)
      (if en =? 0 then delete (Z.to_nat idx) (children w) else children w) r w'.
Proof.
  intros Hidx. unfold HandleWait_reply, wait_reply, encodes, encoded. simpl.
  destruct (iTermMultiServerProtocolEncodeMessageFromServer env
              (ServerWait (wait_pid wait) st en)) as [rc obj]. simpl.
  unfold truthy. destruct (Z.eqb_spec rc 0) as [Hrc | Hrc]; simpl.
  - unfold iTermFileDescriptorServerSendMessage, ask, emit, modify.
    cbv [bind ret]. simpl.
    destruct (Z.ltb_spec (fst (sendmsg env (clock w))) 0) as [Hb | Hb].
    + eexists _, _. split; [reflexivity|]. simpl.
      repeat split; try tauto; try lia.
    + unfold when. destruct (Z.eqb_spec en 0) as [He | He].
      * rewrite RemoveChild_run by (simpl; auto).
        eexists _, _. split; [reflexivity|]. simpl.
        repeat split; try tauto; try lia.
      * eexists _, _. split; [reflexivity|]. simpl.
        repeat split; try tauto; try lia.
  - eexists _, _. split; [reflexivity|]. simpl. rewrite app_nil_r.
    repeat split; try tauto; try lia.
Qed.

Lemma wait_reply_closes env fd w w1 m closes kept removed r w' :
  clock w1 = clock w ->
  trace w1 = trace w ++ closes ->
  wait_reply env fd w1 m [] kept removed r w' ->
  wait_reply env fd w m closes kept removed r w'.
Proof.
  unfold wait_reply. intros Hc Ht (H1 & H2 & H3 & H4). rewrite Hc in *.
  repeat split; try tauto. rewrite H3, Ht. simpl. rewrite <- app_assoc. reflexivity.
Qed.

(** Every run of the handler returns, and falls under exactly one of the four
    cases of the case analysis. *)
Lemma HandleWait_run env fd wait w :
  let p := wait_pid wait in
  exists r w', HandleWait env fd wait w = Done r w' /\
   ( (no_match (children w) p /\
      wait_reply env fd w (ServerWait p 0 (-1)) [] (children w) (children w) r w')
   \/ (exists i c, first_match (children w) p i c /\
        terminated c = 0 /\ removePreemptively wait = 0 /\
        wait_reply env fd w (ServerWait p 0 (-2)) [] (children w) (children w) r w')
   \/ (exists i c, first_match (children w) p i c /\
        terminated c = 0 /\ removePreemptively wait <> 0 /\
        let l := <[i := set_masterFd (-1) (set_willTerminate 1 c)]> (children w) in
        wait_reply env fd w (ServerWait p 0 1) [EvClose (masterFd c)] l l r w')
   \/ (exists i c, first_match (children w) p i c /\
        terminated c <> 0 /\
        wait_reply env fd w (ServerWait p (status c) 0) []
          (children w) (delete i (children w)) r w')).
Proof.
  intros p. rewrite HandleWait_eq. unfold GetChildIndexByPID.
  destruct (find_pid_from (children w) p 0 ltac:(lia)) as [[Hf Hn] | (i & c & Hf & Hm)].
  - cbv [bind get ret]. fold p. rewrite Hf. unfold HandleWait_decide. simpl.
    destruct (HandleWait_reply_run env fd wait (-1) 0 (-1) w ltac:(lia))
      as (r & w' & Hrun & Hrep).
    exists r, w'. split; [exact Hrun|]. left. split; [exact Hn | exact Hrep].
  - pose proof Hm as (Hl & Hp & Hb).
    pose proof (first_match_bound _ _ _ _ Hm) as Hlen.
    rewrite Z.add_0_l in Hf.
    cbv [bind get ret]. fold p. rewrite Hf. unfold HandleWait_decide.
    replace (Z.of_nat i <? 0) with false by (symmetry; apply Z.ltb_ge; lia).
    rewrite Nat2Z.id. cbv [bind]. rewrite (child_at_Some _ _ _ Hl).
    unfold truthy.
    destruct (Z.eqb_spec (terminated c) 0) as [Ht | Ht]; simpl.
    + destruct (Z.eqb_spec (removePreemptively wait) 0) as [Hr | Hr]; simpl.
      * destruct (HandleWait_reply_run env fd wait (Z.of_nat i) 0 (-2) w ltac:(lia))
          as (r & w' & Hrun & Hrep).
        exists r, w'. split; [exact Hrun|]. right; left. exists i, c. auto.
      * rewrite (update_child_Some _ _ _ _ Hl).
        set (w1 := with_children (<[i:=set_willTerminate 1 c]> (children w)) w).
        assert (Hl1 : children w1 !! i = Some (set_willTerminate 1 c)).
        { subst w1. simpl. apply list_lookup_insert_eq. lia. }
        rewrite (child_at_Some _ _ _ Hl1). unfold close, emit, modify. simpl.
        set (w2 := with_trace _ w1).
        assert (Hl2 : children w2 !! i = Some (set_willTerminate 1 c)) by exact Hl1.
        rewrite (update_child_Some _ _ _ _ Hl2).
        set (w3 := with_children _ w2).
        destruct (HandleWait_reply_run env fd wait (Z.of_nat i) 0 1 w3 ltac:(lia))
          as (r & w' & Hrun & Hrep).
        exists r, w'. split; [exact Hrun|]. right; right; left. exists i, c.
        split; [assumption|]. split; [assumption|]. split; [assumption|]. cbv zeta.
        assert (Hc3 : children w3 =
                      <[i:=set_masterFd (-1) (set_willTerminate 1 c)]> (children w)).
        { subst w3 w2 w1. simpl. apply list_insert_insert_eq. }
        rewrite Hc3 in Hrep.
        apply (wait_reply_closes env fd w w3); [reflexivity | reflexivity | exact Hrep].
    + destruct (HandleWait_reply_run env fd wait (Z.of_nat i) (status c) 0 w ltac:(lia))
        as (r & w' & Hrun & Hrep).
      exists r, w'. split; [exact Hrun|]. right; right; right. exists i, c.
      split; [assumption|]. split; [assumption|].
      simpl in Hrep. rewrite Nat2Z.id in Hrep. exact Hrep.
Qed.

Lemma count_reportable_delete l i c n :
  l !! i = Some c -> reportable c = false ->
  count_reportable (delete i l) n = count_reportable l n.
Proof.
  revert i n. induction l as [|d l IH]; intros i n Hl Hc; [discriminate|].
  destruct i as [|i]; simpl in *.
  - injection Hl as ->. unfold reportable in Hc. apply negb_false_iff in Hc.
    rewrite Hc. reflexivity.
  - destruct (truthy (willTerminate d)); apply IH; assumption.
Qed.

(** C1 (as amended).  The Wait handler always returns, and its reply and its
    effect on the registry follow the four-way case analysis: no record with
    the pid: reply (status 0, errorNumber -1), registry unchanged; a running
    record, not preemptive: reply (0, -2), registry unchanged; a running
    record, preemptive: willTerminate set, masterFd closed and set to -1,
    reply (0, 1), record kept; a terminated record: reply (recorded status,
    0), and the record is removed when the reply has been encoded and
    sent ([wait_reply]: the result is then 0), while a reply that could not
    be encoded or sent gives -1 and leaves the record in place. *)
Theorem HandleWait_case_analysis env fd wait w :
  let p := wait_pid wait in
  exists r w', HandleWait env fd wait w = Done r w' /\
   ( (no_match (children w) p /\
      wait_reply env fd w (ServerWait p 0 (-1)) [] (children w) (children w) r w')
   \/ (exists i c, first_match (children w) p i c /\
        terminated c = 0 /\ removePreemptively wait = 0 /\
        wait_reply env fd w (ServerWait p 0 (-2)) [] (children w) (children w) r w')
   \/ (exists i c, first_match (children w) p i c /\
        terminated c = 0 /\ removePreemptively wait <> 0 /\
        let l := <[i := set_masterFd (-1) (set_willTerminate 1 c)]> (children w) in
        wait_reply env fd w (ServerWait p 0 1) [EvClose (masterFd c)] l l r w')
   \/ (exists i c, first_match (children w) p i c /\
        terminated c <> 0 /\
        wait_reply env fd w (ServerWait p (status c) 0) []
          (children w) (delete i (children w)) r w')).
Proof. exact (HandleWait_run env fd wait w). Qed.

(** C10.  In the Wait handler a record leaves the registry only when the
    reply has been sent: if the registry got shorter, the handler returned 0
    and the trace ends with the successfully sent reply carrying errorNumber
    0.  When the reply for a terminated record cannot be encoded or sendmsg
    fails, the handler returns -1 and the registry is what it was, so the
    record and its status are still there for a later Wait. *)
Theorem HandleWait_removes_only_after_reply env fd wait w r w' :
  HandleWait env fd wait w = Done r w' ->
  let p := wait_pid wait in
  let bytes := fst (sendmsg env (clock w)) in
  ((length (children w') < length (children w))%nat ->
     r = 0 /\ 0 <= bytes /\
     exists st, encodes env (ServerWait p st 0) /\
       trace w' = trace w ++ [EvSend fd (encoded env (ServerWait p st 0)) None bytes]) /\
  (forall i c, first_match (children w) p i c -> terminated c <> 0 ->
     ~ (encodes env (ServerWait p (status c) 0) /\ 0 <= bytes) ->
     r = -1 /\ children w' = children w).
Proof.
  intros Hrun p bytes.
  destruct (HandleWait_run env fd wait w) as (r0 & w0 & Hrun0 & Hcase).
  rewrite Hrun in Hrun0. injection Hrun0 as <- <-. fold p in Hcase.
  split.
  - intros Hshort.
    destruct Hcase as [[_ H] | [(j & d & _ & _ & _ & H) | [(j & d & _ & _ & _ & H)
                     | (j & d & Hj & Ht & H)]]].
    + destruct H as (_ & _ & _ & Hch). rewrite Hch in Hshort.
      destruct (r =? 0); lia.
    + destruct H as (_ & _ & _ & Hch). rewrite Hch in Hshort.
      destruct (r =? 0); lia.
    + cbv zeta in H. destruct H as (_ & _ & _ & Hch). rewrite Hch in Hshort.
      destruct (r =? 0); rewrite length_insert in Hshort; lia.
    + destruct H as (_ & Hiff & Htr & Hch). rewrite Hch in Hshort.
      destruct (Z.eqb_spec r 0) as [Hr | Hr]; [|lia].
      destruct (proj1 Hiff Hr) as [Henc Hb].
      split; [exact Hr|]. split; [exact Hb|]. exists (status d).
      split; [exact Henc|]. unfold encodes in Henc. rewrite Henc in Htr. exact Htr.
  - intros i c Hm Ht Hfail.
    destruct Hcase as [[Hn _] | [(j & d & Hj & Ht' & _) | [(j & d & Hj & Ht' & _)
                     | (j & d & Hj & _ & H)]]].
    + exfalso. exact (first_match_not_no_match _ _ _ _ Hm Hn).
    + destruct (first_match_unique _ _ _ _ _ _ Hm Hj) as [<- <-]. contradiction.
    + destruct (first_match_unique _ _ _ _ _ _ Hm Hj) as [<- <-]. contradiction.
    + destruct (first_match_unique _ _ _ _ _ _ Hm Hj) as [<- <-].
      destruct H as (Hr & Hiff & _ & Hch).
      destruct (Z.eqb_spec r 0) as [Hr0 | Hr0].
      * exfalso. apply Hfail. apply Hiff. exact Hr0.
      * split; [lia | exact Hch].
Qed.

(** ** The handshake *)

Lemma HandleHandshake_low_version env fd handshake w :
  maximumProtocolVersion handshake < iTermMultiServerProtocolVersion1 env ->
  HandleHandshake env fd handshake w = Done (-1) w.
Proof.
  intros H. unfold HandleHandshake.
  replace (_ <? _) with true by (symmetry; apply Z.ltb_lt; exact H). reflexivity.
Qed.

(** [PopulateReportChild] builds the message the specification describes. *)
Lemma PopulateReportChild_report_message c isLast :
  PopulateReportChild c isLast = report_message c isLast.
Proof.
  unfold PopulateReportChild, report_message, truthy, of_bool. simpl.
  destruct (terminated c =? 0); reflexivity.
Qed.

Lemma ReportChild_inv env fd c isLast w e w' :
  ReportChild env fd c isLast w = Done e w' ->
  children w' = children w /\
  exists xs, trace w' = trace w ++ map (report_event env fd) xs /\
    (e = 0 -> exists bytes, xs = [(c, isLast, bytes)] /\ 0 <= bytes).
Proof.
  unfold ReportChild.
  destruct (iTermMultiServerProtocolEncodeMessageFromServer env
             (ServerReportChild (PopulateReportChild c isLast))) as [rc obj] eqn:Henc.
  destruct (truthy rc) eqn:Hrc.
  - unfold ret. intros [= <- <-]. split; [reflexivity|]. exists [].
    split; [simpl; rewrite app_nil_r; reflexivity | discriminate].
  - unfold iTermFileDescriptorServerSendMessageAndFileDescriptor, ask, emit, modify.
    cbv [bind ret]. simpl.
    assert (Hobj : obj = encoded env (ServerReportChild (PopulateReportChild c isLast))).
    { unfold encoded. rewrite Henc. reflexivity. }
    rewrite PopulateReportChild_report_message in Hobj.
    destruct (Z.ltb_spec (fst (sendmsg env (clock w))) 0) as [Hb | Hb].
    + unfold assert. destruct (negb _); [|discriminate]. unfold ret.
      intros [= <- <-]. simpl. split; [reflexivity|].
      exists [(c, isLast, fst (sendmsg env (clock w)))].
      split; [unfold report_event; simpl; rewrite Hobj; reflexivity | discriminate].
    + intros [= <- <-]. simpl. split; [reflexivity|].
      exists [(c, isLast, fst (sendmsg env (clock w)))].
      split; [unfold report_event; simpl; rewrite Hobj; reflexivity |].
      intros _. eexists. split; [reflexivity | exact Hb].
Qed.

Lemma ReportChildren_from_inv env fd n k numberSent w r w' :
  ReportChildren_from env fd n k numberSent w = Done r w' ->
  children w' = children w /\
  exists xs, trace w' = trace w ++ map (report_event env fd) xs /\
    (r = 0 ->
     map fst xs = numbered numberSent n (List.filter reportable (rev (take k (children w)))) /\
     Forall (fun x => 0 <= snd x) xs).
Proof.
  revert numberSent w r w'. induction k as [|i IH]; intros numberSent w r w'; simpl.
  - unfold ret. intros [= <- <-]. split; [reflexivity|]. exists [].
    split; [simpl; rewrite app_nil_r; reflexivity|].
    intros _. simpl. split; [reflexivity | constructor].
  - intros H. apply bind_inv in H as (c & w1 & Hc & H).
    unfold child_at in Hc. destruct (children w !! i) as [c0|] eqn:Hl; [|discriminate].
    injection Hc as <- <-.
    assert (Hrev : rev (take (S i) (children w)) = c0 :: rev (take i (children w))).
    { rewrite (take_S_r _ _ _ Hl). rewrite rev_app_distr. reflexivity. }
    rewrite Hrev. simpl. unfold reportable at 1.
    destruct (truthy (willTerminate c0)) eqn:Hwt; simpl.
    + apply IH in H. exact H.
    + apply bind_inv in H as (e & w1 & He & H).
      apply ReportChild_inv in He as (Hch & xs1 & Htr & Hok).
      destruct (truthy e) eqn:Hte.
      * unfold ret in H. injection H as <- <-. split; [exact Hch|].
        exists xs1. split; [exact Htr | discriminate].
      * apply IH in H as (Hch2 & xs2 & Htr2 & Hok2).
        split; [congruence|]. exists (xs1 ++ xs2).
        split. { rewrite Htr2, Htr, map_app, app_assoc. reflexivity. }
        intros Hr. destruct (Hok2 Hr) as [Hm Hf].
        assert (e = 0) as He0.
        { unfold truthy in Hte. apply negb_false_iff in Hte. apply Z.eqb_eq in Hte. exact Hte. }
        destruct (Hok He0) as (bytes & -> & Hb).
        simpl. rewrite Hm, Hch. split; [reflexivity|].
        constructor; [exact Hb | exact Hf].
Qed.

Lemma numbered_fst s n cs : map fst (numbered s n cs) = cs.
Proof.
  revert s. induction cs as [|c cs IH]; intros s; simpl; [reflexivity|].
  rewrite IH. reflexivity.
Qed.

Lemma numbered_lookup s n cs j x :
  numbered s n cs !! j = Some x -> snd x = of_bool (s + Z.of_nat j + 1 =? n).
Proof.
  revert s j. induction cs as [|c cs IH]; intros s j; simpl; [discriminate|].
  destruct j as [|j]; simpl.
  - intros [= <-]. simpl. f_equal. f_equal. lia.
  - intros H. apply IH in H. rewrite H. f_equal. f_equal. lia.
Qed.

Lemma numbered_count s n cs :
  s + Z.of_nat (length cs) = n ->
  length (List.filter (fun x => truthy (snd x)) (numbered s n cs)) =
  match cs with [] => O | _ => 1%nat end.
Proof.
  revert s. induction cs as [|c cs IH]; intros s Hn; simpl; [reflexivity|].
  simpl in Hn. specialize (IH (s + 1) ltac:(lia)).
  destruct cs as [|c' cs'].
  - simpl in *. replace (s + 1 =? n) with true by (symmetry; apply Z.eqb_eq; lia).
    reflexivity.
  - replace (s + 1 =? n) with false by (symmetry; apply Z.eqb_neq; simpl in Hn; lia).
    simpl of_bool. cbn [truthy Z.eqb negb snd]. exact IH.
Qed.

Lemma filter_map_length {A B} (f : A -> B) (p : B -> bool) (l : list A) :
  length (List.filter (fun x => p (f x)) l) = length (List.filter p (map f l)).
Proof.
  induction l as [|a l IH]; simpl; [reflexivity|].
  destruct (p (f a)); simpl; rewrite IH; reflexivity.
Qed.

Lemma HandleHandshake_run env fd handshake w w' :
  HandleHandshake env fd handshake w = Done 0 w' ->
  let n := count_reportable (children w) 0 in
  iTermMultiServerProtocolVersion1 env <= maximumProtocolVersion handshake /\
  children w' = children w /\
  exists bytes xs,
    trace w' = trace w ++
      EvSend fd (encoded env (ServerHandshake (iTermMultiServerProtocolVersion1 env) n (getpid env)))
             None bytes :: map (report_event env fd) xs /\
    0 <= bytes /\
    Forall (fun x => 0 <= snd x) xs /\
    map fst xs = numbered 0 n (List.filter reportable (rev (children w))).
Proof.
  intros H n. unfold HandleHandshake in H.
  destruct (Z.ltb_spec (maximumProtocolVersion handshake) (iTermMultiServerProtocolVersion1 env))
    as [Hv | Hv]; [discriminate|].
  split; [exact Hv|].
  unfold GetNumberOfReportableChildren in H. cbv [bind get ret] in H. fold n in H.
  destruct (iTermMultiServerProtocolEncodeMessageFromServer env
              (ServerHandshake (iTermMultiServerProtocolVersion1 env) n (getpid env)))
    as [rc obj] eqn:Henc.
  destruct (truthy rc); [discriminate|].
  unfold iTermFileDescriptorServerSendMessage, ask, emit, modify in H.
  cbv [bind ret] in H. simpl in H.
  destruct (Z.ltb_spec (fst (sendmsg env (clock w))) 0) as [Hb | Hb]; [discriminate|].
  unfold ReportChildren, GetNumberOfReportableChildren in H.
  cbv [bind get ret] in H. simpl in H. fold n in H.
  apply ReportChildren_from_inv in H as (Hch & xs & Htr & Hok).
  simpl in Hch, Htr. split; [exact Hch|].
  exists (fst (sendmsg env (clock w))), xs.
  destruct (Hok eq_refl) as [Hm Hf]. simpl in Hm. rewrite firstn_all in Hm.
  split; [|split; [exact Hb | split; [exact Hf | exact Hm]]].
  rewrite Htr. rewrite <- app_assoc. simpl. unfold encoded. rewrite Henc. reflexivity.
Qed.

(** C6.  When the handshake exchange succeeds (the handler returns 0) the
    daemon has sent the Handshake reply carrying the reportable count [n],
    followed by ReportChild messages and nothing else: one message per
    reportable record, from the last registry entry to the first, so their
    number is [n].  Each is sent to [fd] with the record's master descriptor
    attached, and its frame encodes the message the specification describes
    for the record.  The message at position [j] has its [isLast] field set
    to 1 exactly when [j + 1 = n], so the number of messages sent with isLast
    set is 1 when [n >= 1] and 0 otherwise; and no ReportChild is sent when
    [n = 0]. *)
Theorem handshake_reports_every_reportable_child env fd handshake w w' :
  HandleHandshake env fd handshake w = Done 0 w' ->
  let n := count_reportable (children w) 0 in
  exists bytes (xs : list (iTermMultiServerChild * Z * Z)),
    let messages := map (fun x => report_message (fst (fst x)) (snd (fst x))) xs in
    trace w' = trace w ++
      EvSend fd (encoded env (ServerHandshake (iTermMultiServerProtocolVersion1 env) n (getpid env)))
             None bytes ::
      map (fun x => EvSend fd
                      (encoded env (ServerReportChild
                                      (report_message (fst (fst x)) (snd (fst x)))))
                      (Some (masterFd (fst (fst x)))) (snd x)) xs /\
    map (fun x => fst (fst x)) xs = List.filter reportable (rev (children w)) /\
    Z.of_nat (length xs) = n /\
    (forall j x, xs !! j = Some x -> snd (fst x) = of_bool (Z.of_nat j + 1 =? n)) /\
    length (List.filter (fun x => truthy (snd (fst x))) xs) = (if 1 <=? n then 1%nat else O) /\
    (n = 0 -> xs = []) /\
    (forall j m, messages !! j = Some m ->
       report_isLast m = (if Z.of_nat j + 1 =? n then 1 else 0)) /\
    length (List.filter (fun m => negb (report_isLast m =? 0)) messages)
      = (if 1 <=? n then 1%nat else O) /\
    map report_pid messages = map pid (List.filter reportable (rev (children w))).
Proof.
  intros H n.
  destruct (HandleHandshake_run env fd handshake w w' H)
    as (_ & _ & bytes & xs & Htr & _ & _ & Hm).
  fold n in Htr, Hm.
  assert (Hn : n = Z.of_nat (length (List.filter reportable (rev (children w))))).
  { unfold n. rewrite count_reportable_filter.
    rewrite <- (rev_involutive (children w)) at 1.
    generalize (rev (children w)). intros l.
    assert (length (List.filter reportable (rev l)) = length (List.filter reportable l)) as ->.
    { induction l as [|c l IH]; simpl; [reflexivity|].
      rewrite List.filter_app, length_app. simpl.
      destruct (reportable c); simpl; lia. }
    lia. }
  assert (Hfst : map (fun x => fst (fst x)) xs = List.filter reportable (rev (children w))).
  { rewrite <- (numbered_fst 0 n (List.filter reportable (rev (children w)))), <- Hm.
    rewrite map_map. reflexivity. }
  assert (Hlen : Z.of_nat (length xs) = n).
  { rewrite Hn, <- Hfst, length_map. reflexivity. }
  assert (Hflag : forall j x, xs !! j = Some x -> snd (fst x) = of_bool (Z.of_nat j + 1 =? n)).
  { intros j x Hx.
    assert (Hj : map fst xs !! j = Some (fst x)) by (rewrite list_lookup_fmap, Hx; reflexivity).
    rewrite Hm in Hj. apply numbered_lookup in Hj. rewrite Hj. f_equal. }
  assert (Hone : length (List.filter (fun x => truthy (snd (fst x))) xs)
                 = (if 1 <=? n then 1%nat else O)).
  { rewrite (filter_map_length fst (fun y => truthy (snd y)) xs), Hm.
    rewrite numbered_count by lia.
    destruct (List.filter reportable (rev (children w))) as [|c l] eqn:E; simpl in Hn.
    + rewrite Hn. reflexivity.
    + replace (1 <=? n) with true by (symmetry; apply Z.leb_le; lia). reflexivity. }
  exists bytes, xs. cbv zeta.
  split; [exact Htr|]. split; [exact Hfst|]. split; [exact Hlen|].
  split; [exact Hflag|]. split; [exact Hone|].
  split; [intros H0; destruct xs; [reflexivity | simpl in Hlen; lia]|].
  split; [|split].
  - intros j m Hj. rewrite list_lookup_fmap in Hj.
    destruct (xs !! j) as [x|] eqn:Hx; [|discriminate]. injection Hj as <-.
    simpl. rewrite (Hflag j x Hx). reflexivity.
  - rewrite <- (filter_map_length
                  (fun x => report_message (fst (fst x)) (snd (fst x)))
                  (fun m => negb (report_isLast m =? 0)) xs).
    exact Hone.
  - rewrite map_map. simpl. rewrite <- Hfst, map_map. reflexivity.
Qed.


(** ** Disowned records *)

(** A record that is not reportable can be deleted without changing which
    records are reported. *)
Lemma filter_reportable_rev_delete l i c :
  l !! i = Some c -> reportable c = false ->
  List.filter reportable (rev (delete i l)) = List.filter reportable (rev l).
Proof.
  intros Hl Hc. rewrite <- (take_drop_middle l i c Hl) at 2.
  rewrite delete_take_drop, !rev_app_distr. simpl.
  rewrite <- app_assoc, !List.filter_app. simpl. rewrite Hc. reflexivity.
Qed.

(** The ReportChild messages of a handshake are those of the registry with
    a disowned record taken out. *)
Lemma HandleHandshake_reports_without env fd handshake w w' i c :
  children w !! i = Some c -> reportable c = false ->
  HandleHandshake env fd handshake w = Done 0 w' ->
  let n := count_reportable (delete i (children w)) 0 in
  exists bytes xs,
    trace w' = trace w ++
      EvSend fd (encoded env (ServerHandshake (iTermMultiServerProtocolVersion1 env)
                                n (getpid env)))
             None bytes :: map (report_event env fd) xs /\
    map fst xs = numbered 0 n (List.filter reportable (rev (delete i (children w)))) /\
    Z.of_nat (length xs) = n.
Proof.
  intros Hl Hc H n.
  destruct (HandleHandshake_run env fd handshake w w' H)
    as (_ & _ & bytes & xs & Htr & _ & _ & Hm).
  assert (En : n = count_reportable (children w) 0)
    by (apply (count_reportable_delete _ _ c); assumption).
  rewrite (filter_reportable_rev_delete _ _ _ Hl Hc), En.
  exists bytes, xs. split; [exact Htr|]. split; [exact Hm|].
  rewrite <- (length_map fst), Hm.
  assert (Hlen : forall s cs, length (numbered s (count_reportable (children w) 0) cs)
                              = length cs).
  { intros s0 cs. revert s0. induction cs as [|x cs IH]; intros s0; simpl; [reflexivity|].
    rewrite IH. reflexivity. }
  rewrite Hlen, count_reportable_filter.
  rewrite <- (rev_involutive (children w)) at 2.
  generalize (rev (children w)). intros l.
  induction l as [|x l IH]; simpl; [reflexivity|].
  rewrite List.filter_app, length_app. simpl.
  destruct (reportable x); simpl; lia.
Qed.

(** A pid that occurs in the registry has a first occurrence, at or before
    any given one. *)
Lemma first_match_exists l p i c :
  l !! i = Some c -> pid c = p ->
  exists j d, (j <= i)%nat /\ first_match l p j d.
Proof.
  intros Hl Hp.
  destruct (find_pid_from l p 0 ltac:(lia)) as [[_ Hn] | (j & d & _ & Hm)].
  - exfalso. apply (Hn c); [|exact Hp]. eapply list_elem_of_In, list_elem_of_lookup_2. exact Hl.
  - exists j, d. split; [|exact Hm].
    destruct (Nat.le_gt_cases j i) as [Hle | Hgt]; [exact Hle|].
    exfalso. destruct Hm as (_ & _ & Hb). exact (Hb i c Hgt Hl Hp).
Qed.

(** C5 (as amended).  A record with willTerminate set is left out of
    reporting: it is not reportable, it does not count towards
    GetNumberOfReportableChildren, and a successful handshake announces the
    count and sends the ReportChild messages of the registry without the
    record.  It is not hidden from Wait: GetChildIndexByPID compares pids
    only, so a Wait naming the record's pid finds the oldest record with
    that pid, which is the record itself unless an older record shares its
    pid, and answers from it, with errorNumber -2 or 1 while it is running
    and with its status, errorNumber 0 and its removal once it is
    terminated; never with errorNumber -1. *)
Theorem disowned_record_still_answers_Wait env fd wait w i c :
  children w !! i = Some c ->
  pid c = wait_pid wait ->
  willTerminate c <> 0 ->
  let p := wait_pid wait in
  reportable c = false /\
  count_reportable (delete i (children w)) 0 = count_reportable (children w) 0 /\
  (forall handshake w',
     HandleHandshake env fd handshake w = Done 0 w' ->
     let n := count_reportable (delete i (children w)) 0 in
     exists bytes xs,
       trace w' = trace w ++
         EvSend fd (encoded env (ServerHandshake (iTermMultiServerProtocolVersion1 env)
                                   n (getpid env)))
                None bytes :: map (report_event env fd) xs /\
       map fst xs = numbered 0 n (List.filter reportable (rev (delete i (children w)))) /\
       Z.of_nat (length xs) = n) /\
  exists j d,
    (j <= i)%nat /\
    first_match (children w) p j d /\
    ((forall k e, (k < i)%nat -> children w !! k = Some e -> pid e <> p) -> j = i /\ d = c) /\
    GetChildIndexByPID p w = Done (Z.of_nat j) w /\
    exists r w', HandleWait env fd wait w = Done r w' /\
      ( (terminated d = 0 /\ removePreemptively wait = 0 /\
         wait_reply env fd w (ServerWait p 0 (-2)) [] (children w) (children w) r w')
      \/ (terminated d = 0 /\ removePreemptively wait <> 0 /\
          let l := <[j := set_masterFd (-1) (set_willTerminate 1 d)]> (children w) in
          wait_reply env fd w (ServerWait p 0 1) [EvClose (masterFd d)] l l r w')
      \/ (terminated d <> 0 /\
          wait_reply env fd w (ServerWait p (status d) 0) []
            (children w) (delete j (children w)) r w')).
Proof.
  intros Hl Hpid Hw p.
  assert (Hrep : reportable c = false).
  { unfold reportable, truthy. destruct (Z.eqb_spec (willTerminate c) 0); [contradiction|].
    reflexivity. }
  split; [exact Hrep|].
  split; [apply (count_reportable_delete _ _ c); [exact Hl | exact Hrep]|].
  split; [intros handshake w'; apply (HandleHandshake_reports_without _ _ _ _ _ _ c);
          assumption|].
  destruct (first_match_exists _ _ _ _ Hl Hpid) as (j & d & Hji & Hm).
  exists j, d. split; [exact Hji|]. split; [exact Hm|].
  split.
  { intros Hold. destruct (Nat.eq_dec j i) as [-> | Hne].
    - split; [reflexivity|]. destruct Hm as (Hd & _). congruence.
    - exfalso. destruct Hm as (Hd & Hp & _). apply (Hold j d); [lia | exact Hd | exact Hp]. }
  split; [apply (GetChildIndexByPID_first_match _ _ _ d); exact Hm|].
  destruct (HandleWait_run env fd wait w) as (r & w' & Hrun & Hcase).
  exists r, w'. split; [exact Hrun|]. fold p in Hcase.
  destruct Hcase as [[Hn _] | [(k & e & Hk & H) | [(k & e & Hk & H) | (k & e & Hk & H)]]].
  - exfalso. exact (first_match_not_no_match _ _ _ _ Hm Hn).
  - destruct (first_match_unique _ _ _ _ _ _ Hm Hk) as [<- <-]. left. exact H.
  - destruct (first_match_unique _ _ _ _ _ _ Hm Hk) as [<- <-]. right; left. exact H.
  - destruct (first_match_unique _ _ _ _ _ _ Hm Hk) as [<- <-]. right; right. exact H.
Qed.

(** ** The reaper *)

(** A retry loop around one external call: it ends with the first answer
    that does not ask for a retry, and all it changes is the call counter. *)
Lemma iter_ask_inv env {A R} (f : Env -> nat -> A) (test : A -> bool) (g : A -> R)
    fuel w r w' :
  iter fuel (fun _ : unit =>
               let* a := ask env f in
               if test a then ret (inl tt) else ret (inr (g a))) tt w = Done r w' ->
  settled (fun i => test (f env i)) (clock w) (clock w') /\
  r = g (f env (Nat.pred (clock w'))) /\
  w' = with_clock (clock w') w.
Proof.
  revert w. induction fuel as [|fuel IH]; intros w H; [discriminate|].
  cbn [iter] in H. unfold ask at 1 in H. cbv [bind] in H. fold (tick w) in H.
  destruct (test (f env (clock w))) eqn:E.
  - apply IH in H as ((k & Hm & Hk & Hj) & Hr & Hw). simpl in Hm, Hk, Hj.
    split; [|split; [exact Hr|]].
    + exists (S k). split; [lia|]. split; [rewrite <- Hk; f_equal; f_equal; lia|].
      intros j Hlt. destruct j as [|j]; [rewrite Nat.add_0_r; exact E|].
      rewrite <- (Hj j) by lia. f_equal. f_equal. lia.
    + rewrite Hw. destruct w; reflexivity.
  - unfold ret in H. injection H as <- <-. simpl. split; [|split; [reflexivity|]].
    + exists O. rewrite Nat.add_0_r. split; [reflexivity|]. split; [exact E|]. intros j Hj. lia.
    + destruct w; reflexivity.
Qed.

Lemma WaitPidNoHang_at env fuel p w res st w' :
  WaitPidNoHang env fuel p w = Done (res, st) w' ->
  exists a, polled env (clock w) a (clock w') /\
    res = wp_result a /\
    st = (if 0 <? wp_result a then Some (wp_status a) else None) /\
    w' = with_clock (clock w') w.
Proof.
  unfold WaitPidNoHang. intros H.
  apply (iter_ask_inv env waitpid (retry_wait env)
           (fun a => (wp_result a, if 0 <? wp_result a then Some (wp_status a) else None)))
    in H as (Hs & Hr & Hw).
  exists (waitpid env (Nat.pred (clock w'))). injection Hr as -> ->.
  split; [split; [exact Hs | reflexivity]|]. auto.
Qed.

Lemma WaitPidNoHang_inv env fuel p w res st w' :
  WaitPidNoHang env fuel p w = Done (res, st) w' ->
  quiet w w' /\ (0 < res -> exists s, st = Some s) /\ (res <= 0 -> st = None).
Proof.
  intros H. apply WaitPidNoHang_at in H as (a & _ & -> & -> & Hw).
  split; [rewrite Hw; repeat split|].
  destruct (Z.ltb_spec 0 (wp_result a)); split; intros; try lia; eauto.
Qed.

Lemma ReportTermination_at env fd p w e w' :
  ReportTermination env fd p w = Done e w' ->
  (~ encodes env (ServerTermination p) /\ e = -1 /\ w' = w) \/
  (encodes env (ServerTermination p) /\
   e = of_bool (fst (sendmsg env (clock w)) =? -1) /\
   w' = with_trace (trace w ++ [EvSend fd (encoded env (ServerTermination p)) None
                                  (fst (sendmsg env (clock w)))]) (tick w)).
Proof.
  unfold ReportTermination, encodes, encoded.
  destruct (iTermMultiServerProtocolEncodeMessageFromServer env (ServerTermination p))
    as [rc obj]. simpl. unfold truthy.
  destruct (Z.eqb_spec rc 0) as [Hrc | Hrc]; simpl.
  - unfold iTermFileDescriptorServerSendMessage, ask, emit, modify. cbv [bind ret]. simpl.
    intros [= <- <-]. right. split; [exact Hrc|]. split; reflexivity.
  - unfold ret. intros [= <- <-]. left. auto.
Qed.

Lemma ReportTermination_inv env fd p w e w' :
  ReportTermination env fd p w = Done e w' ->
  children w' = children w /\
  ((~ encodes env (ServerTermination p) /\ e = -1 /\ trace w' = trace w) \/
   (encodes env (ServerTermination p) /\
    exists bytes, trace w' = trace w ++ [EvSend fd (encoded env (ServerTermination p)) None bytes] /\
                  e = of_bool (bytes =? -1))).
Proof.
  unfold ReportTermination, encodes, encoded.
  destruct (iTermMultiServerProtocolEncodeMessageFromServer env (ServerTermination p))
    as [rc obj]. simpl. unfold truthy.
  destruct (Z.eqb_spec rc 0) as [Hrc | Hrc]; simpl.
  - unfold iTermFileDescriptorServerSendMessage, ask, emit, modify. cbv [bind ret]. simpl.
    intros [= <- <-]. simpl. split; [reflexivity|]. right. split; [exact Hrc|].
    eexists. split; reflexivity.
  - unfold ret. intros [= <- <-]. split; [reflexivity|]. left. auto.
Qed.

Lemma take_S_eq_lookup {A} (l l' : list A) i x :
  take (S i) l' = take (S i) l -> l !! i = Some x -> l' !! i = Some x.
Proof.
  intros Ht Hl. rewrite <- (lookup_take_lt l' (S i) i) by lia.
  rewrite Ht. rewrite lookup_take_lt by lia. exact Hl.
Qed.

Lemma take_S_eq_take {A} (l l' : list A) i :
  take (S i) l' = take (S i) l -> take i l' = take i l.
Proof.
  intros Ht. apply (f_equal (take i)) in Ht.
  rewrite !take_take in Ht. rewrite Nat.min_l in Ht by lia. exact Ht.
Qed.

Lemma update_child_at w i c f :
  children w !! i = Some c ->
  update_child i f w = Done tt (with_children (<[i := f c]> (children w)) w).
Proof. apply update_child_Some. Qed.

Lemma WaitForAllProcesses_from_at env fuel fd k i w r w' :
  length (children w) = (i + k)%nat ->
  WaitForAllProcesses_from env fuel fd k i w = Done r w' ->
  take i (children w') = take i (children w) /\
  exists evs, trace w' = trace w ++ evs /\
    reaps_at env fd (clock w) (drop i (children w)) (drop i (children w')) evs r (clock w').
Proof.
  revert i w r w'. induction k as [|k IH]; intros i w r w' Hlen; simpl.
  - unfold ret. intros [= <- <-]. split; [reflexivity|].
    exists []. rewrite app_nil_r. split; [reflexivity|].
    rewrite drop_ge by lia. constructor.
  - intros H. apply bind_inv in H as (c & w0 & Hc & H).
    unfold child_at in Hc. destruct (children w !! i) as [c0|] eqn:Hl; [|discriminate].
    injection Hc as <- <-.
    assert (Hi : (i < length (children w))%nat) by (eapply lookup_lt_Some; exact Hl).
    rewrite (drop_S _ _ _ Hl).
    unfold truthy in H at 1.
    destruct (Z.eqb_spec (terminated c0) 0) as [Ht | Ht]; simpl in H.
    2:{ apply IH in H as (Htk & evs & Htr & Hr); [|lia].
        split; [apply take_S_eq_take; exact Htk|].
        exists evs. split; [exact Htr|].
        rewrite (drop_S _ c0 i) by (eapply take_S_eq_lookup; eassumption).
        apply reaps_at_terminated; assumption. }
    apply bind_inv in H as ([res st] & w1 & Hw & H).
    apply WaitPidNoHang_at in Hw as (a & Hpoll & -> & -> & Hw1).
    set (n1 := clock w1) in *.
    assert (Hc1 : children w1 = children w) by (rewrite Hw1; reflexivity).
    assert (Ht1 : trace w1 = trace w) by (rewrite Hw1; reflexivity).
    apply bind_inv in H as ([] & w2 & Hst & H). cbn [fst snd] in Hst, H.
    destruct (Z.ltb_spec 0 (wp_result a)) as [Hres | Hres].
    + rewrite (update_child_at w1 i c0) in Hst by (rewrite Hc1; exact Hl).
      injection Hst as <-.
      apply bind_inv in H as ([] & w3 & Hup & H).
      rewrite (update_child_at _ i (set_status (wp_status a) c0)) in Hup
        by (simpl; apply list_lookup_insert_eq; rewrite Hc1; exact Hi).
      injection Hup as <-. simpl in H. rewrite list_insert_insert_eq in H.
      change (set_terminated 1 (set_status (wp_status a) c0))
        with (reaped (wp_status a) c0) in H.
      set (c1 := reaped (wp_status a) c0) in *.
      set (w3 := with_children (<[i:=c1]> (children w1)) _) in H.
      assert (Hl3 : children w3 !! i = Some c1).
      { subst w3. simpl. apply list_lookup_insert_eq. rewrite Hc1. exact Hi. }
      assert (Hc3 : children w3 = <[i:=c1]> (children w)).
      { subst w3. simpl. rewrite Hc1. reflexivity. }
      assert (Ht3 : trace w3 = trace w) by (subst w3; simpl; exact Ht1).
      assert (Hk3 : clock w3 = n1) by (subst w3; reflexivity).
      assert (Hlen3 : length (children w3) = (S i + k)%nat).
      { rewrite Hc3, length_insert. lia. }
      assert (Hd3 : forall l', take (S i) l' = take (S i) (<[i:=c1]> (children w)) ->
                  drop i l' = c1 :: drop (S i) l').
      { intros l' Htk. apply drop_S. eapply take_S_eq_lookup; [exact Htk|].
        apply list_lookup_insert_eq. exact Hi. }
      rewrite (bind_Done _ _ _ _ _ (child_at_Some _ _ _ Hl3)) in H.
      change (willTerminate c1) with (willTerminate c0) in H.
      change (pid c1) with (pid c0) in H.
      unfold truthy in H at 1.
      destruct (Z.eqb_spec (willTerminate c0) 0) as [Hwt | Hwt]; simpl in H.
      * destruct (Z.leb_spec 0 fd) as [Hfd | Hfd]; simpl in H.
        -- apply bind_inv in H as (failed & w4 & He & H).
           apply bind_inv in He as (e & w5 & He & Hret).
           unfold ret in Hret. injection Hret as <- <-.
           apply ReportTermination_at in He as [(Henc & -> & ->) | (Henc & -> & ->)].
           ++ simpl in H. injection H as <- <-.
              split; [rewrite Hc3; apply take_insert_ge; lia|].
              exists []. rewrite app_nil_r. split; [congruence|].
              rewrite Hc3, (Hd3 _ eq_refl), drop_insert_lt by lia. rewrite ?Hk3.
              eapply reaps_at_encode_failed; eassumption.
           ++ rewrite Hk3 in H.
              destruct (Z.eqb_spec (fst (sendmsg env n1)) (-1)) as [Hb | Hb]; simpl in H.
              ** injection H as <- <-. cbn [children trace clock with_trace tick with_clock].
                 split; [rewrite Hc3; apply take_insert_ge; lia|].
                 eexists. split; [rewrite ?Ht3, ?Ht1; reflexivity|].
                 rewrite Hc3, (Hd3 _ eq_refl), drop_insert_lt by lia. rewrite ?Hk3, Hb.
                 eapply reaps_at_send_failed; eassumption.
              ** apply IH in H as (Htk & evs & Htr & Hr); [|exact Hlen3].
                 cbn [children trace clock with_trace tick with_clock] in Htk, Htr, Hr.
                 rewrite Hc3 in Htk, Hr. rewrite Hk3 in Hr.
                 split. { apply take_S_eq_take in Htk. rewrite Htk. apply take_insert_ge; lia. }
                 eexists. split; [rewrite Htr, ?Ht3, ?Ht1, <- app_assoc; reflexivity|].
                 rewrite (Hd3 _ Htk). rewrite drop_insert_lt in Hr by lia. simpl.
                 eapply reaps_at_report; eassumption.
        -- apply IH in H as (Htk & evs & Htr & Hr); [|assumption].
           rewrite Hc3 in Htk, Hr. rewrite Hk3 in Hr.
           split. { apply take_S_eq_take in Htk. rewrite Htk. apply take_insert_ge; lia. }
           exists evs. split; [congruence|].
           rewrite (Hd3 _ Htk). rewrite drop_insert_lt in Hr by lia.
           eapply reaps_at_quiet; [assumption | eassumption | assumption | right; lia | assumption].
      * apply IH in H as (Htk & evs & Htr & Hr); [|assumption].
        rewrite Hc3 in Htk, Hr. rewrite Hk3 in Hr.
        split. { apply take_S_eq_take in Htk. rewrite Htk. apply take_insert_ge; lia. }
        exists evs. split; [congruence|].
        rewrite (Hd3 _ Htk). rewrite drop_insert_lt in Hr by lia.
        eapply reaps_at_quiet; [assumption | eassumption | assumption | left; assumption
                               | assumption].
    + unfold ret in Hst. injection Hst as <-.
      apply IH in H as (Htk & evs & Htr & Hr); [|rewrite Hc1; lia].
      rewrite Hc1 in Htk, Hr. rewrite Ht1 in Htr.
      split; [apply take_S_eq_take; exact Htk|].
      exists evs. split; [congruence|].
      rewrite (drop_S _ c0 i) by (eapply take_S_eq_lookup; eassumption).
      eapply reaps_at_running; [assumption | eassumption | lia | assumption].
Qed.

(** Without the answers of the environment, a pass is what [reaps] says. *)
Lemma reaps_at_reaps env fd n l l' evs r m :
  reaps_at env fd n l l' evs r m -> reaps env fd l l' evs r.
Proof.
  induction 1.
  - constructor.
  - apply reaps_skip; assumption.
  - apply reaps_skip; assumption.
  - apply reaps_quiet; assumption.
  - apply reaps_report; assumption.
  - apply reaps_send_failed; assumption.
  - apply reaps_encode_failed; assumption.
Qed.

Lemma WaitForAllProcesses_from_inv env fuel fd k i w r w' :
  length (children w) = (i + k)%nat ->
  WaitForAllProcesses_from env fuel fd k i w = Done r w' ->
  take i (children w') = take i (children w) /\
  exists evs, trace w' = trace w ++ evs /\
    reaps env fd (drop i (children w)) (drop i (children w')) evs r.
Proof.
  intros Hlen H. apply WaitForAllProcesses_from_at in H as (Htk & evs & Htr & Hr); [|exact Hlen].
  split; [exact Htk|]. exists evs. split; [exact Htr|]. eapply reaps_at_reaps. exact Hr.
Qed.

Lemma WaitForAllProcesses_at env fuel fd w r w' :
  WaitForAllProcesses env fuel fd w = Done r w' ->
  exists n evs,
    drained env (clock w) n /\
    trace w' = trace w ++ evs /\
    reaps_at env fd n (children w) (children w') evs r (clock w').
Proof.
  unfold WaitForAllProcesses. intros H.
  apply bind_inv in H as ([] & w1 & Hd & H).
  apply (iter_ask_inv env read_pipe (retry_read env) (fun _ => tt)) in Hd as (Hs & _ & Hw1).
  apply bind_inv in H as (n & w2 & Hn & H). unfold get in Hn. injection Hn as <- <-.
  apply WaitForAllProcesses_from_at in H as (_ & evs & Htr & Hr); [|reflexivity].
  rewrite !drop_0 in Hr. rewrite Hw1 in Hr, Htr. simpl in Hr, Htr.
  exists (clock w1), evs. split; [exact Hs|]. split; assumption.
Qed.

Lemma newly_reaped_same l : newly_reaped l l = [].
Proof.
  induction l as [|c l IH]; simpl; [reflexivity|].
  destruct (terminated c =? 0); simpl; exact IH.
Qed.

Lemma reaps_records env fd l l' evs r :
  reaps env fd l l' evs r ->
  Forall2 (fun c c' => c' = c \/ (terminated c = 0 /\ exists st, c' = reaped st c)) l l'.
Proof.
  induction 1; try (constructor; [eauto | assumption]).
  - constructor.
  - constructor; [eauto|]. clear. induction l; constructor; auto.
  - constructor; [eauto|]. clear. induction l; constructor; auto.
Qed.

Lemma reaps_result env fd l l' evs r : reaps env fd l l' evs r -> r = 0 \/ r = -1.
Proof. induction 1; auto. Qed.

Lemma reaps_detached env fd l l' evs r : reaps env fd l l' evs r -> fd < 0 -> evs = [].
Proof. induction 1; intros Hfd; try lia; auto. Qed.

Lemma reaps_completed env fd l l' evs :
  reaps env fd l l' evs 0 -> 0 <= fd ->
  Forall2 (is_termination_for env fd) (List.filter reportable (newly_reaped l l')) evs.
Proof.
  intros H. remember 0 as r eqn:Hr. induction H; intros Hfd; try discriminate; simpl.
  - constructor.
  - replace ((terminated c =? 0) && negb (terminated c =? 0)) with false
      by (destruct (terminated c =? 0); reflexivity).
    auto.
  - rewrite H. simpl. unfold reportable at 1, truthy.
    destruct H0 as [Hw | Hw]; [|lia].
    destruct (Z.eqb_spec (willTerminate c) 0); [contradiction|]. simpl. auto.
  - rewrite H. simpl. unfold reportable at 1, truthy. rewrite H0. simpl.
    constructor; [|auto]. exists bytes. auto.
Qed.

Lemma reaps_aborted env fd l l' evs :
  reaps env fd l l' evs (-1) ->
  0 <= fd /\
  exists c, In c (newly_reaped l l') /\ willTerminate c = 0 /\
    (~ encodes env (ServerTermination (pid c)) \/
     last evs = Some (EvSend fd (encoded env (ServerTermination (pid c))) None (-1))).
Proof.
  intros H. remember (-1) as r eqn:Hr. induction H; try discriminate.
  - destruct (IHreaps Hr) as (Hfd & c0 & Hin & Hw & Hc). split; [exact Hfd|].
    exists c0. simpl. split; [|auto].
    destruct (_ && _); [right|]; exact Hin.
  - destruct (IHreaps Hr) as (Hfd & c0 & Hin & Hw & Hc). split; [exact Hfd|].
    exists c0. simpl. rewrite H. simpl. split; [right; exact Hin | auto].
  - destruct (IHreaps Hr) as (Hfd & c0 & Hin & Hw & Hc). split; [exact Hfd|].
    exists c0. simpl. rewrite H. simpl. split; [right; exact Hin|]. split; [exact Hw|].
    destruct Hc as [Hc | Hc]; [left; exact Hc | right].
    destruct evs as [|e evs]; [discriminate|].
    rewrite last_cons_cons. exact Hc.
  - split; [assumption|]. exists c. simpl. rewrite H. simpl. auto.
  - split; [assumption|]. exists c. simpl. rewrite H. simpl. auto.
Qed.

Lemma WaitForAllProcesses_run env fuel fd w r w' :
  WaitForAllProcesses env fuel fd w = Done r w' ->
  exists evs, trace w' = trace w ++ evs /\
    reaps env fd (children w) (children w') evs r.
Proof.
  unfold WaitForAllProcesses. intros H.
  apply bind_inv in H as ([] & w1 & Hd & H).
  apply (iter_quiet (fun _ => True)) in Hd as [(Hq1 & Hq2 & Hq3) _].
  2:{ intros [] w0 x w2 Hb. apply bind_inv in Hb as (a & w3 & Ha & Hb).
      apply ask_quiet in Ha as [Hq _].
      destruct (_ || _); unfold ret in Hb; injection Hb as <- <-; split; auto. }
  apply bind_inv in H as (n & w2 & Hn & H). unfold get in Hn. injection Hn as <- <-.
  apply WaitForAllProcesses_from_inv in H as (_ & evs & Htr & Hr); [|reflexivity].
  rewrite !drop_0 in Hr. rewrite Hq1 in Hr. rewrite Hq2 in Htr.
  exists evs. split; assumption.
Qed.

(** A record that is already terminated is not touched by the reaper. *)
Lemma reaps_keeps_terminated env fd l l' evs r :
  reaps env fd l l' evs r ->
  forall i c, l !! i = Some c -> terminated c <> 0 -> l' !! i = Some c.
Proof.
  intros H. apply reaps_records in H.
  induction H as [|c c' l l' Hc _ IH]; intros i d Hl Ht; [discriminate|].
  destruct i as [|i]; simpl in *.
  - injection Hl as ->. destruct Hc as [-> | [Hz _]]; [reflexivity | contradiction].
  - eapply IH; eassumption.
Qed.

(** *** The pass returns *)

Lemma iter_ask_returns env {A R} (f : Env -> nat -> A) (test : A -> bool) (g : A -> R) fuel w :
  (exists k, (k < fuel)%nat /\ test (f env (clock w + k)%nat) = false) ->
  exists r w',
    iter fuel (fun _ : unit =>
                 let* a := ask env f in
                 if test a then ret (inl tt) else ret (inr (g a))) tt w = Done r w' /\
    quiet w w'.
Proof.
  revert w. induction fuel as [|fuel IH]; intros w (k & Hk & Ht); [lia|].
  cbn [iter]. unfold ask at 1. cbv [bind]. fold (tick w).
  destruct (test (f env (clock w))) eqn:E.
  - destruct k as [|k]; [rewrite Nat.add_0_r in Ht; congruence|].
    destruct (IH (tick w)) as (r & w' & Hrun & Hq).
    { exists k. split; [lia|]. simpl. rewrite <- Nat.add_succ_r. exact Ht. }
    exists r, w'. split; [exact Hrun|].
    eapply quiet_trans; [|exact Hq]. repeat split.
  - eexists _, _. split; [reflexivity|]. repeat split.
Qed.

Lemma WaitPidNoHang_returns env fuel p w :
  settles env fuel -> exists r w', WaitPidNoHang env fuel p w = Done r w'.
Proof.
  intros Hs. destruct (Hs (clock w)) as [_ Hw].
  destruct (iter_ask_returns env waitpid (retry_wait env)
              (fun a => (wp_result a, if 0 <? wp_result a then Some (wp_status a) else None))
              fuel w Hw) as (r & w' & Hrun & _).
  exists r, w'. exact Hrun.
Qed.

Lemma ReportTermination_returns env fd p w :
  exists e w', ReportTermination env fd p w = Done e w'.
Proof.
  unfold ReportTermination.
  destruct (iTermMultiServerProtocolEncodeMessageFromServer env (ServerTermination p))
    as [rc obj].
  destruct (truthy rc); [eexists _, _; reflexivity|].
  unfold iTermFileDescriptorServerSendMessage, ask, emit, modify. cbv [bind ret].
  eexists _, _. reflexivity.
Qed.

Lemma WaitForAllProcesses_from_returns env fuel fd k i w :
  settles env fuel ->
  length (children w) = (i + k)%nat ->
  exists r w', WaitForAllProcesses_from env fuel fd k i w = Done r w'.
Proof.
  intros Hs. revert i w. induction k as [|k IH]; intros i w Hlen; simpl.
  - eexists _, _. reflexivity.
  - destruct (lookup_lt_is_Some_2 (children w) i ltac:(lia)) as [c Hc].
    rewrite (bind_Done _ _ _ _ _ (child_at_Some _ _ _ Hc)).
    destruct (truthy (terminated c)); [apply IH; lia|].
    destruct (WaitPidNoHang_returns env fuel (pid c) w Hs) as ([res st] & w1 & Hw).
    rewrite (bind_Done _ _ _ _ _ Hw).
    apply WaitPidNoHang_inv in Hw as ((Hq1 & _ & _) & _ & _).
    assert (Hc1 : children w1 !! i = Some c) by (rewrite Hq1; exact Hc).
    assert (Hst : exists c2 w2,
              (match snd (res, st) with
               | Some s => update_child i (set_status s)
               | None => ret tt
               end) w1 = Done tt w2 /\ children w2 !! i = Some c2 /\
              length (children w2) = length (children w)).
    { simpl. destruct st as [s|].
      - rewrite (update_child_Some _ _ _ _ Hc1). eexists _, _. split; [reflexivity|].
        simpl. split; [apply list_lookup_insert_eq; apply lookup_lt_Some in Hc1; exact Hc1|].
        rewrite length_insert, Hq1. reflexivity.
      - eexists _, _. split; [reflexivity|]. split; [exact Hc1 | rewrite Hq1; reflexivity]. }
    destruct Hst as (c2 & w2 & Hst & Hc2 & Hl2).
    rewrite (bind_Done _ _ _ _ _ Hst). cbn [fst].
    destruct (0 <? res); [|apply IH; lia].
    rewrite (bind_Done _ _ _ _ _ (update_child_Some _ _ _ _ Hc2)).
    set (w3 := with_children _ w2).
    assert (Hl3 : length (children w3) = length (children w)).
    { subst w3. simpl. rewrite length_insert. exact Hl2. }
    assert (Hc3 : children w3 !! i = Some (set_terminated 1 c2)).
    { subst w3. simpl. apply list_lookup_insert_eq. apply lookup_lt_Some in Hc2. exact Hc2. }
    rewrite (bind_Done _ _ _ _ _ (child_at_Some _ _ _ Hc3)).
    destruct (negb (truthy (willTerminate (set_terminated 1 c2))) && (0 <=? fd)).
    + destruct (ReportTermination_returns env fd (pid (set_terminated 1 c2)) w3)
        as (e & w4 & He).
      pose proof (ReportTermination_inv _ _ _ _ _ _ He) as [Hch4 _].
      cbv [bind]. rewrite He. unfold ret at 1.
      destruct (truthy e); [eexists _, _; reflexivity|].
      apply IH. rewrite Hch4. lia.
    + cbv [bind]. unfold ret at 1. apply IH. lia.
Qed.

Lemma WaitForAllProcesses_returns env fuel fd w :
  settles env fuel -> exists r w', WaitForAllProcesses env fuel fd w = Done r w'.
Proof.
  intros Hs. unfold WaitForAllProcesses.
  destruct (Hs (clock w)) as [Hr _].
  destruct (iter_ask_returns env read_pipe (retry_read env) (fun _ => tt) fuel w Hr)
    as ([] & w1 & Hrun & _).
  rewrite (bind_Done _ _ _ _ _ Hrun). cbv [bind get].
  apply WaitForAllProcesses_from_returns; [exact Hs | reflexivity].
Qed.

(** ** Requests and the select loop *)

Lemma ReadAndHandleRequest_result env readFd writeFd w r w' :
  ReadAndHandleRequest env readFd writeFd w = Done r w' ->
  (exists st, ReadRequest env readFd w = Done (inl st) w' /\ r = -1) \/
  (exists request w1, ReadRequest env readFd w = Done (inr request) w1 /\ r = 0).
Proof.
  unfold ReadAndHandleRequest. intros H.
  apply bind_inv in H as (rq & w1 & Hrq & H). destruct rq as [st | request].
  - unfold ret in H. injection H as <- <-. left. eauto.
  - apply bind_inv in H as (result & w2 & _ & H).
    unfold ret in H. injection H as <- <-. right. eauto.
Qed.

(** Whatever the handler returns, the dispatch returns 0 once the request
    has been read. *)
Lemma ReadAndHandleRequest_drops_handler_result env readFd writeFd w request w1 r w' :
  ReadRequest env readFd w = Done (inr request) w1 ->
  ReadAndHandleRequest env readFd writeFd w = Done r w' ->
  r = 0.
Proof.
  intros Hrq H. apply ReadAndHandleRequest_result in H as [(st & H & _) | (? & ? & _ & ->)].
  - congruence.
  - reflexivity.
Qed.

Lemma SelectLoop_body_reaper_failure env fuel acceptFd writeFd readFd w w1 e w' :
  let results := iTermSelect env (clock w) in
  SelectLoop_request env readFd writeFd results (tick w) = Done 0 w1 ->
  truthy (results 0%nat) = true ->
  WaitForAllProcesses env fuel writeFd w1 = Done e w' ->
  e <> 0 ->
  SelectLoop_body env fuel acceptFd writeFd readFd tt w = Done (inr tt) w'.
Proof.
  intros results Hreq Hpipe Hreap He.
  unfold SelectLoop_body. unfold ask at 1. cbv [bind]. fold (tick w). fold results.
  unfold SelectLoop_request in Hreq.
  destruct (truthy (results 2%nat)).
  - rewrite Hreq. simpl. rewrite Hpipe, Hreap.
    unfold truthy. destruct (Z.eqb_spec e 0); [contradiction|]. reflexivity.
  - unfold ret in Hreq. injection Hreq as <-. simpl. rewrite Hpipe, Hreap.
    unfold truthy. destruct (Z.eqb_spec e 0); [contradiction|]. reflexivity.
Qed.

Lemma SelectLoop_leaves env fuel acceptFd writeFd readFd w w' :
  SelectLoop_body env (S fuel) acceptFd writeFd readFd tt w = Done (inr tt) w' ->
  SelectLoop env (S fuel) acceptFd writeFd readFd w =
  Done tt (with_trace (trace w' ++ [EvClose writeFd]) w').
Proof.
  intros H. unfold SelectLoop. cbn [iter]. cbv [bind]. rewrite H. reflexivity.
Qed.

Lemma SelectLoop_body_intruder env fuel acceptFd writeFd readFd w0 w' :
  truthy (iTermSelect env (clock w0) 2%nat) = false ->
  truthy (iTermSelect env (clock w0) 0%nat) = false ->
  truthy (iTermSelect env (clock w0) 1%nat) = true ->
  AcceptAndReject env acceptFd (tick w0) = Done tt w' ->
  SelectLoop_body env fuel acceptFd writeFd readFd tt w0 = Done (inl tt) w'.
Proof.
  intros H2 H0 H1 HA. unfold SelectLoop_body, ask at 1. cbv [bind]. fold (tick w0).
  rewrite H2. simpl. rewrite H0. simpl. rewrite H1. simpl. rewrite HA. reflexivity.
Qed.

(** C2.  With an environment that lets its retry loops end, a pass of the
    reaper returns.  A pass that returns is the one [reaps_at] determines
    from the answers of the environment, once the self-pipe is drained:
    terminated records are passed over; for every running record waitpid is
    polled, and when (and only when) its answer is positive the status it
    reported is stored and [terminated] is set, and a Termination message
    for the record's pid is sent if and only if the record is not disowned
    and a client descriptor is present ([0 <= fd]); the result of that
    sendmsg decides whether the pass goes on.  Hence
    each record is either unchanged or reaped; nothing is sent when nobody is
    attached; when the pass completes (result 0) with a client attached, the
    messages sent are exactly one Termination per newly reaped reportable
    record, in registry order, and none for the disowned ones; a record
    already terminated is never reaped or reported again.  The result is -1
    exactly when a Termination message could not be encoded or sent, and a
    turn of the select loop that gets this result leaves the loop. *)
Theorem reaper_notifies_each_exit_once env fuel fd w :
  (settles env fuel -> exists r w', WaitForAllProcesses env fuel fd w = Done r w') /\
  (forall r w',
     WaitForAllProcesses env fuel fd w = Done r w' ->
     exists n evs,
       drained env (clock w) n /\
       trace w' = trace w ++ evs /\
       reaps_at env fd n (children w) (children w') evs r (clock w') /\
       Forall2 (fun c c' => c' = c \/ (terminated c = 0 /\ exists st, c' = reaped st c))
               (children w) (children w') /\
       (fd < 0 -> evs = []) /\
       (r = 0 -> 0 <= fd ->
        Forall2 (is_termination_for env fd)
                (List.filter reportable (newly_reaped (children w) (children w'))) evs) /\
       (r = 0 \/ r = -1) /\
       (r = -1 ->
        0 <= fd /\
        exists c, In c (newly_reaped (children w) (children w')) /\ willTerminate c = 0 /\
          (~ encodes env (ServerTermination (pid c)) \/
           last evs = Some (EvSend fd (encoded env (ServerTermination (pid c))) None (-1)))) /\
       (r <> 0 ->
        forall acceptFd readFd w0,
          SelectLoop_request env readFd fd (iTermSelect env (clock w0)) (tick w0)
            = Done 0 w ->
          truthy (iTermSelect env (clock w0) 0%nat) = true ->
          SelectLoop_body env fuel acceptFd fd readFd tt w0 = Done (inr tt) w')).
Proof.
  split; [apply WaitForAllProcesses_returns|].
  intros r w' Hrun.
  destruct (WaitForAllProcesses_at env fuel fd w r w' Hrun) as (n & evs & Hdr & Htr & Hat).
  pose proof (reaps_at_reaps _ _ _ _ _ _ _ _ Hat) as Hr.
  exists n, evs. split; [exact Hdr|]. split; [exact Htr|]. split; [exact Hat|].
  split; [exact (reaps_records _ _ _ _ _ _ Hr)|].
  split; [exact (reaps_detached _ _ _ _ _ _ Hr)|].
  split; [intros ->; exact (reaps_completed _ _ _ _ _ Hr)|].
  split; [exact (reaps_result _ _ _ _ _ _ Hr)|].
  split; [intros ->; exact (reaps_aborted _ _ _ _ _ Hr)|].
  intros Hne acceptFd readFd w0 Hreq Hpipe.
  exact (SelectLoop_body_reaper_failure env fuel acceptFd fd readFd w0 w r w'
           Hreq Hpipe Hrun Hne).
Qed.

(** ** Launch *)

Lemma Launch_inv env launch fs w masterFd fs' tty error w1 :
  Launch env launch fs w = Done (masterFd, fs', tty, error) w1 ->
  let a := forkpty env (clock w) in
  w1 = tick w /\ fork_pid fs' = fp_pid a /\ tty = fp_tty a /\ fp_pid a <> 0 /\
  ((fp_pid a = 1 /\ masterFd = -1) \/ (fp_pid a <> 1 /\ masterFd = fp_fd a)).
Proof.
  unfold Launch, ask, when, iTermExec, halt_with. cbv [bind ret]. simpl.
  fold (tick w).
  destruct (Z.eqb_spec (fp_pid (forkpty env (clock w))) 0) as [H0 | H0]; [discriminate|].
  destruct (Z.eqb_spec (fp_pid (forkpty env (clock w))) 1) as [H1 | H1];
    intros [= <- <- <- <- <-]; simpl; repeat split; auto.
Qed.

Lemma SendLaunchResponse_run env fd st p masterFd tty uniqueId w :
  let m := ServerLaunch st p uniqueId tty in
  exists r w', SendLaunchResponse env fd st p masterFd tty uniqueId w = Done r w' /\
    children w' = children w /\
    ((~ encodes env m /\ r = -1 /\ trace w' = trace w) \/
     (encodes env m /\ exists bytes,
        trace w' = trace w ++
          [EvSend fd (encoded env m) (launch_response_attachment masterFd) bytes] /\
        r = of_bool (bytes =? -1))).
Proof.
  intros m. unfold SendLaunchResponse, encodes, encoded, launch_response_attachment. fold m.
  destruct (iTermMultiServerProtocolEncodeMessageFromServer env m) as [rc obj]. simpl.
  unfold truthy. destruct (Z.eqb_spec rc 0) as [Hrc | Hrc]; simpl.
  - destruct (0 <=? masterFd);
      unfold iTermFileDescriptorServerSendMessageAndFileDescriptor,
             iTermFileDescriptorServerSendMessage, ask, emit, modify;
      cbv [bind ret]; simpl;
      eexists _, _; (split; [reflexivity|]); simpl; (split; [reflexivity|]);
      right; (split; [exact Hrc|]); eexists; split; reflexivity.
  - eexists _, _. split; [reflexivity|]. split; [reflexivity|]. left. auto.
Qed.

Lemma new_slot_run env w : exists slot, new_slot env w = Done slot w.
Proof.
  unfold new_slot. cbv [bind get]. destruct (children w); eexists; reflexivity.
Qed.

(** [children[i] = f(children[i])] at the last index. *)
Lemma update_child_last w l x f :
  children w = l ++ [x] ->
  update_child (length l) f w = Done tt (with_children (l ++ [f x]) w).
Proof.
  intros Hl. rewrite (update_child_Some w (length l) x).
  - rewrite Hl, insert_app_r_alt, Nat.sub_diag by lia. reflexivity.
  - rewrite Hl. apply list_lookup_middle. reflexivity.
Qed.

(** The three ways [AddChild] can end.  The slot is added before anything
    else; the first assertion stops the daemon with the slot as it came, the
    second with the parser's output written into it, and otherwise the slot
    ends up with every field filled in. *)
Lemma AddChild_outcome env launch masterFd tty fs w :
  let enc := iTermMultiServerProtocolEncodeMessageFromClient env (ClientLaunch launch) in
  let par := iTermMultiServerProtocolParseMessageFromClient env (snd enc) in
  exists slot,
    new_slot env w = Done slot w /\
    AddChild env launch masterFd tty fs w =
    if negb (fst enc =? 0) then
      Halt AssertionFailed (with_children (children w ++ [slot]) w)
    else if negb (fst par =? 0) then
      Halt AssertionFailed
        (with_children (children w ++ [set_messageWithLaunchRequest (snd par) slot]) w)
    else
      Done tt (with_children
                 (children w ++
                  [ {| messageWithLaunchRequest := snd par; pid := fork_pid fs;
                       terminated := 0; willTerminate := 0; masterFd := masterFd;
                       status := 0; tty := Some tty |} ]) w).
Proof.
  intros enc par. destruct (new_slot_run env w) as [slot Hs]. exists slot.
  split; [exact Hs|]. unfold AddChild. rewrite (bind_Done _ _ _ _ _ Hs).
  unfold get at 1, modify at 1. cbv [bind]. fold enc.
  destruct enc as [st frame] eqn:Eenc. cbn [fst snd] in par |- *.
  unfold assert at 1. destruct (st =? 0); cbn [negb]; [|reflexivity].
  unfold ret at 1. subst par.
  destruct (iTermMultiServerProtocolParseMessageFromClient env frame) as [st' copy].
  cbn [fst snd].
  rewrite (update_child_last _ (children w) slot) by reflexivity.
  unfold assert at 1. destruct (st' =? 0); cbn [negb]; [|reflexivity].
  unfold ret at 1.
  repeat (erewrite update_child_last by reflexivity).
  reflexivity.
Qed.

Lemma AddChild_run env launch masterFd tty fs w :
  launch_round_trips env launch ->
  AddChild env launch masterFd tty fs w =
  Done tt (with_children (children w ++ [launched_child launch (fork_pid fs) masterFd tty]) w).
Proof.
  intros [He Hp].
  destruct (AddChild_outcome env launch masterFd tty fs w) as (slot & _ & ->).
  rewrite He, Hp. reflexivity.
Qed.

Lemma HandleLaunchRequest_failure_path env fd launch w masterFd fs tty error w1 :
  Launch env launch forkState0 w = Done (masterFd, fs, tty, error) w1 ->
  masterFd < 0 ->
  HandleLaunchRequest env fd launch w =
  SendLaunchResponse env fd (-1) 0 (-1) "" (launch_uniqueId launch) w1.
Proof.
  intros HL Hneg. unfold HandleLaunchRequest. fold forkState0.
  rewrite (bind_Done _ _ _ _ _ HL).
  replace (masterFd <? 0) with true by (symmetry; apply Z.ltb_lt; lia). reflexivity.
Qed.

Lemma HandleLaunchRequest_happy_path env fd launch w masterFd fs tty error w1 :
  Launch env launch forkState0 w = Done (masterFd, fs, tty, error) w1 ->
  0 <= masterFd ->
  HandleLaunchRequest env fd launch w =
  (AddChild env launch masterFd tty fs ;;;
   SendLaunchResponse env fd 0 (fork_pid fs) masterFd tty (launch_uniqueId launch)) w1.
Proof.
  intros HL Hpos. unfold HandleLaunchRequest. fold forkState0.
  rewrite (bind_Done _ _ _ _ _ HL).
  replace (masterFd <? 0) with false by (symmetry; apply Z.ltb_ge; lia). reflexivity.
Qed.

(** forkpty reporting an error (-1) is not what [Launch] tests for: the
    function goes on as after a successful fork and returns the unset
    [fd]. *)
Lemma Launch_forkpty_error env launch fs w :
  fp_pid (forkpty env (clock w)) = -1 ->
  exists fs',
    Launch env launch fs w =
    Done (fp_fd (forkpty env (clock w)), fs', fp_tty (forkpty env (clock w)), 0) (tick w) /\
    fork_pid fs' = -1.
Proof.
  intros H. unfold Launch, ask, when. cbv [bind ret]. simpl. fold (tick w).
  rewrite H. simpl. eexists. split; reflexivity.
Qed.

(** The failure branch of [HandleLaunchRequest] replies with status -1 and
    pid 0, attaches nothing and leaves the registry alone. *)
Lemma HandleLaunchRequest_failure_reply env fd launch w masterFd fs tty error w1 :
  Launch env launch forkState0 w = Done (masterFd, fs, tty, error) w1 ->
  masterFd < 0 ->
  let reply := ServerLaunch (-1) 0 (launch_uniqueId launch) "" in
  exists r w', HandleLaunchRequest env fd launch w = Done r w' /\
    children w' = children w /\
    (encodes env reply ->
     exists bytes, trace w' = trace w ++ [EvSend fd (encoded env reply) None bytes]).
Proof.
  intros HL Hneg reply.
  rewrite (HandleLaunchRequest_failure_path _ _ _ _ _ _ _ _ _ HL Hneg).
  pose proof (Launch_inv _ _ _ _ _ _ _ _ _ HL) as (-> & _).
  destruct (SendLaunchResponse_run env fd (-1) 0 (-1) "" (launch_uniqueId launch) (tick w))
    as (r & w' & HS & Hch & Hcase).
  exists r, w'. split; [exact HS|]. split; [exact Hch|].
  intros Henc. destruct Hcase as [(Hn & _) | (_ & bytes & Htr & _)]; [contradiction|].
  exists bytes. exact Htr.
Qed.

(** C7.  When Launch has succeeded (it returned a master descriptor),
    HandleLaunchRequest inserts before it replies.  In whatever state the
    handler stops, the registry has grown by the new slot; when it stops
    before the record is complete, which is when the launch request cannot
    be copied and an assertion of AddChild fails, nothing has been sent.
    When the codec returns the request from its round trip, AddChild ends
    with the record holding the copy of the launch request, the child's pid
    and the master descriptor appended, while nothing has been sent yet;
    only then does SendLaunchResponse run, on that registry, and send the
    Launch reply (status 0) with the master descriptor attached.  Whatever
    the result of the send, also when it fails and the handler returns
    non-zero, the registry still holds the record. *)
Theorem launch_inserts_then_replies env fd launch w masterFd fs tty error w1 :
  Launch env launch forkState0 w = Done (masterFd, fs, tty, error) w1 ->
  0 <= masterFd ->
  let record := launched_child launch (fork_pid fs) masterFd tty in
  let reply := ServerLaunch 0 (fork_pid fs) (launch_uniqueId launch) tty in
  let enc := iTermMultiServerProtocolEncodeMessageFromClient env (ClientLaunch launch) in
  let par := iTermMultiServerProtocolParseMessageFromClient env (snd enc) in
  match HandleLaunchRequest env fd launch w with
  | Done r w3 =>
      fst enc = 0 /\ fst par = 0 /\
      children w3 = children w ++
        [ {| messageWithLaunchRequest := snd par; pid := fork_pid fs;
             terminated := 0; willTerminate := 0; masterFd := masterFd;
             status := 0; tty := Some tty |} ]
  | Halt h w3 =>
      h = AssertionFailed /\ (fst enc <> 0 \/ fst par <> 0) /\
      trace w3 = trace w /\
      exists slot, children w3 = children w ++ [slot]
  | OutOfFuel => False
  end /\
  (launch_round_trips env launch ->
   exists w2 r w3,
     AddChild env launch masterFd tty fs w1 = Done tt w2 /\
     children w2 = children w ++ [record] /\
     trace w2 = trace w /\
     SendLaunchResponse env fd 0 (fork_pid fs) masterFd tty (launch_uniqueId launch) w2
       = Done r w3 /\
     HandleLaunchRequest env fd launch w = Done r w3 /\
     children w3 = children w ++ [record] /\
     (encodes env reply ->
      exists bytes,
        trace w3 = trace w ++ [EvSend fd (encoded env reply) (Some masterFd) bytes] /\
        (r <> 0 <-> bytes = -1))).
Proof.
  intros HL Hpos record reply enc par.
  pose proof (Launch_inv _ _ _ _ _ _ _ _ _ HL) as (-> & _).
  split.
  { rewrite (HandleLaunchRequest_happy_path _ _ _ _ _ _ _ _ _ HL Hpos).
    destruct (AddChild_outcome env launch masterFd tty fs (tick w)) as (slot & _ & HA).
    fold enc in HA. fold par in HA. unfold bind at 1. rewrite HA.
    destruct (Z.eqb_spec (fst enc) 0) as [He | He]; cbn [negb].
    2:{ split; [reflexivity|]. split; [left; exact He|]. split; [reflexivity|].
        exists slot. reflexivity. }
    destruct (Z.eqb_spec (fst par) 0) as [Hp | Hp]; cbn [negb].
    2:{ split; [reflexivity|]. split; [right; exact Hp|]. split; [reflexivity|].
        eexists. reflexivity. }
    match goal with
    | |- context [SendLaunchResponse env fd 0 ?p ?m ?t ?u ?v] =>
        destruct (SendLaunchResponse_run env fd 0 p m t u v) as (r & w3 & HS & Hch & _)
    end.
    rewrite HS. split; [exact He|]. split; [exact Hp|].
    rewrite Hch. reflexivity. }
  intros Hrt.
  pose proof (AddChild_run env launch masterFd tty fs (tick w) Hrt) as HA.
  fold record in HA.
  set (w2 := with_children (children (tick w) ++ [record]) (tick w)) in HA.
  destruct (SendLaunchResponse_run env fd 0 (fork_pid fs) masterFd tty
              (launch_uniqueId launch) w2) as (r & w3 & HS & Hch & Hcase).
  exists w2, r, w3.
  split; [exact HA|]. split; [reflexivity|]. split; [reflexivity|]. split; [exact HS|].
  split.
  { rewrite (HandleLaunchRequest_happy_path _ _ _ _ _ _ _ _ _ HL Hpos).
    rewrite (bind_Done _ _ _ _ _ HA). exact HS. }
  split; [exact Hch|].
  intros Henc. destruct Hcase as [(Hn & _) | (_ & bytes & Htr & Hr)]; [contradiction|].
  exists bytes. unfold launch_response_attachment in Htr.
  replace (0 <=? masterFd) with true in Htr by (symmetry; apply Z.leb_le; lia).
  split; [exact Htr|].
  rewrite Hr. destruct (Z.eqb_spec bytes (-1)); simpl; split; intros; try lia; congruence.
Qed.

(** ** Rejecting a second client *)

Lemma AcceptAndReject_run env socket w :
  let fd := iTermFileDescriptorServerAccept env (clock w) in
  let m := ServerHandshake (iTermMultiServerProtocolVersionRejected env) 0 0 in
  exists w', AcceptAndReject env socket w = Done tt w' /\
    children w' = children w /\ gPipe w' = gPipe w /\ gPath w' = gPath w /\
    trace w' = trace w ++
      (if fd <? 0 then []
       else (if fst (iTermMultiServerProtocolEncodeMessageFromServer env m) =? 0
             then [EvSend fd (encoded env m) None (fst (sendmsg env (S (clock w))))]
             else []) ++ [EvClose fd]).
Proof.
  intros fd m. unfold AcceptAndReject, ask at 1. cbv [bind]. fold fd. fold m.
  destruct (fd <? 0).
  - eexists. split; [reflexivity|]. simpl. rewrite app_nil_r. auto.
  - unfold encoded.
    destruct (iTermMultiServerProtocolEncodeMessageFromServer env m) as [rc obj]. simpl.
    unfold truthy. destruct (Z.eqb_spec rc 0); simpl.
    + unfold iTermFileDescriptorServerSendMessage, ask, close, emit, modify.
      cbv [bind ret]. simpl. eexists. split; [reflexivity|]. simpl.
      rewrite <- app_assoc. auto.
    + unfold close, emit, modify. cbv [bind ret]. simpl.
      eexists. split; [reflexivity|]. simpl. auto.
Qed.

(** C8.  When the accept on the listening socket yields a connection and the
    rejection encodes, AcceptAndReject sends that connection exactly one
    frame, the Handshake reply with protocolVersion = Rejected and
    numChildren = 0, without a descriptor, and then closes it; these two are
    its only effects: the registry and the other globals are unchanged, and
    a turn of the select loop in which only the listening socket was ready
    continues the loop with the same client descriptors. *)
Theorem AcceptAndReject_rejects_once env socket w :
  let fd := iTermFileDescriptorServerAccept env (clock w) in
  let m := ServerHandshake (iTermMultiServerProtocolVersionRejected env) 0 0 in
  0 <= fd ->
  encodes env m ->
  exists w' bytes,
    AcceptAndReject env socket w = Done tt w' /\
    trace w' = trace w ++ [EvSend fd (encoded env m) None bytes; EvClose fd] /\
    children w' = children w /\ gPipe w' = gPipe w /\ gPath w' = gPath w /\
    (forall fuel writeFd readFd w0,
       tick w0 = w ->
       truthy (iTermSelect env (clock w0) 2%nat) = false ->
       truthy (iTermSelect env (clock w0) 0%nat) = false ->
       truthy (iTermSelect env (clock w0) 1%nat) = true ->
       SelectLoop_body env fuel socket writeFd readFd tt w0 = Done (inl tt) w').
Proof.
  intros fd m Hfd Henc.
  destruct (AcceptAndReject_run env socket w) as (w' & HA & Hch & Hg & Hp & Htr).
  fold fd in Htr. fold m in Htr.
  exists w', (fst (sendmsg env (S (clock w)))).
  split; [exact HA|]. split.
  { rewrite Htr. replace (fd <? 0) with false by (symmetry; apply Z.ltb_ge; lia).
    unfold encodes in Henc. rewrite Henc. reflexivity. }
  split; [exact Hch|]. split; [exact Hg|]. split; [exact Hp|].
  intros fuel writeFd readFd w0 <- H2 H0 H1.
  apply SelectLoop_body_intruder; assumption.
Qed.

(** ** Exit *)

Lemma Run_exit env fuel path socketFd writeFD readFD w r w' :
  iTermFileDescriptorMultiServerRun env fuel path socketFd writeFD readFD w = Done r w' ->
  r = 1 /\ exists w1, trace w' = trace w1 ++ [EvUnlink path].
Proof.
  unfold iTermFileDescriptorMultiServerRun. intros H.
  apply bind_inv in H as (? & w1 & _ & H).
  apply bind_inv in H as (rc & w2 & _ & H).
  apply bind_inv in H as ([] & w3 & _ & H).
  unfold unlink, emit, modify in H. cbv [bind ret] in H. injection H as <- <-.
  split; [reflexivity|]. exists w3. reflexivity.
Qed.

Lemma main_exit env fuel argc argv w r w' :
  main env fuel argc argv w = Done r w' ->
  r = 1 /\ argc = 2 /\
  exists path t, argv !! 1%nat = Some path /\ trace w' = t ++ [EvUnlink path].
Proof.
  unfold main. intros H.
  apply bind_inv in H as ([] & w1 & Ha & H).
  unfold assert in Ha. destruct (Z.eqb_spec argc 2) as [Hargc | Hargc]; [|discriminate].
  destruct (argv !! 1%nat) as [path|]; [|discriminate].
  apply bind_inv in H as ([] & w2 & _ & H).
  apply bind_inv in H as (r0 & w3 & HR & H).
  unfold ret in H. injection H as <- <-.
  apply Run_exit in HR as [_ [w4 Ht]].
  split; [reflexivity|]. split; [exact Hargc|]. exists path, (trace w4). auto.
Qed.

Lemma Run_initialize_failure env fuel path socketFd writeFD readFD w rc w1 :
  Initialize env fuel path (tick w) = Done rc w1 -> rc <> 0 ->
  iTermFileDescriptorMultiServerRun env fuel path socketFd writeFD readFD w =
  Done 1 (with_trace (trace w1 ++ [EvUnlink path]) w1).
Proof.
  intros HI Hrc. unfold iTermFileDescriptorMultiServerRun, ask at 1. cbv [bind].
  fold (tick w). rewrite HI. unfold truthy.
  destruct (Z.eqb_spec rc 0); [contradiction|]. reflexivity.
Qed.

Lemma MainLoop_body_self_termination env fuel acceptFd writeFd readFd w w1 :
  when ((0 <=? writeFd) && (0 <=? readFd)) (SelectLoop env fuel acceptFd writeFd readFd) w
    = Done tt w1 ->
  count_reportable (children w1) 0 = 0 ->
  MainLoop_body env fuel acceptFd (writeFd, readFd) w = Done (inr tt) w1.
Proof.
  intros HS Hn. unfold MainLoop_body. simpl fst. simpl snd.
  rewrite (bind_Done _ _ _ _ _ HS).
  unfold GetNumberOfReportableChildren. cbv [bind get ret]. rewrite Hn. reflexivity.
Qed.

Lemma main_runs env fuel argc argv path w r w' :
  argc = 2 -> argv !! 1%nat = Some path ->
  iTermFileDescriptorMultiServerRun env fuel path
    iTermMultiServerFileDescriptorAcceptSocket
    iTermMultiServerFileDescriptorInitialWrite
    iTermMultiServerFileDescriptorInitialRead
    (with_gMultiServerSocketPath (Some path) w) = Done r w' ->
  main env fuel argc argv w = Done 1 w'.
Proof.
  intros -> Hp HR. unfold main. simpl. cbv [bind ret]. rewrite Hp.
  unfold modify. rewrite HR. reflexivity.
Qed.

Lemma Run_after_MainLoop env fuel path socketFd writeFD readFD w w1 w2 :
  Initialize env fuel path (tick w) = Done 0 w1 ->
  MainLoop env fuel path socketFd writeFD readFD w1 = Done tt w2 ->
  iTermFileDescriptorMultiServerRun env fuel path socketFd writeFD readFD w =
  Done 1 (with_trace (trace w2 ++ [EvUnlink path]) w2).
Proof.
  intros HI HM. unfold iTermFileDescriptorMultiServerRun, ask at 1. cbv [bind].
  fold (tick w). rewrite HI. simpl. rewrite HM. reflexivity.
Qed.

Lemma MainLoop_self_termination env fuel path acceptFd writeFd readFd w e1 w1 e2 w2 w3 :
  0 <= acceptFd -> acceptFd <> writeFd -> 0 <= writeFd -> 0 <= readFd ->
  MakeBlocking env (S fuel) writeFd w = Done e1 w1 ->
  MakeBlocking env (S fuel) readFd w1 = Done e2 w2 ->
  SelectLoop env (S fuel) acceptFd writeFd readFd w2 = Done tt w3 ->
  count_reportable (children w3) 0 = 0 ->
  MainLoop env (S fuel) path acceptFd writeFd readFd w = Done tt w3.
Proof.
  intros Ha Hne Hw Hr H1 H2 HS Hn. unfold MainLoop, assert.
  replace (0 <=? acceptFd) with true by (symmetry; apply Z.leb_le; lia).
  replace (acceptFd =? writeFd) with false by (symmetry; apply Z.eqb_neq; lia).
  replace (0 <=? writeFd) with true by (symmetry; apply Z.leb_le; lia).
  replace (0 <=? readFd) with true by (symmetry; apply Z.leb_le; lia).
  simpl negb. cbv iota. unfold ret at 1 2 3 4. cbv [bind] . 
  rewrite H1, H2. cbn [iter]. cbv [bind].
  rewrite (MainLoop_body_self_termination env (S fuel) acceptFd writeFd readFd w2 w3).
  - reflexivity.
  - replace (0 <=? writeFd) with true by (symmetry; apply Z.leb_le; lia).
    replace (0 <=? readFd) with true by (symmetry; apply Z.leb_le; lia).
    exact HS.
  - exact Hn.
Qed.

(** C9.  Whenever [main] returns, the exit status is 1, hence not zero, and
    the last thing the daemon did was to unlink the socket path it was
    given.  It does return with 1 after that unlink when Initialize fails,
    and when MainLoop returns, which is what MainLoop does at the detached
    check with no reportable children ([MainLoop_self_termination]). *)
Theorem daemon_never_exits_zero env fuel argc argv w :
  (forall r w',
     main env fuel argc argv w = Done r w' ->
     r <> 0 /\ r = 1 /\
     exists path t, argv !! 1%nat = Some path /\ trace w' = t ++ [EvUnlink path]) /\
  (forall path rc w1,
     argc = 2 -> argv !! 1%nat = Some path ->
     Initialize env fuel path (main_start path w) = Done rc w1 -> rc <> 0 ->
     main env fuel argc argv w = Done 1 (with_trace (trace w1 ++ [EvUnlink path]) w1)) /\
  (forall path w1 w2,
     argc = 2 -> argv !! 1%nat = Some path ->
     Initialize env fuel path (main_start path w) = Done 0 w1 ->
     MainLoop env fuel path iTermMultiServerFileDescriptorAcceptSocket
       iTermMultiServerFileDescriptorInitialWrite
       iTermMultiServerFileDescriptorInitialRead w1 = Done tt w2 ->
     main env fuel argc argv w = Done 1 (with_trace (trace w2 ++ [EvUnlink path]) w2)).
Proof.
  split; [|split].
  - intros r w' H. apply main_exit in H as (-> & _ & path & t & Hp & Ht).
    split; [lia|]. split; [reflexivity|]. exists path, t. auto.
  - intros path rc w1 Hargc Hp HI Hrc.
    apply (main_runs env fuel argc argv path w 1); [exact Hargc | exact Hp|].
    apply Run_initialize_failure with (rc := rc); assumption.
  - intros path w1 w2 Hargc Hp HI HM.
    apply (main_runs env fuel argc argv path w 1); [exact Hargc | exact Hp|].
    apply Run_after_MainLoop with (w1 := w1); assumption.
Qed.

(** ** The daemon on the sample inputs *)

Lemma first_match_head c l : first_match (c :: l) (pid c) 0 c.
Proof. repeat split. intros j c' Hj. lia. Qed.

(** C1, the claim as stated fails: the record for pid 501 is terminated and
    the handler builds the reply with its status and errorNumber 0, but the
    client is gone and sendmsg fails; the handler returns -1 and the record
    is still in the registry. *)
Lemma terminated_record_survives_failed_reply :
  first_match [exited] 501 0 exited /\
  terminated exited <> 0 /\
  exists w',
    HandleWait env_send_fails 1 (wait_for 501 0) (registry [exited]) = Done (-1) w' /\
    trace w' =
      [EvSend 1 (encoded env_send_fails (ServerWait 501 (status exited) 0)) None (-1)] /\
    children w' = [exited] /\
    children w' <> delete 0%nat [exited].
Proof.
  split; [exact (first_match_head exited [])|].
  split; [discriminate|].
  eexists. split; [vm_compute; reflexivity|]. split; [reflexivity|]. split; [reflexivity|].
  discriminate.
Qed.

(** C5, the claim as stated fails: the only record is disowned (and has been
    reaped since); a Wait for its pid is answered with its status and
    errorNumber 0 and removes it, where an empty registry answers
    errorNumber -1. *)
Lemma disowned_record_is_found_by_Wait :
  willTerminate disowned_exited <> 0 /\
  pid disowned_exited = 501 /\
  (exists w',
     HandleWait env_ok 1 (wait_for 501 0) (registry [disowned_exited]) = Done 0 w' /\
     trace w' = [EvSend 1 (encoded env_ok (ServerWait 501 256 0)) None 16] /\
     children w' = [] /\
     children w' <> [disowned_exited]) /\
  (exists w',
     HandleWait env_ok 1 (wait_for 501 0) (registry []) = Done 0 w' /\
     trace w' = [EvSend 1 (encoded env_ok (ServerWait 501 0 (-1))) None 16]) /\
  encoded env_ok (ServerWait 501 256 0) <> encoded env_ok (ServerWait 501 0 (-1)).
Proof.
  split; [discriminate|]. split; [reflexivity|].
  split.
  { eexists. split; [vm_compute; reflexivity|]. split; [reflexivity|]. split; [reflexivity|].
    discriminate. }
  split.
  { eexists. split; [vm_compute; reflexivity | reflexivity]. }
  discriminate.
Qed.

Lemma disowned_record_still_answers_Wait_witness :
  let w := registry [exited; disowned] in
  children w !! 1%nat = Some disowned /\
  willTerminate disowned <> 0 /\
  reportable disowned = false /\
  exists j d,
    first_match (children w) 501 j d /\
    GetChildIndexByPID 501 w = Done (Z.of_nat j) w /\
    exists r w', HandleWait env_ok 1 (wait_for 501 0) w = Done r w'.
Proof.
  intros w.
  assert (Hl : children w !! 1%nat = Some disowned) by reflexivity.
  assert (Hw : willTerminate disowned <> 0) by discriminate.
  destruct (disowned_record_still_answers_Wait env_ok 1 (wait_for 501 0) w 1 disowned
              Hl eq_refl Hw)
    as (Hr & _ & _ & j & d & _ & Hm & _ & Hg & r & w' & Hrun & _).
  split; [exact Hl|]. split; [exact Hw|]. split; [exact Hr|].
  exists j, d. split; [exact Hm|]. split; [exact Hg|].
  exists r, w'. exact Hrun.
Defined.

Lemma HandleWait_removes_only_after_reply_witness :
  exists r w',
    HandleWait env_send_fails 1 (wait_for 501 0) (registry [exited]) = Done r w' /\
    r = -1 /\ children w' = [exited].
Proof.
  eexists _, _. split; [vm_compute; reflexivity|].
  refine (proj2 (HandleWait_removes_only_after_reply env_send_fails 1 (wait_for 501 0)
                   (registry [exited]) _ _ eq_refl) 0%nat exited _ _ _).
  - exact (first_match_head exited []).
  - discriminate.
  - intros [_ H]. simpl in H. lia.
Defined.

Lemma handshake_reports_every_reportable_child_witness :
  let w := registry [running; disowned; exited] in
  exists w',
    HandleHandshake env_ok 1 (handshake_v 1) w = Done 0 w' /\
    exists bytes xs,
      trace w' = trace w ++
        EvSend 1 (encoded env_ok (ServerHandshake 1 2 1000)) None bytes
        :: map (report_event env_ok 1) xs /\
      map (fun x => fst (fst x)) xs = [exited; running] /\
      Z.of_nat (length xs) = 2 /\
      map report_isLast (map (fun x => report_message (fst (fst x)) (snd (fst x))) xs)
        = [0; 1] /\
      map report_pid (map (fun x => report_message (fst (fst x)) (snd (fst x))) xs)
        = [501; 501].
Proof.
  intros w. eexists. split; [vm_compute; reflexivity|].
  destruct (handshake_reports_every_reportable_child env_ok 1 (handshake_v 1) w _ eq_refl)
    as (bytes & xs & Htr & Hfst & Hlen & _ & _ & _ & Hlast & _ & Hpid).
  exists bytes, xs. split; [exact Htr|]. split; [exact Hfst|]. split; [exact Hlen|].
  split; [|exact Hpid].
  destruct xs as [|x0 [|x1 [|x2 xs]]]; try discriminate.
  simpl. f_equal; [exact (Hlast 0%nat _ eq_refl)|]. f_equal. exact (Hlast 1%nat _ eq_refl).
Defined.

Lemma reaper_notifies_each_exit_once_witness :
  let w := registry [running; set_willTerminate 1 (another 502); reaped 0 (another 503)] in
  settles env_exits 1 /\
  exists w' evs,
    WaitForAllProcesses env_exits 1 1 w = Done 0 w' /\
    trace w' = trace w ++ evs /\
    children w' =
      [reaped 256 running; reaped 256 (set_willTerminate 1 (another 502));
       reaped 0 (another 503)] /\
    Forall2 (is_termination_for env_exits 1) [running] evs.
Proof.
  intros w.
  assert (Hs : settles env_exits 1).
  { intros n. split; exists O; (split; [lia | reflexivity]). }
  split; [exact Hs|].
  destruct (reaper_notifies_each_exit_once env_exits 1 1 w) as [Hret Hdesc].
  destruct (Hret Hs) as (r & w' & Hrun).
  assert (Hval : WaitForAllProcesses env_exits 1 1 w = Done 0 _)
    by (vm_compute; reflexivity).
  rewrite Hval in Hrun. injection Hrun as <- <-.
  destruct (Hdesc 0 _ Hval) as (n & evs & _ & Htr & _ & _ & _ & Hsent & _).
  eexists _, evs. split; [exact Hval|]. split; [exact Htr|]. split; [reflexivity|].
  apply Hsent; [reflexivity | lia].
Defined.

(** C3, the code at a failing forkpty: forkpty returns -1 and the local [fd]
    keeps the value it had, 7.  Launch compares the pid with 1, takes the
    call for a success and returns 7; the handler registers a child with
    pid -1 and replies status 0, pid -1 with descriptor 7 attached, where a
    failed launch is to be answered with status -1, pid 0, no descriptor and
    no record. *)
Theorem forkpty_failure_is_answered_as_success :
  fp_pid (forkpty env_fork_fails (clock boot)) = -1 /\
  exists w',
    HandleLaunchRequest env_fork_fails 1 sample_launch boot = Done 0 w' /\
    children w' = [launched_child sample_launch (-1) 7 ""] /\
    trace w' =
      [EvSend 1 (encoded env_fork_fails (ServerLaunch 0 (-1) 42 "")) (Some 7) 16] /\
    encoded env_fork_fails (ServerLaunch 0 (-1) 42 "")
      <> encoded env_fork_fails (ServerLaunch (-1) 0 42 "").
Proof.
  split; [reflexivity|].
  eexists. split; [vm_compute; reflexivity|]. split; [reflexivity|].
  split; [reflexivity | discriminate].
Qed.

(** C4, the code at a Handshake that offers version 0 while the daemon
    supports version 1 and up: the request is read, HandleHandshake returns
    -1 without replying, yet ReadAndHandleRequest returns 0 (the handler's
    result is stored in [result] and never looked at), and the turn of the
    select loop ends with "continue": the attached phase goes on. *)
Theorem rejected_handshake_keeps_client_attached :
  ReadRequest env_handshake_v0 3 boot
    = Done (inr (ClientHandshake (handshake_v 0))) (tick boot) /\
  maximumProtocolVersion (handshake_v 0)
    < iTermMultiServerProtocolVersion1 env_handshake_v0 /\
  HandleHandshake env_handshake_v0 1 (handshake_v 0) (tick boot)
    = Done (-1) (tick boot) /\
  ReadAndHandleRequest env_handshake_v0 3 1 boot = Done 0 (tick boot) /\
  SelectLoop_body env_handshake_v0 1 0 1 3 tt boot = Done (inl tt) (tick (tick boot)).
Proof.
  split; [reflexivity|]. split; [reflexivity|]. split; [reflexivity|].
  split; reflexivity.
Qed.

Lemma launch_inserts_then_replies_witness :
  (exists r w3,
     HandleLaunchRequest env_send_fails 1 sample_launch boot = Done r w3 /\
     children w3 = [running] /\
     r = 1) /\
  (exists w3,
     HandleLaunchRequest (cannot_copy env_ok) 1 sample_launch (registry [another 502])
       = Halt AssertionFailed w3 /\
     trace w3 = [] /\
     children w3 = [another 502; stale_slot]).
Proof.
  split.
  - destruct (proj2 (launch_inserts_then_replies env_send_fails 1 sample_launch boot
                       7 _ "/dev/ttys001" 0 (tick boot) eq_refl ltac:(lia))
                    (conj eq_refl eq_refl))
      as (w2 & r & w3 & _ & _ & _ & _ & Hrun & Hch & _).
    exists r, w3. split; [exact Hrun|]. split; [exact Hch|].
    vm_compute in Hrun. congruence.
  - assert (Hrun : HandleLaunchRequest (cannot_copy env_ok) 1 sample_launch
                     (registry [another 502]) = Halt AssertionFailed _)
      by (vm_compute; reflexivity).
    eexists. split; [exact Hrun|].
    pose proof (proj1 (launch_inserts_then_replies (cannot_copy env_ok) 1 sample_launch
                         (registry [another 502]) 7 _ "/dev/ttys001" 0
                         (tick (registry [another 502])) eq_refl ltac:(lia))) as H.
    cbv zeta in H. rewrite ?Hrun in H. destruct H as (_ & _ & Ht & _).
    split; [exact Ht | reflexivity].
Defined.

Lemma AcceptAndReject_rejects_once_witness :
  let w := tick (registry [running]) in
  exists w' bytes,
    AcceptAndReject env_intruder 0 w = Done tt w' /\
    trace w' = [EvSend 9 (encoded env_intruder (ServerHandshake (-1) 0 0)) None bytes;
                EvClose 9] /\
    children w' = [running] /\
    SelectLoop_body env_intruder 1 0 1 3 tt (registry [running]) = Done (inl tt) w'.
Proof.
  intros w.
  assert (H9 : 0 <= iTermFileDescriptorServerAccept env_intruder (clock w)) by (vm_compute; discriminate).
  destruct (AcceptAndReject_rejects_once env_intruder 0 w H9 eq_refl)
    as (w' & bytes & Hrun & Htr & Hch & _ & _ & Hturn).
  exists w', bytes. split; [exact Hrun|]. split; [exact Htr|]. split; [exact Hch|].
  apply Hturn; reflexivity.
Defined.

Lemma daemon_never_exits_zero_witness :
  (exists r w', main env_ok 1 2 sample_argv boot = Done r w' /\
     r <> 0 /\ last (trace w') = Some (EvUnlink "/tmp/iterm2.socket")) /\
  (exists r w', main env_pipe_fails 1 2 sample_argv boot = Done r w' /\
     r <> 0 /\ last (trace w') = Some (EvUnlink "/tmp/iterm2.socket")).
Proof.
  split.
  - eexists _, _.
    assert (Hrun : main env_ok 1 2 sample_argv boot = Done _ _) by (vm_compute; reflexivity).
    split; [exact Hrun|]. split; [|reflexivity].
    exact (proj1 (proj1 (daemon_never_exits_zero env_ok 1 2 sample_argv boot) _ _ Hrun)).
  - eexists _, _.
    assert (Hrun : main env_pipe_fails 1 2 sample_argv boot = Done _ _)
      by (vm_compute; reflexivity).
    split; [exact Hrun|]. split; [|reflexivity].
    exact (proj1 (proj1 (daemon_never_exits_zero env_pipe_fails 1 2 sample_argv boot) _ _ Hrun)).
Defined.

(** ** Further properties of the code *)

Lemma closes_of_app t1 t2 : closes_of (t1 ++ t2) = closes_of t1 ++ closes_of t2.
Proof.
  induction t1 as [|e t1 IH]; simpl; [reflexivity|].
  destruct e; simpl; rewrite IH; reflexivity.
Qed.

Lemma sends_of_app t1 t2 : sends_of (t1 ++ t2) = sends_of t1 ++ sends_of t2.
Proof.
  induction t1 as [|e t1 IH]; simpl; [reflexivity|].
  destruct e; simpl; rewrite IH; reflexivity.
Qed.

(** X1. [GetChildIndexByPID] always returns and leaves the globals alone; its
    result is -1 exactly when no record has the pid, and otherwise it is the
    least index holding the pid, so of two records with one pid the older
    one is found. *)
Theorem GetChildIndexByPID_least_index p w :
  exists r, GetChildIndexByPID p w = Done r w /\
    -1 <= r < Z.of_nat (length (children w)) /\
    (r = -1 <-> no_match (children w) p) /\
    (forall i, r = Z.of_nat i ->
       exists c, children w !! i = Some c /\ pid c = p /\
         forall j c', (j < i)%nat -> children w !! j = Some c' -> pid c' <> p).
Proof.
  exists (find_pid (children w) p 0). split; [reflexivity|].
  destruct (find_pid_from (children w) p 0 ltac:(lia)) as [[Hf Hn] | (i & c & Hf & Hm)].
  - rewrite Hf. split; [lia|]. split; [tauto|]. intros i Hi. lia.
  - rewrite Hf. pose proof (first_match_bound _ _ _ _ Hm) as Hb.
    split; [lia|]. split.
    + split; [lia|]. intros Hn. exfalso. exact (first_match_not_no_match _ _ _ _ Hm Hn).
    + intros j Hj. assert (j = i) as -> by lia. exists c. exact Hm.
Qed.

Lemma first_match_app l p i c x : first_match l p i c -> first_match (l ++ [x]) p i c.
Proof.
  intros (Hl & Hp & Hb). pose proof (lookup_lt_Some _ _ _ Hl) as Hlt.
  split; [rewrite lookup_app_l by exact Hlt; exact Hl|]. split; [exact Hp|].
  intros j c' Hj Hc'. rewrite lookup_app_l in Hc' by lia. eapply Hb; eassumption.
Qed.

Lemma first_match_fresh l p x : no_match l p -> pid x = p -> first_match (l ++ [x]) p (length l) x.
Proof.
  intros Hn Hp. split; [apply list_lookup_middle; reflexivity|]. split; [exact Hp|].
  intros j c' Hj Hc'. rewrite lookup_app_l in Hc' by exact Hj.
  apply Hn. apply list_elem_of_In. apply list_elem_of_lookup. eauto.
Qed.

Lemma count_reportable_app l x n :
  count_reportable (l ++ [x]) n = count_reportable l n + (if reportable x then 1 else 0).
Proof.
  revert n. induction l as [|c l IH]; intros n; simpl.
  - unfold reportable. destruct (truthy (willTerminate x)); simpl; lia.
  - destruct (truthy (willTerminate c)); apply IH.
Qed.

(** X2. [AddChild] followed by a lookup.  When the codec returns the Launch
    request unchanged from its encode / parse round trip, [AddChild] appends
    one running, reportable record and sends nothing; every pid that was
    found before is found at the same index, a pid that was not in the
    registry is found at the new last index, and the reportable count grows
    by one.  When the request cannot be encoded the first assertion stops
    the daemon after the array has been grown: nothing has been sent and the
    registry holds one more slot, zero-filled when the registry was empty
    and with whatever realloc left in it otherwise. *)
Theorem AddChild_then_lookup env launch masterFd tty fs w :
  (launch_round_trips env launch ->
   exists w',
     AddChild env launch masterFd tty fs w = Done tt w' /\
     children w' = children w ++ [launched_child launch (fork_pid fs) masterFd tty] /\
     trace w' = trace w /\
     (forall p i c, first_match (children w) p i c ->
        GetChildIndexByPID p w' = Done (Z.of_nat i) w') /\
     (no_match (children w) (fork_pid fs) ->
        GetChildIndexByPID (fork_pid fs) w' = Done (Z.of_nat (length (children w))) w') /\
     count_reportable (children w') 0 = count_reportable (children w) 0 + 1) /\
  (fst (iTermMultiServerProtocolEncodeMessageFromClient env (ClientLaunch launch)) <> 0 ->
   exists slot,
     AddChild env launch masterFd tty fs w =
       Halt AssertionFailed (with_children (children w ++ [slot]) w) /\
     (children w = [] ->
      slot = {| messageWithLaunchRequest := zeroed_message env; pid := 0;
                terminated := 0; willTerminate := 0; masterFd := 0; status := 0;
                tty := None |}) /\
     (children w <> [] -> slot = realloc_content env (clock w))).
Proof.
  split.
  - intros Hrt. rewrite (AddChild_run env launch masterFd tty fs w Hrt).
    eexists. split; [reflexivity|]. simpl. split; [reflexivity|]. split; [reflexivity|].
    split; [|split].
    + intros p i c Hm.
      apply (GetChildIndexByPID_first_match _ _ _ c). simpl. apply first_match_app. exact Hm.
    + intros Hn.
      apply (GetChildIndexByPID_first_match _ _ _
               (launched_child launch (fork_pid fs) masterFd tty)).
      simpl. apply first_match_fresh; [exact Hn | reflexivity].
    + rewrite count_reportable_app. reflexivity.
  - intros Hne.
    destruct (AddChild_outcome env launch masterFd tty fs w) as (slot & Hs & ->).
    exists slot.
    destruct (Z.eqb_spec
                (fst (iTermMultiServerProtocolEncodeMessageFromClient env (ClientLaunch launch)))
                0); [contradiction|].
    split; [reflexivity|].
    unfold new_slot in Hs. cbv [bind get ret] in Hs.
    destruct (children w); injection Hs as <-; split; intros; congruence.
Qed.

(** X3. [RemoveChild] at an index inside the registry deletes exactly that
    entry: the registry is one shorter, the entries before the index stay
    where they were and the entries after it move down by one.  At any other
    index one of its two assertions stops the daemon with the registry
    untouched. *)
Theorem RemoveChild_deletes_one_entry w i :
  (0 <= i < Z.of_nat (length (children w)) ->
   exists w',
     RemoveChild i w = Done tt w' /\
     trace w' = trace w /\
     S (length (children w')) = length (children w) /\
     (forall j, (j < Z.to_nat i)%nat -> children w' !! j = children w !! j) /\
     (forall j, (Z.to_nat i <= j)%nat -> children w' !! j = children w !! S j)) /\
  (~ (0 <= i < Z.of_nat (length (children w))) ->
   RemoveChild i w = Halt AssertionFailed w).
Proof.
  split.
  - intros Hi. rewrite RemoveChild_run by exact Hi. eexists. split; [reflexivity|].
    simpl. split; [reflexivity|]. split.
    + rewrite length_delete by (apply lookup_lt_is_Some_2; lia). lia.
    + split; intros j Hj; [apply list_lookup_delete_lt | apply list_lookup_delete_ge]; exact Hj.
  - intros Hi. unfold RemoveChild, assert, numberOfChildren. cbv [bind get ret].
    destruct (Z.leb_spec 0 i) as [H0 | H0]; [|reflexivity].
    cbv beta iota.
    destruct (Z.ltb_spec i (Z.of_nat (length (children w)))) as [Hn | Hn]; [lia|].
    reflexivity.
Qed.

(** X4. [GetNumberOfReportableChildren] returns the number of records whose
    [willTerminate] is zero: it lies between 0 and [numberOfChildren], and it
    is 0 exactly when every record has been disowned, which is the test
    [MainLoop] exits on. *)
Theorem GetNumberOfReportableChildren_counts w :
  exists n,
    GetNumberOfReportableChildren w = Done n w /\
    n = Z.of_nat (length (List.filter reportable (children w))) /\
    0 <= n <= Z.of_nat (length (children w)) /\
    (n = 0 <-> Forall (fun c => willTerminate c <> 0) (children w)).
Proof.
  exists (count_reportable (children w) 0). split; [reflexivity|].
  rewrite count_reportable_filter. split; [lia|].
  generalize (children w). intros l. split.
  - pose proof (List.filter_length_le reportable l). lia.
  - induction l as [|c l IH]; simpl.
    + split; [constructor | reflexivity].
    + unfold reportable at 1 2, truthy.
      destruct (Z.eqb_spec (willTerminate c) 0) as [Hw | Hw]; simpl.
      * split; [lia|]. intros H. inversion H; subst. contradiction.
      * split.
        -- intros H. constructor; [exact Hw|]. apply IH. lia.
        -- intros H. inversion H; subst. apply IH in H3. lia.
Qed.

Lemma reaps_fields env fd l l' evs r :
  reaps env fd l l' evs r ->
  Forall2 (fun c c' =>
             pid c' = pid c /\ willTerminate c' = willTerminate c /\
             masterFd c' = masterFd c /\ tty c' = tty c /\
             messageWithLaunchRequest c' = messageWithLaunchRequest c /\
             (terminated c <> 0 -> c' = c)) l l'.
Proof.
  intros H. apply reaps_records in H.
  induction H as [|c c' l l' Hc _ IH]; constructor; [|exact IH].
  destruct Hc as [-> | [Ht [st ->]]]; simpl; repeat split; auto. intros; contradiction.
Qed.

Lemma count_reportable_same_flags l l' n :
  Forall2 (fun c c' => willTerminate c' = willTerminate c) l l' ->
  count_reportable l' n = count_reportable l n.
Proof.
  intros H. revert n. induction H as [|c c' l l' Hc _ IH]; intros n; simpl; [reflexivity|].
  rewrite Hc. destruct (truthy (willTerminate c)); apply IH.
Qed.

(** X5. What a pass of [WaitForAllProcesses] changes is the wait status and
    the [terminated] flag of running records, nothing else: the reportable
    count, the pids, the [willTerminate] flags and the master descriptors
    are those from before in the same order, no descriptor is closed, a
    record that had terminated is not visited again, and a record still
    running afterwards is unchanged. *)
Theorem reaper_keeps_reportable_count env fuel fd w r w' :
  WaitForAllProcesses env fuel fd w = Done r w' ->
  count_reportable (children w') 0 = count_reportable (children w) 0 /\
  map pid (children w') = map pid (children w) /\
  map willTerminate (children w') = map willTerminate (children w) /\
  map masterFd (children w') = map masterFd (children w) /\
  closes_of (trace w') = closes_of (trace w) /\
  (forall i c, children w !! i = Some c -> terminated c <> 0 -> children w' !! i = Some c) /\
  (forall i c', children w' !! i = Some c' -> terminated c' = 0 -> children w !! i = Some c').
Proof.
  intros Hrun. destruct (WaitForAllProcesses_run _ _ _ _ _ _ Hrun) as (evs & Htr & Hr).
  pose proof (reaps_fields _ _ _ _ _ _ Hr) as Hf.
  split.
  { apply count_reportable_same_flags. eapply Forall2_impl; [exact Hf|]. simpl. tauto. }
  assert (Hmap : forall {B} (f : iTermMultiServerChild -> B),
             (forall c c', pid c' = pid c /\ willTerminate c' = willTerminate c /\
                masterFd c' = masterFd c /\ tty c' = tty c /\
                messageWithLaunchRequest c' = messageWithLaunchRequest c /\
                (terminated c <> 0 -> c' = c) -> f c' = f c) ->
             map f (children w') = map f (children w)).
  { intros B f Hfc. clear -Hf Hfc. induction Hf as [|c c' l l' Hc _ IH]; simpl; [reflexivity|].
    rewrite IH, (Hfc c c' Hc). reflexivity. }
  split; [apply Hmap; tauto|]. split; [apply Hmap; tauto|]. split; [apply Hmap; tauto|].
  split.
  { rewrite Htr, closes_of_app.
    assert (closes_of evs = []) as ->; [|apply app_nil_r].
    clear -Hr. induction Hr; simpl; auto. }
  split.
  - intros i c Hc Ht. exact (reaps_keeps_terminated _ _ _ _ _ _ Hr i c Hc Ht).
  - intros i c' Hc' Ht.
    destruct (Forall2_lookup_r _ _ _ _ _ (reaps_records _ _ _ _ _ _ Hr) Hc')
      as (c & Hc & [-> | [_ [st ->]]]); [exact Hc | discriminate].
Qed.

Lemma reaps_all_terminated env fd l l' evs r :
  reaps env fd l l' evs r ->
  Forall (fun c => terminated c <> 0) l ->
  l' = l /\ evs = [] /\ r = 0.
Proof.
  induction 1; intros Hall; try (inversion Hall; subst; contradiction).
  - auto.
  - inversion Hall; subst. destruct (IHreaps H3) as (-> & -> & ->). auto.
Qed.

(** X6. When no record is running, a pass of [WaitForAllProcesses] calls
    waitpid for nobody: it returns 0, sends nothing and leaves the registry
    as it is. *)
Theorem reaper_idle_when_all_terminated env fuel fd w r w' :
  Forall (fun c => terminated c <> 0) (children w) ->
  WaitForAllProcesses env fuel fd w = Done r w' ->
  r = 0 /\ children w' = children w /\ trace w' = trace w.
Proof.
  intros Hall Hrun. destruct (WaitForAllProcesses_run _ _ _ _ _ _ Hrun) as (evs & Htr & Hr).
  destruct (reaps_all_terminated _ _ _ _ _ _ Hr Hall) as (Hc & -> & ->).
  rewrite app_nil_r in Htr. auto.
Qed.


(** ** Launch requests *)

Lemma AddChild_inv env launch masterFd tty fs w w' :
  AddChild env launch masterFd tty fs w = Done tt w' ->
  exists copy,
    w' = with_children
           (children w ++
            [ {| messageWithLaunchRequest := copy; pid := fork_pid fs;
                 terminated := 0; willTerminate := 0; masterFd := masterFd;
                 status := 0; tty := Some tty |} ]) w.
Proof.
  destruct (AddChild_outcome env launch masterFd tty fs w) as (slot & _ & ->).
  destruct (negb _); [discriminate|]. destruct (negb _); [discriminate|].
  intros [= <-]. eexists. reflexivity.
Qed.

Lemma SendLaunchResponse_effects env fd st p masterFd tty uniqueId w r w' :
  SendLaunchResponse env fd st p masterFd tty uniqueId w = Done r w' ->
  children w' = children w /\
  (r = 0 \/ r = 1 \/ r = -1) /\
  exists evs, trace w' = trace w ++ evs /\
    (length (sends_of evs) <= 1)%nat /\ closes_of evs = [].
Proof.
  intros H.
  destruct (SendLaunchResponse_run env fd st p masterFd tty uniqueId w)
    as (r0 & w0 & Hrun & Hch & Hcase).
  rewrite H in Hrun. injection Hrun as <- <-. split; [exact Hch|].
  destruct Hcase as [(_ & -> & Htr) | (_ & bytes & Htr & ->)].
  - split; [auto|]. exists []. rewrite app_nil_r. simpl. auto.
  - split; [destruct (bytes =? -1); simpl; auto|].
    eexists. split; [exact Htr|]. simpl. auto.
Qed.

(** X7. [HandleLaunchRequest] returns 0, 1 or -1, sends at most one message
    and closes nothing.  Either the registry is unchanged, which is the case
    when forkpty reported pid 1 or a negative master descriptor, or exactly
    one record was appended, running and reportable, with the pid, the
    master descriptor and the tty name forkpty returned. *)
Theorem HandleLaunchRequest_adds_at_most_one env fd launch w r w' :
  HandleLaunchRequest env fd launch w = Done r w' ->
  let a := forkpty env (clock w) in
  (r = 0 \/ r = 1 \/ r = -1) /\
  (exists evs, trace w' = trace w ++ evs /\
     (length (sends_of evs) <= 1)%nat /\ closes_of evs = []) /\
  ((children w' = children w /\ (fp_pid a = 1 \/ fp_fd a < 0)) \/
   (exists c, children w' = children w ++ [c] /\
      fp_pid a <> 1 /\ 0 <= fp_fd a /\
      pid c = fp_pid a /\ masterFd c = fp_fd a /\
      terminated c = 0 /\ willTerminate c = 0 /\ status c = 0 /\
      tty c = Some (fp_tty a))).
Proof.
  intros H a. unfold HandleLaunchRequest in H. fold forkState0 in H.
  apply bind_inv in H as ([[[masterFd fs] tty] error] & w1 & HL & H).
  pose proof (Launch_inv _ _ _ _ _ _ _ _ _ HL) as (-> & Hpid & -> & Hne0 & Hcase).
  fold a in Hpid, Hcase, Hne0.
  destruct (Z.ltb_spec masterFd 0) as [Hneg | Hpos].
  - apply SendLaunchResponse_effects in H as (Hch & Hr & evs & Htr & Hs).
    split; [exact Hr|]. split; [exists evs; auto|]. left. split; [exact Hch|].
    destruct Hcase as [[H1 _] | [_ ->]]; [left; exact H1 | right; exact Hneg].
  - apply bind_inv in H as ([] & w2 & HA & H).
    apply AddChild_inv in HA as (copy & ->).
    apply SendLaunchResponse_effects in H as (Hch & Hr & evs & Htr & Hs).
    split; [exact Hr|]. split; [exists evs; auto|]. right.
    destruct Hcase as [[_ ->] | [H1 ->]]; [lia|].
    eexists. split; [exact Hch|]. simpl. rewrite Hpid. repeat split; auto.
Qed.

(** ** Accesses stay in bounds *)

Lemma in_bounds_bind {A B} (m : M A) (k : A -> M B) w :
  in_bounds (m w) ->
  (forall a w1, m w = Done a w1 -> in_bounds (k a w1)) ->
  in_bounds (bind m k w).
Proof.
  unfold in_bounds, bind. intros Hm Hk. destruct (m w) as [a w1 | h w1 |] eqn:E.
  - apply (Hk a w1). reflexivity.
  - intros w0 H. apply (Hm w0). injection H as -> ->. reflexivity.
  - discriminate.
Qed.

Lemma in_bounds_iter {I R} fuel (body : I -> M (I + R)) :
  (forall i w, in_bounds (body i w)) -> forall i w, in_bounds (iter fuel body i w).
Proof.
  intros Hb. induction fuel as [|fuel IH]; intros i w; simpl.
  - discriminate.
  - apply in_bounds_bind; [apply Hb|]. intros [i' | r] w1 _; [apply IH | discriminate].
Qed.

Lemma in_bounds_returns {A} (o : outcome A) : (exists a w, o = Done a w) -> in_bounds o.
Proof. intros (a & w & ->) w0. discriminate. Qed.

Ltac in_bounds_step :=
  match goal with
  | |- in_bounds (Done _ _) => discriminate
  | |- in_bounds (ret _ _) => discriminate
  | |- in_bounds (ask _ _ _) => discriminate
  | |- in_bounds (emit _ _) => discriminate
  | |- in_bounds (close _ _) => discriminate
  | |- in_bounds (modify _ _) => discriminate
  | |- in_bounds (get _ _) => discriminate
  | |- in_bounds (halt_with ?h _) => discriminate
  | |- in_bounds (assert ?b _) => destruct b; discriminate
  | |- in_bounds (when ?b _ _) => destruct b; [|discriminate]
  | |- in_bounds (bind _ _ _) => apply in_bounds_bind; [|intros ? ? ?]
  | |- in_bounds ((if ?b then _ else _) _) => destruct b
  | |- in_bounds ((let '(_, _) := ?p in _) _) => destruct p
  | |- in_bounds (iter _ _ _ _) => apply in_bounds_iter; intros ? ?
  end.

Lemma child_at_in_bounds w i : (i < length (children w))%nat -> in_bounds (child_at i w).
Proof.
  intros H. unfold child_at.
  destruct (lookup_lt_is_Some_2 (children w) i H) as [c ->]. discriminate.
Qed.

Lemma update_child_in_bounds w i f :
  (i < length (children w))%nat -> in_bounds (update_child i f w).
Proof.
  intros H. unfold update_child. apply in_bounds_bind; [apply child_at_in_bounds; exact H|].
  intros. discriminate.
Qed.

Lemma update_child_length w i f w' :
  update_child i f w = Done tt w' -> length (children w') = length (children w).
Proof.
  unfold update_child. intros H. apply bind_inv in H as (c & w1 & Hc & H).
  unfold child_at in Hc. destruct (children w !! i); [|discriminate]. injection Hc as <- <-.
  unfold modify in H. injection H as <-. simpl. apply length_insert.
Qed.

Lemma ReportTermination_in_bounds env fd p w : in_bounds (ReportTermination env fd p w).
Proof. apply in_bounds_returns. apply ReportTermination_returns. Qed.

Lemma WaitPidNoHang_in_bounds env fuel p w : in_bounds (WaitPidNoHang env fuel p w).
Proof. unfold WaitPidNoHang. repeat in_bounds_step. Qed.

Lemma WaitForAllProcesses_from_in_bounds env fuel fd k i w :
  length (children w) = (i + k)%nat ->
  in_bounds (WaitForAllProcesses_from env fuel fd k i w).
Proof.
  revert i w. induction k as [|k IH]; intros i w Hlen; simpl; [discriminate|].
  apply in_bounds_bind; [apply child_at_in_bounds; lia|]. intros c w0 Hc.
  unfold child_at in Hc. destruct (children w !! i); [|discriminate]. injection Hc as <- <-.
  destruct (truthy (terminated _)); [apply IH; lia|].
  apply in_bounds_bind; [apply WaitPidNoHang_in_bounds|]. intros [res st] w1 Hw.
  apply WaitPidNoHang_inv in Hw as ((Hq1 & _ & _) & _ & _).
  apply in_bounds_bind.
  { simpl. destruct st; [apply update_child_in_bounds; rewrite Hq1; lia | discriminate]. }
  intros [] w2 Hst.
  assert (Hl2 : length (children w2) = length (children w)).
  { simpl in Hst. destruct st.
    - apply update_child_length in Hst. rewrite Hst, Hq1. reflexivity.
    - unfold ret in Hst. injection Hst as <-. rewrite Hq1. reflexivity. }
  simpl fst. cbn [fst]. destruct (0 <? res); [|apply IH; lia].
  apply in_bounds_bind; [apply update_child_in_bounds; lia|]. intros [] w3 Hup.
  apply update_child_length in Hup.
  apply in_bounds_bind; [apply child_at_in_bounds; lia|]. intros c3 w3' Hc3.
  unfold child_at in Hc3. destruct (children w3 !! i); [|discriminate]. injection Hc3 as <- <-.
  apply in_bounds_bind.
  { destruct (_ && _); [|discriminate].
    apply in_bounds_bind; [apply ReportTermination_in_bounds | intros; discriminate]. }
  intros failed w4 Hf.
  assert (Hl4 : length (children w4) = length (children w3)).
  { destruct (_ && _).
    - apply bind_inv in Hf as (e & w5 & He & Hf). unfold ret in Hf. injection Hf as <- <-.
      apply ReportTermination_inv in He as [-> _]. reflexivity.
    - unfold ret in Hf. injection Hf as <- <-. reflexivity. }
  destruct failed; [discriminate|]. apply IH. lia.
Qed.

Lemma WaitForAllProcesses_in_bounds env fuel fd w :
  in_bounds (WaitForAllProcesses env fuel fd w).
Proof.
  unfold WaitForAllProcesses. apply in_bounds_bind; [repeat in_bounds_step|].
  intros [] w1 _. apply in_bounds_bind; [discriminate|]. intros n w2 Hn.
  unfold get in Hn. injection Hn as <- <-.
  apply WaitForAllProcesses_from_in_bounds. reflexivity.
Qed.

Lemma ReportChild_in_bounds env fd c isLast w : in_bounds (ReportChild env fd c isLast w).
Proof.
  unfold ReportChild, iTermFileDescriptorServerSendMessageAndFileDescriptor.
  repeat in_bounds_step.
Qed.

Lemma ReportChildren_from_in_bounds env fd n k numberSent w :
  (k <= length (children w))%nat ->
  in_bounds (ReportChildren_from env fd n k numberSent w).
Proof.
  revert numberSent w. induction k as [|i IH]; intros numberSent w Hk; simpl; [discriminate|].
  apply in_bounds_bind; [apply child_at_in_bounds; lia|]. intros c w0 Hc.
  unfold child_at in Hc. destruct (children w !! i); [|discriminate]. injection Hc as <- <-.
  destruct (truthy (willTerminate _)); [apply IH; lia|].
  apply in_bounds_bind; [apply ReportChild_in_bounds|]. intros e w1 He.
  apply ReportChild_inv in He as [Hch _].
  destruct (truthy e); [discriminate|]. apply IH. rewrite Hch. lia.
Qed.

Lemma HandleHandshake_in_bounds env fd handshake w :
  in_bounds (HandleHandshake env fd handshake w).
Proof.
  unfold HandleHandshake. destruct (_ <? _); [discriminate|].
  apply in_bounds_bind; [discriminate|]. intros n w0 Hn.
  unfold GetNumberOfReportableChildren in Hn. cbv [bind get ret] in Hn. injection Hn as <- <-.
  destruct (iTermMultiServerProtocolEncodeMessageFromServer env _) as [rc obj].
  destruct (truthy rc); [discriminate|].
  apply in_bounds_bind.
  { unfold iTermFileDescriptorServerSendMessage. repeat in_bounds_step. }
  intros r w1 Hs.
  assert (Hch : children w1 = children w).
  { unfold iTermFileDescriptorServerSendMessage, ask, emit, modify in Hs.
    cbv [bind ret] in Hs. injection Hs as <- <-. reflexivity. }
  destruct (_ <? 0); [discriminate|].
  unfold ReportChildren. apply in_bounds_bind; [discriminate|]. intros n' w2 Hn'.
  unfold GetNumberOfReportableChildren in Hn'. cbv [bind get ret] in Hn'.
  injection Hn' as <- <-.
  apply in_bounds_bind; [discriminate|]. intros k w3 Hk. unfold get in Hk.
  injection Hk as <- <-. apply ReportChildren_from_in_bounds. lia.
Qed.

Lemma HandleWait_in_bounds env fd wait w : in_bounds (HandleWait env fd wait w).
Proof.
  apply in_bounds_returns.
  destruct (HandleWait_run env fd wait w) as (r & w' & H & _). eauto.
Qed.

Lemma SendLaunchResponse_in_bounds env fd st p masterFd tty uniqueId w :
  in_bounds (SendLaunchResponse env fd st p masterFd tty uniqueId w).
Proof.
  apply in_bounds_returns.
  destruct (SendLaunchResponse_run env fd st p masterFd tty uniqueId w) as (r & w' & H & _).
  eauto.
Qed.

Lemma HandleLaunchRequest_in_bounds env fd launch w :
  in_bounds (HandleLaunchRequest env fd launch w).
Proof.
  unfold HandleLaunchRequest. apply in_bounds_bind.
  { unfold Launch. apply in_bounds_bind; [discriminate|]. intros a w0 _. cbv zeta.
    apply in_bounds_bind.
    - unfold when, iTermExec. destruct (_ =? 0); discriminate.
    - intros [] w1' _. destruct (_ =? 1); discriminate. }
  intros [[[masterFd fs] tty] error] w1 _.
  destruct (masterFd <? 0); [apply SendLaunchResponse_in_bounds|].
  apply in_bounds_bind; [|intros; apply SendLaunchResponse_in_bounds].
  destruct (AddChild_outcome env launch masterFd tty fs w1) as (slot & _ & ->).
  destruct (negb _); [discriminate|]. destruct (negb _); discriminate.
Qed.

Lemma ReadAndHandleRequest_in_bounds env readFd writeFd w :
  in_bounds (ReadAndHandleRequest env readFd writeFd w).
Proof.
  unfold ReadAndHandleRequest. apply in_bounds_bind.
  { unfold ReadRequest. repeat in_bounds_step. }
  intros [st | request] w1 _; [discriminate|].
  apply in_bounds_bind; [|intros; discriminate].
  destruct request; [apply HandleHandshake_in_bounds | apply HandleLaunchRequest_in_bounds
                    | apply HandleWait_in_bounds | discriminate | discriminate].
Qed.

Lemma AcceptAndReject_in_bounds env socket w : in_bounds (AcceptAndReject env socket w).
Proof.
  apply in_bounds_returns. destruct (AcceptAndReject_run env socket w) as (w' & H & _). eauto.
Qed.

Lemma SelectLoop_body_in_bounds env fuel acceptFd writeFd readFd u w :
  in_bounds (SelectLoop_body env fuel acceptFd writeFd readFd u w).
Proof.
  unfold SelectLoop_body.
  apply in_bounds_bind; [discriminate|]. intros results w1 _.
  apply in_bounds_bind.
  { destruct (truthy (results 2%nat)); [|discriminate].
    apply in_bounds_bind; [apply ReadAndHandleRequest_in_bounds|]. intros e w2 _.
    destruct (truthy e); [|discriminate].
    apply in_bounds_bind; [|intros; discriminate].
    destruct (truthy (results 0%nat)); [|discriminate].
    apply in_bounds_bind; [apply WaitForAllProcesses_in_bounds | intros; discriminate]. }
  intros leave w2 _. destruct leave; [discriminate|].
  apply in_bounds_bind.
  { destruct (truthy (results 0%nat)); [|discriminate].
    apply in_bounds_bind; [apply WaitForAllProcesses_in_bounds | intros; discriminate]. }
  intros leave w3 _. destruct leave; [discriminate|].
  apply in_bounds_bind; [|intros; discriminate].
  unfold when. destruct (truthy (results 1%nat)); [apply AcceptAndReject_in_bounds | discriminate].
Qed.

Lemma SelectLoop_in_bounds env fuel acceptFd writeFd readFd w :
  in_bounds (SelectLoop env fuel acceptFd writeFd readFd w).
Proof.
  unfold SelectLoop. apply in_bounds_bind; [|intros; discriminate].
  apply in_bounds_iter. intros. apply SelectLoop_body_in_bounds.
Qed.

Lemma MakeBlocking_in_bounds env fuel fd w : in_bounds (MakeBlocking env fuel fd w).
Proof. unfold MakeBlocking. repeat in_bounds_step. Qed.

Lemma MakeNonBlocking_in_bounds env fuel fd w : in_bounds (MakeNonBlocking env fuel fd w).
Proof. unfold MakeNonBlocking. repeat in_bounds_step. Qed.

Lemma iTermMultiServerAccept_in_bounds env fuel socketFd w :
  in_bounds (iTermMultiServerAccept env fuel socketFd w).
Proof.
  unfold iTermMultiServerAccept. apply in_bounds_iter. intros [] w0.
  apply in_bounds_bind; [discriminate|]. intros results w1 _.
  apply in_bounds_bind.
  { destruct (truthy (results 1%nat)); [|discriminate].
    apply in_bounds_bind; [apply WaitForAllProcesses_in_bounds | intros; discriminate]. }
  intros [] w2 _. repeat in_bounds_step.
Qed.

Lemma MakeAndSendPipe_in_bounds env fd w : in_bounds (MakeAndSendPipe env fd w).
Proof.
  unfold MakeAndSendPipe, iTermFileDescriptorServerSendMessageAndFileDescriptor.
  repeat in_bounds_step.
Qed.

Lemma MainLoop_in_bounds env fuel path acceptFd writeFd readFd w :
  in_bounds (MainLoop env fuel path acceptFd writeFd readFd w).
Proof.
  unfold MainLoop.
  do 4 (apply in_bounds_bind; [unfold assert; destruct (_ : bool); discriminate | intros [] ? _]).
  apply in_bounds_bind; [apply MakeBlocking_in_bounds | intros ? ? _].
  apply in_bounds_bind; [apply MakeBlocking_in_bounds | intros ? ? _].
  apply in_bounds_iter. intros fds v0. unfold MainLoop_body. cbv zeta.
  apply in_bounds_bind.
  { unfold when. destruct (_ && _); [apply SelectLoop_in_bounds | discriminate]. }
  intros [] v1 _. apply in_bounds_bind; [discriminate|]. intros n v2 _.
  destruct (n =? 0); [discriminate|].
  apply in_bounds_bind; [apply iTermMultiServerAccept_in_bounds|]. intros wfd v3 _.
  destruct (wfd =? -1); [discriminate|].
  apply in_bounds_bind; [apply MakeAndSendPipe_in_bounds|]. intros rfd v4 _.
  apply in_bounds_bind; [apply MakeBlocking_in_bounds | intros ? ? _].
  apply in_bounds_bind; [apply MakeBlocking_in_bounds | intros ? ? _].
  destruct (_ && _); discriminate.
Qed.

Lemma Initialize_in_bounds env fuel path w : in_bounds (Initialize env fuel path w).
Proof.
  unfold Initialize, MakeStandardFileDescriptorsNonBlocking, MakePipe, InitializeSignals, when.
  repeat first
    [ apply MakeBlocking_in_bounds | apply MakeNonBlocking_in_bounds | in_bounds_step ].
Qed.

(** X8. No run of the daemon reads or writes outside [children]: with
    [argc] the length of [argv], as the C runtime guarantees, [main] never
    stops on an access out of bounds, whatever the environment answers and
    whatever the registry held. *)
Theorem main_accesses_stay_in_bounds env fuel argc argv w :
  Z.of_nat (length argv) = argc ->
  in_bounds (main env fuel argc argv w).
Proof.
  intros Hargc. unfold main. apply in_bounds_bind.
  { unfold assert. destruct (argc =? 2); discriminate. }
  intros [] w1 Ha. unfold assert in Ha.
  destruct (Z.eqb_spec argc 2) as [H2 | H2]; [|discriminate].
  destruct (lookup_lt_is_Some_2 argv 1%nat ltac:(lia)) as [path ->].
  apply in_bounds_bind; [discriminate|]. intros [] w2 _.
  apply in_bounds_bind; [|intros; discriminate].
  unfold iTermFileDescriptorMultiServerRun.
  apply in_bounds_bind; [discriminate|]. intros ? w3 _.
  apply in_bounds_bind; [apply Initialize_in_bounds|]. intros rc w4 _.
  apply in_bounds_bind; [|intros; unfold unlink; repeat in_bounds_step].
  destruct (truthy rc); [discriminate | apply MainLoop_in_bounds].
Qed.

Lemma stays_ok_bind {A B} (m : M A) (k : A -> M B) w :
  stays_ok (m w) ->
  (forall a w1, m w = Done a w1 -> daemon_ok w1 -> stays_ok (k a w1)) ->
  stays_ok (bind m k w).
Proof.
  intros Hm Hk. unfold bind. destruct (m w) as [a w1 | h w1 |] eqn:E.
  - apply Hk; [reflexivity | exact Hm].
  - exact Hm.
  - exact I.
Qed.

Lemma stays_ok_iter {I R} fuel (body : I -> M (I + R)) :
  (forall i w, daemon_ok w -> stays_ok (body i w)) ->
  forall i w, daemon_ok w -> stays_ok (iter fuel body i w).
Proof.
  intros Hb. induction fuel as [|fuel IH]; intros i w Hw; simpl; [constructor|].
  apply stays_ok_bind; [apply Hb; exact Hw|]. intros [i' | r] w1 _ H1.
  - apply IH; exact H1.
  - exact H1.
Qed.

Lemma stays_ok_halt {A} h w : daemon_ok w -> stays_ok (@Halt A h w).
Proof. intros [Hr Ht]. split; [exact Ht | left; exact Hr]. Qed.

Lemma daemon_ok_emit w e :
  daemon_ok w -> attachment_ok e -> daemon_ok (with_trace (trace w ++ [e]) w).
Proof.
  intros [Hr Ht] He. split; [exact Hr|]. simpl. apply Forall_app. split; [exact Ht|].
  constructor; [exact He | constructor].
Qed.

Lemma stays_ok_emit w e : daemon_ok w -> attachment_ok e -> stays_ok (emit e w).
Proof. intros Hw He. apply daemon_ok_emit; assumption. Qed.

Lemma stays_ok_ask env {A} (f : Env -> nat -> A) w : daemon_ok w -> stays_ok (ask env f w).
Proof. intros Hw. exact Hw. Qed.

(** Steps that leave the registry and add no attachment. *)
Ltac stays_ok_step :=
  match goal with
  | H : daemon_ok ?w |- daemon_ok ?w => exact H
  | H : daemon_ok ?w |- stays_ok (ret _ ?w) => exact H
  | H : daemon_ok ?w |- stays_ok (Done _ ?w) => exact H
  | H : daemon_ok ?w |- stays_ok (get _ ?w) => exact H
  | H : daemon_ok ?w |- stays_ok (halt_with _ ?w) => apply stays_ok_halt; exact H
  | H : daemon_ok ?w |- stays_ok (Halt _ ?w) => apply stays_ok_halt; exact H
  | H : daemon_ok ?w |- stays_ok (ask _ _ ?w) => apply stays_ok_ask; exact H
  | H : daemon_ok ?w |- stays_ok (assert ?b ?w) =>
      unfold assert; destruct b; [exact H | apply stays_ok_halt; exact H]
  | H : daemon_ok ?w |- stays_ok (close _ ?w) =>
      apply stays_ok_emit; [exact H | exact I]
  | H : daemon_ok ?w |- stays_ok (unlink _ ?w) =>
      apply stays_ok_emit; [exact H | exact I]
  | H : daemon_ok ?w |- stays_ok (emit (EvSend _ _ None _) ?w) =>
      apply stays_ok_emit; [exact H | exact I]
  | H : daemon_ok ?w |- stays_ok (emit (EvSetFlags _ _) ?w) =>
      apply stays_ok_emit; [exact H | exact I]
  | |- stays_ok (when ?b _ _) => unfold when; destruct b
  | |- stays_ok (bind _ _ _) => apply stays_ok_bind; [|intros ? ? _ ?]
  | |- stays_ok ((if ?b then _ else _) _) => destruct b
  | |- stays_ok ((let '(_, _) := ?p in _) _) => destruct p
  | |- stays_ok (iter _ _ _ _) => apply stays_ok_iter; [intros ? ? ? | assumption]
  end.

Lemma SendMessage_stays_ok env fd frame w :
  daemon_ok w -> stays_ok (iTermFileDescriptorServerSendMessage env fd frame w).
Proof. intros Hw. unfold iTermFileDescriptorServerSendMessage. repeat stays_ok_step. Qed.

Lemma SendMessageAndFileDescriptor_stays_ok env fd frame fdToSend w :
  daemon_ok w -> 0 <= fdToSend ->
  stays_ok (iTermFileDescriptorServerSendMessageAndFileDescriptor env fd frame fdToSend w).
Proof.
  intros Hw Hfd. unfold iTermFileDescriptorServerSendMessageAndFileDescriptor.
  apply stays_ok_bind; [stays_ok_step|]. intros r w1 _ H1.
  apply stays_ok_bind; [apply stays_ok_emit; [exact H1 | exact Hfd]|]. intros [] w2 _ H2.
  stays_ok_step.
Qed.

Lemma child_at_stays_ok i w : daemon_ok w -> stays_ok (child_at i w).
Proof.
  intros Hw. unfold child_at.
  destruct (children w !! i); [exact Hw | apply stays_ok_halt; exact Hw].
Qed.

Lemma child_at_descriptor_ok i w c w1 :
  daemon_ok w -> child_at i w = Done c w1 -> w1 = w /\ children w !! i = Some c /\ descriptor_ok c.
Proof.
  intros [Hr _] H. unfold child_at in H. destruct (children w !! i) as [c0|] eqn:E; [|discriminate].
  injection H as <- <-. repeat split.
  eapply Forall_lookup_1; eassumption.
Qed.

(** An update that touches neither [willTerminate] nor [masterFd]. *)
Lemma update_child_stays_ok i f w :
  (forall c, willTerminate (f c) = willTerminate c /\ masterFd (f c) = masterFd c) ->
  daemon_ok w -> stays_ok (update_child i f w).
Proof.
  intros Hf Hw. unfold update_child. apply stays_ok_bind; [apply child_at_stays_ok; exact Hw|].
  intros c w1 Hc _. apply (child_at_descriptor_ok _ _ _ _ Hw) in Hc as (-> & Hl & Hc).
  destruct Hw as [Hr Ht]. split; [|exact Ht]. simpl.
  apply Forall_insert; [exact Hr|]. unfold descriptor_ok in *.
  destruct (Hf c) as [-> ->]. exact Hc.
Qed.

Lemma ReportTermination_stays_ok env fd p w :
  daemon_ok w -> stays_ok (ReportTermination env fd p w).
Proof.
  intros Hw. unfold ReportTermination.
  destruct (iTermMultiServerProtocolEncodeMessageFromServer env _) as [rc obj].
  destruct (truthy rc); [stays_ok_step|].
  apply stays_ok_bind; [apply SendMessage_stays_ok; exact Hw|]. intros. stays_ok_step.
Qed.

Lemma WaitPidNoHang_stays_ok env fuel p w :
  daemon_ok w -> stays_ok (WaitPidNoHang env fuel p w).
Proof. intros Hw. unfold WaitPidNoHang. repeat stays_ok_step. Qed.

Lemma WaitForAllProcesses_from_stays_ok env fuel fd k i w :
  daemon_ok w -> stays_ok (WaitForAllProcesses_from env fuel fd k i w).
Proof.
  revert i w. induction k as [|k IH]; intros i w Hw; simpl; [stays_ok_step|].
  apply stays_ok_bind; [apply child_at_stays_ok; exact Hw|]. intros c w1 _ H1.
  destruct (truthy (terminated c)); [apply IH; exact H1|].
  apply stays_ok_bind; [apply WaitPidNoHang_stays_ok; exact H1|]. intros r w2 _ H2.
  apply stays_ok_bind.
  { destruct (snd r); [|stays_ok_step]. apply update_child_stays_ok; [|exact H2].
    intros c0. destruct c0; split; reflexivity. }
  intros [] w3 _ H3. destruct (0 <? fst r); [|apply IH; exact H3].
  apply stays_ok_bind.
  { apply update_child_stays_ok; [|exact H3]. intros c0. destruct c0; split; reflexivity. }
  intros [] w4 _ H4.
  apply stays_ok_bind; [apply child_at_stays_ok; exact H4|]. intros c' w5 _ H5.
  apply stays_ok_bind.
  { destruct (_ && _); [|stays_ok_step].
    apply stays_ok_bind; [apply ReportTermination_stays_ok; exact H5|]. intros. stays_ok_step. }
  intros failed w6 _ H6. destruct failed; [stays_ok_step | apply IH; exact H6].
Qed.

Lemma WaitForAllProcesses_stays_ok env fuel fd w :
  daemon_ok w -> stays_ok (WaitForAllProcesses env fuel fd w).
Proof.
  intros Hw. unfold WaitForAllProcesses.
  apply stays_ok_bind; [repeat stays_ok_step|]. intros [] w1 _ H1.
  apply stays_ok_bind; [stays_ok_step|]. intros n w2 _ H2.
  apply WaitForAllProcesses_from_stays_ok. exact H2.
Qed.

Lemma ReportChild_stays_ok env fd c isLast w :
  daemon_ok w -> 0 <= masterFd c -> stays_ok (ReportChild env fd c isLast w).
Proof.
  intros Hw Hfd. unfold ReportChild.
  destruct (iTermMultiServerProtocolEncodeMessageFromServer env _) as [rc obj].
  destruct (truthy rc); [stays_ok_step|].
  apply stays_ok_bind; [apply SendMessageAndFileDescriptor_stays_ok; assumption|].
  intros r w1 _ H1. cbv zeta. repeat stays_ok_step.
Qed.

Lemma ReportChildren_from_stays_ok env fd n k numberSent w :
  daemon_ok w -> stays_ok (ReportChildren_from env fd n k numberSent w).
Proof.
  revert numberSent w. induction k as [|i IH]; intros numberSent w Hw; simpl; [stays_ok_step|].
  apply stays_ok_bind; [apply child_at_stays_ok; exact Hw|]. intros c w1 Hc _.
  apply (child_at_descriptor_ok _ _ _ _ Hw) in Hc as (-> & _ & Hc).
  unfold truthy. destruct (Z.eqb_spec (willTerminate c) 0) as [H0 | H0]; simpl;
    [|apply IH; exact Hw].
  apply stays_ok_bind.
  { apply ReportChild_stays_ok; [exact Hw|]. destruct Hc as [[_ ?] | [? _]]; [assumption | lia]. }
  intros e w2 _ H2. destruct (negb (e =? 0)); [stays_ok_step | apply IH; exact H2].
Qed.

Lemma HandleHandshake_stays_ok env fd handshake w :
  daemon_ok w -> stays_ok (HandleHandshake env fd handshake w).
Proof.
  intros Hw. unfold HandleHandshake. destruct (_ <? _); [stays_ok_step|].
  apply stays_ok_bind; [unfold GetNumberOfReportableChildren; repeat stays_ok_step|].
  intros n w1 _ H1.
  destruct (iTermMultiServerProtocolEncodeMessageFromServer env _) as [rc obj].
  destruct (truthy rc); [stays_ok_step|].
  apply stays_ok_bind; [apply SendMessage_stays_ok; exact H1|]. intros r w2 _ H2.
  cbv zeta. destruct (_ <? 0); [stays_ok_step|].
  unfold ReportChildren.
  apply stays_ok_bind; [unfold GetNumberOfReportableChildren; repeat stays_ok_step|].
  intros n' w3 _ H3.
  apply stays_ok_bind; [stays_ok_step|]. intros k w4 _ H4.
  apply ReportChildren_from_stays_ok. exact H4.
Qed.

Lemma attachment_ok_app t1 t2 :
  Forall attachment_ok t1 -> Forall attachment_ok t2 -> Forall attachment_ok (t1 ++ t2).
Proof. intros. apply Forall_app. split; assumption. Qed.

Lemma wait_reply_stays_ok env fd w m fdc kept removed r w' :
  daemon_ok w -> registry_ok kept -> registry_ok removed ->
  wait_reply env fd w m (map EvClose fdc) kept removed r w' -> daemon_ok w'.
Proof.
  intros [_ Ht] Hk Hr (_ & _ & Htr & Hch). split.
  - rewrite Hch. destruct (r =? 0); assumption.
  - rewrite Htr. apply attachment_ok_app; [exact Ht|]. apply attachment_ok_app.
    + apply Forall_forall. intros e He. apply list_elem_of_fmap in He as (x & -> & _). exact I.
    + destruct (_ =? 0); repeat constructor.
Qed.

Lemma HandleWait_stays_ok env fd wait w :
  daemon_ok w -> stays_ok (HandleWait env fd wait w).
Proof.
  intros Hw.
  destruct (HandleWait_run env fd wait w) as (r & w1 & Hrun & Hcase).
  rewrite Hrun. simpl. pose proof Hw as [Hr _].
  destruct Hcase as [(_ & H) | [(i & c & _ & _ & _ & H) | [(i & c & Hm & _ & _ & H)
                    | (i & c & _ & _ & H)]]].
  - apply (wait_reply_stays_ok env fd w _ [] _ _ _ _ Hw Hr Hr H).
  - apply (wait_reply_stays_ok env fd w _ [] _ _ _ _ Hw Hr Hr H).
  - cbv zeta in H.
    assert (Hl : registry_ok (<[i := set_masterFd (-1) (set_willTerminate 1 c)]> (children w))).
    { apply Forall_insert; [exact Hr|]. right. split; reflexivity. }
    apply (wait_reply_stays_ok env fd w _ [masterFd c] _ _ _ _ Hw Hl Hl H).
  - apply (wait_reply_stays_ok env fd w _ [] _ _ _ _ Hw Hr
             (Forall_delete _ _ _ Hr) H).
Qed.

Lemma SendLaunchResponse_stays_ok env fd st p masterFd tty uniqueId w :
  daemon_ok w -> stays_ok (SendLaunchResponse env fd st p masterFd tty uniqueId w).
Proof.
  intros Hw. unfold SendLaunchResponse.
  destruct (iTermMultiServerProtocolEncodeMessageFromServer env _) as [rc obj].
  destruct (truthy rc); [stays_ok_step|].
  apply stays_ok_bind; [|intros; stays_ok_step].
  destruct (Z.leb_spec 0 masterFd).
  - apply SendMessageAndFileDescriptor_stays_ok; assumption.
  - apply SendMessage_stays_ok; assumption.
Qed.

Lemma AddChild_stays_ok env launch masterFd tty fs w :
  daemon_ok w -> 0 <= masterFd -> stays_ok (AddChild env launch masterFd tty fs w).
Proof.
  intros [Hr Ht] Hfd.
  destruct (AddChild_outcome env launch masterFd tty fs w) as (slot & _ & ->).
  destruct (negb _).
  { split; [exact Ht|]. right. split; [reflexivity|]. exists (children w), slot. auto. }
  destruct (negb _).
  { split; [exact Ht|]. right. split; [reflexivity|]. eexists (children w), _. auto. }
  split; [|exact Ht]. simpl.
  apply Forall_app. split; [exact Hr|]. constructor; [|constructor].
  left. split; [reflexivity | exact Hfd].
Qed.

Lemma HandleLaunchRequest_stays_ok env fd launch w :
  daemon_ok w -> stays_ok (HandleLaunchRequest env fd launch w).
Proof.
  intros Hw. unfold HandleLaunchRequest. apply stays_ok_bind.
  { unfold Launch. apply stays_ok_bind; [stays_ok_step|]. intros a w0 _ H0. cbv zeta.
    apply stays_ok_bind.
    - unfold when, iTermExec. destruct (_ =? 0); stays_ok_step.
    - intros [] w1 _ H1. destruct (_ =? 1); stays_ok_step. }
  intros [[[masterFd fs] tty] error] w1 _ H1.
  destruct (Z.ltb_spec masterFd 0); [apply SendLaunchResponse_stays_ok; exact H1|].
  apply stays_ok_bind; [apply AddChild_stays_ok; assumption|].
  intros [] w2 _ H2. apply SendLaunchResponse_stays_ok; exact H2.
Qed.

Lemma ReadAndHandleRequest_stays_ok env readFd writeFd w :
  daemon_ok w -> stays_ok (ReadAndHandleRequest env readFd writeFd w).
Proof.
  intros Hw. unfold ReadAndHandleRequest. apply stays_ok_bind.
  { unfold ReadRequest. repeat stays_ok_step. }
  intros [st | request] w1 _ H1; [stays_ok_step|].
  apply stays_ok_bind; [|intros; stays_ok_step].
  destruct request; [apply HandleHandshake_stays_ok | apply HandleLaunchRequest_stays_ok
                    | apply HandleWait_stays_ok | stays_ok_step | stays_ok_step]; exact H1.
Qed.

Lemma AcceptAndReject_stays_ok env socket w :
  daemon_ok w -> stays_ok (AcceptAndReject env socket w).
Proof.
  intros Hw. unfold AcceptAndReject.
  apply stays_ok_bind; [stays_ok_step|]. intros fd w1 _ H1.
  destruct (fd <? 0); [stays_ok_step|]. cbv zeta.
  destruct (iTermMultiServerProtocolEncodeMessageFromServer env _) as [rc obj].
  apply stays_ok_bind; [|intros; stays_ok_step].
  destruct (truthy rc); [stays_ok_step|].
  apply stays_ok_bind; [apply SendMessage_stays_ok; exact H1 | intros; stays_ok_step].
Qed.

Lemma SelectLoop_body_stays_ok env fuel acceptFd writeFd readFd u w :
  daemon_ok w -> stays_ok (SelectLoop_body env fuel acceptFd writeFd readFd u w).
Proof.
  intros Hw. unfold SelectLoop_body.
  apply stays_ok_bind; [stays_ok_step|]. intros results w1 _ H1.
  apply stays_ok_bind.
  { destruct (truthy (results 2%nat)); [|stays_ok_step].
    apply stays_ok_bind; [apply ReadAndHandleRequest_stays_ok; exact H1|]. intros e w2 _ H2.
    destruct (truthy e); [|stays_ok_step].
    apply stays_ok_bind; [|intros; stays_ok_step].
    destruct (truthy (results 0%nat)); [|stays_ok_step].
    apply stays_ok_bind; [apply WaitForAllProcesses_stays_ok; exact H2 | intros; stays_ok_step]. }
  intros leave w2 _ H2. destruct leave; [stays_ok_step|].
  apply stays_ok_bind.
  { destruct (truthy (results 0%nat)); [|stays_ok_step].
    apply stays_ok_bind; [apply WaitForAllProcesses_stays_ok; exact H2 | intros; stays_ok_step]. }
  intros leave w3 _ H3. destruct leave; [stays_ok_step|].
  apply stays_ok_bind; [|intros; stays_ok_step].
  unfold when. destruct (truthy (results 1%nat)); [apply AcceptAndReject_stays_ok; exact H3
                                                  | stays_ok_step].
Qed.

Lemma SelectLoop_stays_ok env fuel acceptFd writeFd readFd w :
  daemon_ok w -> stays_ok (SelectLoop env fuel acceptFd writeFd readFd w).
Proof.
  intros Hw. unfold SelectLoop. apply stays_ok_bind; [|intros; stays_ok_step].
  apply stays_ok_iter; [|exact Hw]. intros. apply SelectLoop_body_stays_ok. assumption.
Qed.

Lemma MakeBlocking_stays_ok env fuel fd w : daemon_ok w -> stays_ok (MakeBlocking env fuel fd w).
Proof. intros Hw. unfold MakeBlocking. repeat stays_ok_step. Qed.

Lemma MakeNonBlocking_stays_ok env fuel fd w :
  daemon_ok w -> stays_ok (MakeNonBlocking env fuel fd w).
Proof. intros Hw. unfold MakeNonBlocking. repeat stays_ok_step. Qed.

Lemma iTermMultiServerAccept_stays_ok env fuel socketFd w :
  daemon_ok w -> stays_ok (iTermMultiServerAccept env fuel socketFd w).
Proof.
  intros Hw. unfold iTermMultiServerAccept. apply stays_ok_iter; [|exact Hw].
  intros [] w0 H0.
  apply stays_ok_bind; [stays_ok_step|]. intros results w1 _ H1.
  apply stays_ok_bind.
  { destruct (truthy (results 1%nat)); [|stays_ok_step].
    apply stays_ok_bind; [apply WaitForAllProcesses_stays_ok; exact H1 | intros; stays_ok_step]. }
  intros [] w2 _ H2. repeat stays_ok_step.
Qed.

Lemma MakeAndSendPipe_stays_ok env fd w :
  pipe_gives_descriptors env -> daemon_ok w -> stays_ok (MakeAndSendPipe env fd w).
Proof.
  intros Hp Hw. unfold MakeAndSendPipe, ask at 1.
  apply stays_ok_bind; [exact Hw|]. intros p w1 Hpw H1.
  injection Hpw as <- <-.
  destruct (Z.eqb_spec (fst (pipe env (clock w))) 0) as [H0 | H0]; cbn [negb];
    [|stays_ok_step].
  cbv zeta. apply stays_ok_bind.
  { apply SendMessageAndFileDescriptor_stays_ok; [exact H1 | apply Hp; exact H0]. }
  intros rc w2 _ H2. repeat stays_ok_step.
Qed.

Lemma only_reaped_refl l : only_reaped l l.
Proof. apply Forall2_same_length_lookup_2; [reflexivity|]. intros i x y H1 H2.
  left. congruence. Qed.

Lemma only_reaped_trans l1 l2 l3 : only_reaped l1 l2 -> only_reaped l2 l3 -> only_reaped l1 l3.
Proof.
  unfold only_reaped. intros H12. revert l3. induction H12 as [|a b l1 l2 Hab _ IH];
    intros l3 H23; inversion H23 as [|b' c l2' l3' Hbc Ht]; subst; constructor; [|apply IH; exact Ht].
  destruct Hab as [-> | (Ha & st & ->)]; [exact Hbc|].
  destruct Hbc as [-> | (Hb & _)]; [right; eauto|]. discriminate.
Qed.

Lemma only_reaped_fields l l' :
  only_reaped l l' ->
  map pid l' = map pid l /\
  map willTerminate l' = map willTerminate l /\
  map masterFd l' = map masterFd l /\
  count_reportable l' 0 = count_reportable l 0.
Proof.
  intros H.
  assert (Hf : Forall2 (fun c c' => pid c' = pid c /\ willTerminate c' = willTerminate c /\
                                    masterFd c' = masterFd c) l l').
  { eapply Forall2_impl; [exact H|]. intros c c' [-> | (_ & st & ->)]; repeat split. }
  repeat split.
  - clear H. induction Hf as [|c c' l l' (Hp & _) _ IH]; simpl; [reflexivity | congruence].
  - clear H. induction Hf as [|c c' l l' (_ & Hp & _) _ IH]; simpl; [reflexivity | congruence].
  - clear H. induction Hf as [|c c' l l' (_ & _ & Hp) _ IH]; simpl; [reflexivity | congruence].
  - apply count_reportable_same_flags. eapply Forall2_impl; [exact Hf|]. intros ? ? (_ & ? & _).
    assumption.
Qed.

(** With nobody attached the reaper stores statuses and says nothing. *)
Lemma WaitForAllProcesses_detached env fuel fd w r w' :
  fd < 0 -> WaitForAllProcesses env fuel fd w = Done r w' ->
  trace w' = trace w /\ only_reaped (children w) (children w').
Proof.
  intros Hfd H. apply WaitForAllProcesses_run in H as (evs & Ht & Hr).
  pose proof (reaps_detached _ _ _ _ _ _ Hr Hfd) as ->. rewrite app_nil_r in Ht.
  split; [exact Ht|]. eapply reaps_records. exact Hr.
Qed.

Lemma WaitForAllProcesses_only_reaps env fuel fd w r w' :
  WaitForAllProcesses env fuel fd w = Done r w' -> only_reaped (children w) (children w').
Proof.
  intros H. apply WaitForAllProcesses_run in H as (evs & Ht & Hr). eapply reaps_records. exact Hr.
Qed.

Lemma iter_post {I R} (Rel : World -> World -> Prop) (Q : R -> Prop) fuel (body : I -> M (I + R)) :
  (forall a b c, Rel a b -> Rel b c -> Rel a c) ->
  (forall i w x w1, body i w = Done x w1 ->
     Rel w w1 /\ match x with inl _ => True | inr r => Q r end) ->
  forall i w r w', iter fuel body i w = Done r w' -> Rel w w' /\ Q r.
Proof.
  intros Htr Hbody. induction fuel as [|fuel IH]; intros i w r w'; simpl; [discriminate|].
  intros H. apply bind_inv in H as (x & w1 & Hx & H).
  apply Hbody in Hx as [Hq Hx]. destruct x as [i' | r'].
  - apply IH in H as [Hq' Hr]. split; [eapply Htr; eassumption | exact Hr].
  - unfold ret in H. injection H as <- <-. split; assumption.
Qed.

(** X10. While [iTermMultiServerAccept] waits for a client it sends nothing
    and closes nothing; all that happens to the registry is that children
    are reaped, so the reportable count is unchanged; and it never returns
    -1, the value [MainLoop] tests for after the call. *)
Theorem iTermMultiServerAccept_waits_silently env fuel socketFd w r w' :
  iTermMultiServerAccept env fuel socketFd w = Done r w' ->
  r <> -1 /\
  trace w' = trace w /\
  only_reaped (children w) (children w') /\
  count_reportable (children w') 0 = count_reportable (children w) 0.
Proof.
  intros H. unfold iTermMultiServerAccept in H.
  apply (iter_post (fun a b => trace b = trace a /\ only_reaped (children a) (children b))
                   (fun r => r <> -1)) in H.
  - destruct H as [[Ht Hr] Hq]. repeat split; try assumption.
    apply only_reaped_fields in Hr. tauto.
  - intros a b c [H1 H2] [H3 H4]. split; [congruence | eapply only_reaped_trans; eassumption].
  - clear. intros [] w x w3 H.
    apply bind_inv in H as (results & w1 & Ha & H). apply ask_quiet in Ha as [(Hc1 & Ht1 & _) _].
    apply bind_inv in H as ([] & w2 & Hw & H).
    assert (Hrel : trace w2 = trace w /\ only_reaped (children w) (children w2)).
    { destruct (truthy (results 1%nat)).
      - apply bind_inv in Hw as (e & w2' & Hw & Hret). injection Hret as <-.
        apply WaitForAllProcesses_detached in Hw as [Ht Hr]; [|lia].
        rewrite Ht, Ht1, <- Hc1. split; [reflexivity | exact Hr].
      - injection Hw as <-. rewrite Ht1, Hc1. split; [reflexivity | apply only_reaped_refl]. }
    destruct (truthy (results 0%nat)).
    + apply bind_inv in H as (cfd & w2' & Ha & H). apply ask_quiet in Ha as [(Hc2 & Ht2 & _) _].
      destruct (Z.eqb_spec cfd (-1)) as [E | E]; simpl in H; injection H as <- <-.
      * split; [|exact I]. rewrite Ht2, Hc2. exact Hrel.
      * split; [|exact E]. rewrite Ht2, Hc2. exact Hrel.
    + injection H as <- <-. split; [exact Hrel | exact I].
Qed.



Lemma others_insert p l i c c' :
  l !! i = Some c -> pid c = p -> pid c' = p -> others p (<[i := c']> l) = others p l.
Proof.
  unfold others. revert i. induction l as [|x l IH]; intros [|i] Hl Hc Hc'; try discriminate.
  - injection Hl as ->. simpl. rewrite Hc, Hc', Z.eqb_refl. reflexivity.
  - simpl. rewrite (IH i Hl Hc Hc'). reflexivity.
Qed.

Lemma others_delete p l i c :
  l !! i = Some c -> pid c = p -> others p (delete i l) = others p l.
Proof.
  unfold others. revert i. induction l as [|x l IH]; intros [|i] Hl Hc; try discriminate.
  - injection Hl as ->. simpl. rewrite Hc, Z.eqb_refl. reflexivity.
  - simpl. rewrite (IH i Hl Hc). reflexivity.
Qed.

(** X12. [HandleWait] always returns, and the records of other pids than
    the one asked for are what they were, in the same order; the registry
    loses at most one record. *)
Theorem HandleWait_touches_only_requested_pid env fd wait w :
  exists r w',
    HandleWait env fd wait w = Done r w' /\
    others (wait_pid wait) (children w') = others (wait_pid wait) (children w) /\
    (length (children w') <= length (children w) <= S (length (children w')))%nat.
Proof.
  destruct (HandleWait_run env fd wait w) as (r & w' & Hrun & Hcase).
  exists r, w'. split; [exact Hrun|]. cbv zeta in Hcase.
  destruct Hcase as [(_ & H) | [(i & c & _ & _ & _ & H) | [(i & c & Hm & _ & _ & H)
                    | (i & c & Hm & _ & H)]]];
    destruct H as (_ & _ & _ & Hch); rewrite Hch.
  - destruct (r =? 0); split; auto.
  - destruct (r =? 0); split; auto.
  - destruct Hm as (Hl & Hp & _).
    assert (E : others (wait_pid wait)
                  (<[i := set_masterFd (-1) (set_willTerminate 1 c)]> (children w)) =
                others (wait_pid wait) (children w)).
    { apply (others_insert _ _ _ c); [exact Hl | exact Hp | destruct c; exact Hp]. }
    destruct (r =? 0); (split; [exact E | rewrite length_insert; lia]).
  - destruct Hm as (Hl & Hp & _). destruct (r =? 0); [|split; auto].
    split; [apply (others_delete _ _ _ c); assumption|].
    pose proof (length_delete (children w) i (mk_is_Some _ _ Hl)).
    apply lookup_lt_Some in Hl. lia.
Qed.

Lemma first_match_insert l p i c c' :
  first_match l p i c -> pid c' = p -> first_match (<[i := c']> l) p i c'.
Proof.
  intros (Hl & Hp & Hb) Hc'. repeat split.
  - apply list_lookup_insert_eq. eapply lookup_lt_Some. exact Hl.
  - exact Hc'.
  - intros j d Hj Hd. rewrite list_lookup_insert_ne in Hd by lia. eapply Hb; eassumption.
Qed.

Lemma wait_reply_closes_of env fd w m fds kept removed r w' :
  wait_reply env fd w m (map EvClose fds) kept removed r w' ->
  closes_of (trace w') = closes_of (trace w) ++ fds.
Proof.
  intros (_ & _ & Ht & _). rewrite Ht, !closes_of_app. clear Ht.
  assert (E : closes_of (map EvClose fds) = fds).
  { induction fds as [|x fds IH]; simpl; [reflexivity | rewrite IH; reflexivity]. }
  rewrite E. destruct (_ =? 0); simpl; rewrite app_nil_r; reflexivity.
Qed.

(** What a preemptive Wait does to a running record it finds. *)
Lemma HandleWait_preemptive env fd wait w i c r w' :
  first_match (children w) (wait_pid wait) i c ->
  terminated c = 0 -> removePreemptively wait <> 0 ->
  HandleWait env fd wait w = Done r w' ->
  children w' = <[i := set_masterFd (-1) (set_willTerminate 1 c)]> (children w) /\
  closes_of (trace w') = closes_of (trace w) ++ [masterFd c].
Proof.
  intros Hm Ht Hp Hrun.
  destruct (HandleWait_run env fd wait w) as (r0 & w0 & Hrun0 & Hcase).
  rewrite Hrun in Hrun0. injection Hrun0 as <- <-. cbv zeta in Hcase.
  destruct Hcase as [(Hn & _) | [(j & d & Hm' & _ & Hnp & _) | [(j & d & Hm' & _ & _ & H)
                    | (j & d & Hm' & Htd & _)]]].
  - exfalso. eapply first_match_not_no_match; eassumption.
  - contradiction.
  - destruct (first_match_unique _ _ _ _ _ _ Hm Hm') as [<- <-]. split.
    + destruct H as (_ & _ & _ & Hch). rewrite Hch. destruct (r =? 0); reflexivity.
    + apply (wait_reply_closes_of env fd w _ [masterFd c] _ _ _ _ H).
  - destruct (first_match_unique _ _ _ _ _ _ Hm Hm') as [<- <-]. contradiction.
Qed.

(** X13. A preemptive Wait for a running child, asked twice: the first
    closes the master descriptor and disowns the record; the second finds
    the same record, closes -1 instead of the descriptor, and leaves the
    registry as the first left it. *)
Theorem repeated_preemptive_Wait_closes_descriptor_once
    env fd fd' wait w i c r1 w1 r2 w2 :
  first_match (children w) (wait_pid wait) i c ->
  terminated c = 0 -> removePreemptively wait <> 0 ->
  HandleWait env fd wait w = Done r1 w1 ->
  HandleWait env fd' wait w1 = Done r2 w2 ->
  closes_of (trace w2) = closes_of (trace w) ++ [masterFd c; -1] /\
  children w2 = children w1 /\
  children w1 = <[i := set_masterFd (-1) (set_willTerminate 1 c)]> (children w).
Proof.
  intros Hm Ht Hp H1 H2.
  destruct (HandleWait_preemptive _ _ _ _ _ _ _ _ Hm Ht Hp H1) as [Hc1 Ht1].
  set (c1 := set_masterFd (-1) (set_willTerminate 1 c)) in *.
  assert (Hm1 : first_match (children w1) (wait_pid wait) i c1).
  { rewrite Hc1. apply (first_match_insert _ _ _ c); [exact Hm|]. destruct Hm as (_ & Hpid & _).
    destruct c; exact Hpid. }
  assert (Ht' : terminated c1 = 0) by (destruct c; exact Ht).
  destruct (HandleWait_preemptive _ _ _ _ _ _ _ _ Hm1 Ht' Hp H2) as [Hc2 Ht2].
  repeat split.
  - rewrite Ht2, Ht1, <- app_assoc. destruct c; reflexivity.
  - rewrite Hc2, Hc1, list_insert_insert_eq. destruct c; reflexivity.
  - exact Hc1.
Qed.

Lemma ReportChild_returns env fd c isLast w :
  (forall n, fst (sendmsg env n) < 0 -> snd (sendmsg env n) <> EAGAIN env) ->
  exists e w', ReportChild env fd c isLast w = Done e w'.
Proof.
  intros Hno. unfold ReportChild.
  destruct (iTermMultiServerProtocolEncodeMessageFromServer env _) as [rc obj].
  destruct (truthy rc); [eexists _, _; reflexivity|].
  unfold iTermFileDescriptorServerSendMessageAndFileDescriptor, ask, emit, modify.
  cbv [bind ret]. simpl.
  destruct (Z.ltb_spec (fst (sendmsg env (clock w))) 0) as [Hb | Hb].
  - unfold assert. destruct (Z.eqb_spec (snd (sendmsg env (clock w))) (EAGAIN env)) as [E | E].
    + exfalso. exact (Hno _ Hb E).
    + eexists _, _; reflexivity.
  - eexists _, _; reflexivity.
Qed.

Lemma ReportChildren_from_returns env fd n k numberSent w :
  (forall n, fst (sendmsg env n) < 0 -> snd (sendmsg env n) <> EAGAIN env) ->
  (k <= length (children w))%nat ->
  exists r w', ReportChildren_from env fd n k numberSent w = Done r w' /\ (r = 0 \/ r = -1).
Proof.
  intros Hno. revert numberSent w. induction k as [|i IH]; intros numberSent w Hk; simpl.
  - eexists _, _. split; [reflexivity | auto].
  - unfold bind at 1, child_at.
    destruct (lookup_lt_is_Some_2 (children w) i ltac:(lia)) as [c ->].
    destruct (truthy (willTerminate c)); [apply IH; lia|].
    destruct (ReportChild_returns env fd c (of_bool (numberSent + 1 =? n)) w Hno)
      as (e & w1 & He).
    unfold bind. rewrite He. destruct (truthy e).
    + eexists _, _. split; [reflexivity | auto].
    + apply ReportChild_inv in He as [Hch _]. apply IH. rewrite Hch. lia.
Qed.

(** X14. [ReportChild] asserts [theError != EAGAIN] after a failed send, and
    that is the only way a handshake can stop the daemon: when no failed
    sendmsg reports EAGAIN, [HandleHandshake] returns 0 or -1, leaves the
    registry as it is and closes nothing. *)
Theorem HandleHandshake_returns_unless_EAGAIN env fd handshake w :
  (forall n, fst (sendmsg env n) < 0 -> snd (sendmsg env n) <> EAGAIN env) ->
  exists r w',
    HandleHandshake env fd handshake w = Done r w' /\
    (r = 0 \/ r = -1) /\
    children w' = children w /\
    closes_of (trace w') = closes_of (trace w).
Proof.
  intros Hno. unfold HandleHandshake.
  destruct (_ <? _); [eexists _, _; repeat split; auto|].
  unfold GetNumberOfReportableChildren at 1. cbv [bind get ret].
  destruct (iTermMultiServerProtocolEncodeMessageFromServer env _) as [rc obj].
  destruct (truthy rc); [eexists _, _; repeat split; auto|].
  unfold iTermFileDescriptorServerSendMessage, ask, emit, modify. cbv [bind ret]. simpl.
  destruct (_ <? 0).
  { eexists _, _. split; [reflexivity|]. simpl. rewrite closes_of_app. simpl.
    rewrite app_nil_r. auto. }
  unfold ReportChildren, GetNumberOfReportableChildren. cbv [bind get ret]. simpl.
  match goal with
  | |- context [ReportChildren_from env fd ?n ?k ?s ?v] =>
      destruct (ReportChildren_from_returns env fd n k s v Hno ltac:(simpl; lia))
        as (r & w' & Hrun & Hr);
      rewrite Hrun; exists r, w'; split; [reflexivity|]; split; [exact Hr|];
      apply ReportChildren_from_inv in Hrun as (Hch & xs & Ht & _)
  end.
  split; [exact Hch|]. rewrite Ht. simpl. rewrite !closes_of_app. simpl.
  assert (E : closes_of (map (report_event env fd) xs) = []).
  { clear. induction xs as [|x xs IH]; simpl; [reflexivity | exact IH]. }
  rewrite E, !app_nil_r. reflexivity.
Qed.

(** The [do ... while (rc == -1 && errno == EINTR)] of MakeBlocking and
    MakeNonBlocking: the same word is written on every turn, at least once,
    and the loop ends with the first answer that is not an interrupt. *)
Lemma set_flags_loop env fuel fd word w rc w' :
  iter fuel (fun _ : unit =>
    emit (EvSetFlags fd word) ;;;
    let* r := ask env fcntl_setfl in
    if (fst r =? -1) && (snd r =? EINTR env) then ret (inl tt)
    else ret (inr (fst r))) tt w = Done rc w' ->
  children w' = children w /\ (gPipe w' = gPipe w /\ gPath w' = gPath w) /\
  exists n, (0 < n)%nat /\ trace w' = trace w ++ repeat (EvSetFlags fd word) n /\
    clock w' = (clock w + n)%nat /\
    rc = fst (fcntl_setfl env (clock w + n - 1)%nat) /\
    forall k, (k < n - 1)%nat ->
      fcntl_setfl env (clock w + k)%nat = (-1, EINTR env).
Proof.
  revert w. induction fuel as [|fuel IH]; intros w H; simpl in H; [discriminate|].
  unfold emit, modify, ask in H. cbv [bind ret] in H. simpl in H.
  destruct (Z.eqb_spec (fst (fcntl_setfl env (clock w))) (-1)) as [E1 | E1];
    [destruct (Z.eqb_spec (snd (fcntl_setfl env (clock w))) (EINTR env)) as [E2 | E2]|];
    simpl in H.
  - apply IH in H as (Hc & Hg & n & Hn & Ht & Hk & Hr & Hint). simpl in *.
    split; [exact Hc|]. split; [exact Hg|]. exists (S n). split; [lia|].
    split; [rewrite Ht, <- app_assoc; reflexivity|].
    split; [lia|]. split; [rewrite Hr; f_equal; f_equal; lia|].
    intros k Hlt. destruct k as [|k].
    + rewrite Nat.add_0_r. destruct (fcntl_setfl env (clock w)); simpl in *; congruence.
    + replace (clock w + S k)%nat with (S (clock w) + k)%nat by lia. apply Hint. lia.
  - injection H as <- <-. simpl. split; [reflexivity|]. split; [split; reflexivity|].
    exists 1%nat. simpl. repeat split; try lia. rewrite Nat.add_sub. reflexivity.
  - injection H as <- <-. simpl. split; [reflexivity|]. split; [split; reflexivity|].
    exists 1%nat. simpl. repeat split; try lia. rewrite Nat.add_sub. reflexivity.
Qed.

(** X15. [MakeBlocking] and [MakeNonBlocking] return 0 or 1 and leave the
    registry alone.  Each writes one flag word, at least once and the same
    on every retry after EINTR; the word agrees with the flags read before
    in every bit outside O_NONBLOCK, has no bit of O_NONBLOCK after
    [MakeBlocking] and every bit of it after [MakeNonBlocking]. *)
Theorem MakeBlocking_MakeNonBlocking_touch_one_flag env fuel fd w r w' :
  let flags := fcntl_getfl env (clock w) in
  let touched (word : Z) :=
    (r = 0 \/ r = 1) /\ children w' = children w /\
    (exists n, (0 < n)%nat /\ trace w' = trace w ++ repeat (EvSetFlags fd word) n) /\
    forall i, 0 <= i -> Z.testbit (O_NONBLOCK env) i = false ->
      Z.testbit word i = Z.testbit flags i in
  (MakeBlocking env fuel fd w = Done r w' ->
   exists word, touched word /\ Z.land word (O_NONBLOCK env) = 0) /\
  (MakeNonBlocking env fuel fd w = Done r w' ->
   exists word, touched word /\ Z.land word (O_NONBLOCK env) = O_NONBLOCK env).
Proof.
  intros flags touched. split; intros H.
  - unfold MakeBlocking in H. apply bind_inv in H as (fl & w1 & Ha & H).
    unfold ask in Ha. injection Ha as <- <-. fold flags in H.
    apply bind_inv in H as (rc & w2 & Hloop & H). injection H as <- <-.
    apply set_flags_loop in Hloop as (Hc & _ & n & Hn & Ht & _).
    exists (Z.land flags (Z.lnot (O_NONBLOCK env))). split; [split; [|split; [|split]]|].
    + destruct (rc =? -1); auto.
    + exact Hc.
    + exists n. split; [exact Hn | exact Ht].
    + intros i Hi Hbit. rewrite Z.land_spec, Z.lnot_spec, Hbit by exact Hi. apply andb_true_r.
    + apply Z.bits_inj'. intros i Hi.
      rewrite !Z.land_spec, Z.lnot_spec, Z.bits_0 by exact Hi.
      destruct (Z.testbit (O_NONBLOCK env) i), (Z.testbit flags i); reflexivity.
  - unfold MakeNonBlocking in H. apply bind_inv in H as (fl & w1 & Ha & H).
    unfold ask in Ha. injection Ha as <- <-. fold flags in H.
    apply bind_inv in H as (rc & w2 & Hloop & H). injection H as <- <-.
    apply set_flags_loop in Hloop as (Hc & _ & n & Hn & Ht & _).
    exists (Z.lor flags (O_NONBLOCK env)). split; [split; [|split; [|split]]|].
    + destruct (rc =? -1); auto.
    + exact Hc.
    + exists n. split; [exact Hn | exact Ht].
    + intros i Hi Hbit. rewrite Z.lor_spec, Hbit. apply orb_false_r.
    + apply Z.bits_inj'. intros i Hi. rewrite Z.land_spec, Z.lor_spec.
      destruct (Z.testbit (O_NONBLOCK env) i), (Z.testbit flags i); reflexivity.
Qed.

Lemma sends_closes_of_repeat fd word n :
  sends_of (repeat (EvSetFlags fd word) n) = [] /\ closes_of (repeat (EvSetFlags fd word) n) = [].
Proof. induction n as [|n [IH1 IH2]]; simpl; auto. Qed.

(** Setting the mode of a descriptor sends and closes nothing and leaves
    the globals alone. *)
Lemma set_mode_run env fuel fd w r w' :
  MakeBlocking env fuel fd w = Done r w' \/ MakeNonBlocking env fuel fd w = Done r w' ->
  (r = 0 \/ r = 1) /\ children w' = children w /\
  gPipe w' = gPipe w /\ gPath w' = gPath w /\
  sends_of (trace w') = sends_of (trace w) /\ closes_of (trace w') = closes_of (trace w).
Proof.
  intros [H | H]; [unfold MakeBlocking in H | unfold MakeNonBlocking in H];
    apply bind_inv in H as (fl & w1 & Ha & H); unfold ask in Ha; injection Ha as <- <-;
    apply bind_inv in H as (rc & w2 & Hloop & H); injection H as <- <-;
    apply set_flags_loop in Hloop as (Hc & (Hg & Hp) & n & _ & Ht & _);
    (split; [destruct (rc =? -1); auto|]);
    rewrite Hc, Hg, Hp, Ht, sends_of_app, closes_of_app;
    match goal with
    | |- context [repeat (EvSetFlags fd ?word) n] =>
        destruct (sends_closes_of_repeat fd word n) as [-> ->]
    end;
    rewrite !app_nil_r; simpl; auto.
Qed.

(** X16. [Initialize] returns 0 or 1 (the 2 of [MakePipe] is folded into
    1), sends nothing, closes nothing and leaves the registry alone.  When
    it returns 0, [gPath] holds the socket path and [gPipe] the two ends of
    a pipe that pipe() reported as made. *)
Theorem Initialize_prepares_or_fails env fuel path w r w' :
  Initialize env fuel path w = Done r w' ->
  (r = 0 \/ r = 1) /\
  children w' = children w /\
  sends_of (trace w') = sends_of (trace w) /\
  closes_of (trace w') = closes_of (trace w) /\
  (r = 0 ->
   gPath w' = Some path /\
   exists n, 0 <= fst (pipe env n) /\ gPipe w' = snd (pipe env n)).
Proof.
  intros H. unfold Initialize in H.
  apply bind_inv in H as (e1 & w1 & H1 & H).
  assert (K1 : children w1 = children w /\ sends_of (trace w1) = sends_of (trace w) /\
               closes_of (trace w1) = closes_of (trace w)).
  { unfold MakeStandardFileDescriptorsNonBlocking in H1.
    apply bind_inv in H1 as (a & v1 & Ha & H1).
    apply (fun h => set_mode_run _ _ _ _ _ _ (or_intror h)) in Ha as (_ & Ca & _ & _ & Sa & La).
    destruct (truthy a); [injection H1 as _ <-; auto|].
    apply bind_inv in H1 as (b & v2 & Hb & H1).
    apply (fun h => set_mode_run _ _ _ _ _ _ (or_introl h)) in Hb as (_ & Cb & _ & _ & Sb & Lb).
    destruct (truthy b); [injection H1 as _ <-; repeat split; congruence|].
    apply bind_inv in H1 as (c & v3 & Hc & H1).
    apply (fun h => set_mode_run _ _ _ _ _ _ (or_introl h)) in Hc as (_ & Cc & _ & _ & Sc & Lc).
    destruct (truthy c); [injection H1 as _ <-; repeat split; congruence|].
    apply bind_inv in H1 as (d & v4 & Hd & H1).
    apply (fun h => set_mode_run _ _ _ _ _ _ (or_introl h)) in Hd as (_ & Cd & _ & _ & Sd & Ld).
    destruct (truthy d); injection H1 as _ <-; repeat split; congruence. }
  destruct K1 as (C1 & S1 & L1).
  destruct (truthy e1); [injection H as <- <-; repeat split; auto; discriminate|].
  apply bind_inv in H as ([] & w2 & Hm & H). injection Hm as <-.
  apply bind_inv in H as (e2 & w3 & H2 & H).
  assert (K2 : children w3 = children w /\ sends_of (trace w3) = sends_of (trace w) /\
               closes_of (trace w3) = closes_of (trace w) /\ gPath w3 = Some path /\
               (e2 = 0 -> exists n, 0 <= fst (pipe env n) /\ gPipe w3 = snd (pipe env n))).
  { unfold MakePipe in H2. apply bind_inv in H2 as (p & v1 & Ha & H2).
    unfold ask in Ha. injection Ha as <- <-.
    apply bind_inv in H2 as ([] & v2 & Hw & H2). unfold when in Hw.
    destruct (Z.ltb_spec (fst (pipe env (clock w1))) 0) as [Hneg | Hpos]; cbn [negb] in Hw;
      injection Hw as <-.
    { injection H2 as <- <-. simpl. repeat split; auto. discriminate. }
    apply bind_inv in H2 as (g & v3 & Hg & H2). injection Hg as <- <-. simpl in H2.
    apply bind_inv in H2 as (a & v4 & Ha & H2).
    apply (fun h => set_mode_run _ _ _ _ _ _ (or_intror h)) in Ha
      as (_ & Ca & Ga & Pa & Sa & La). simpl in *.
    destruct (truthy a); [injection H2 as <- <-; repeat split; try congruence; discriminate|].
    apply bind_inv in H2 as (b & v5 & Hb & H2).
    apply (fun h => set_mode_run _ _ _ _ _ _ (or_intror h)) in Hb
      as (_ & Cb & Gb & Pb & Sb & Lb).
    destruct (truthy b); injection H2 as <- <-; repeat split; try congruence; try discriminate.
    intros _. exists (clock w1). split; [lia | congruence]. }
  destruct K2 as (C2 & S2 & L2 & P2 & G2).
  unfold truthy in H. destruct (Z.eqb_spec e2 0) as [E2 | E2]; cbn [negb] in H;
    [|injection H as <- <-; repeat split; auto; discriminate].
  apply bind_inv in H as (e3 & w4 & H3 & H).
  assert (K3 : quiet w3 w4 /\ gPath w4 = gPath w3).
  { unfold InitializeSignals in H3. unfold ask in H3. cbv [bind ret] in H3.
    repeat match type of H3 with
           | (if ?b then _ else _) = _ => destruct b
           | (if ?b then _ else _) _ = _ => destruct b
           end; injection H3 as _ <-; repeat split. }
  destruct K3 as ((C3 & T3 & G3) & P3).
  destruct (negb (e3 =? 0)); injection H as <- <-;
    (split; [auto|]); rewrite C3, T3; repeat split; auto; try discriminate.
  - congruence.
  - destruct (G2 E2) as (n & Hn & Hg). exists n. split; [exact Hn | congruence].
Qed.

(** X17. [MakeAndSendPipe] always returns and leaves the registry alone.
    When pipe() fails it returns -1 and does nothing else.  Otherwise it
    sends one empty message with the write end attached and closes the write
    end; when that message could not be sent it also closes the read end,
    before the write end, and returns -1; when it was sent it returns the
    read end, still open. *)
Theorem MakeAndSendPipe_keeps_only_the_read_end env fd w :
  let p := pipe env (clock w) in
  let readPipe := fst (snd p) in
  let writePipe := snd (snd p) in
  let sent := fst (sendmsg env (S (clock w))) in
  exists r w',
    MakeAndSendPipe env fd w = Done r w' /\
    children w' = children w /\
    (fst p <> 0 -> r = -1 /\ trace w' = trace w) /\
    (fst p = 0 ->
     sends_of (trace w') = sends_of (trace w) ++ [(fd, [], Some writePipe)] /\
     (sent = -1 -> r = -1 /\
        closes_of (trace w') = closes_of (trace w) ++ [readPipe; writePipe]) /\
     (sent <> -1 -> r = readPipe /\
        closes_of (trace w') = closes_of (trace w) ++ [writePipe])).
Proof.
  intros p readPipe writePipe sent. unfold MakeAndSendPipe.
  unfold iTermFileDescriptorServerSendMessageAndFileDescriptor, close, emit, modify, ask.
  cbv [bind ret]. simpl. fold p.
  destruct (Z.eqb_spec (fst p) 0) as [E | E]; cbn [negb].
  - unfold sent. simpl. destruct (Z.eqb_spec (fst (sendmsg env (S (clock w)))) (-1)) as [Es | Es]; simpl;
      eexists _, _; (split; [reflexivity|]); simpl;
      (split; [reflexivity|]); (split; [intros; contradiction|]); intros _;
      rewrite !sends_of_app, !closes_of_app; simpl; rewrite ?app_nil_r;
      (split; [reflexivity|]); split; intros Hs; try contradiction;
      rewrite <- ?app_assoc; auto.
  - eexists _, _. split; [reflexivity|]. simpl. repeat split; try contradiction; auto.
Qed.

Lemma MainLoop_stays_ok env fuel path acceptFd writeFd readFd w :
  pipe_gives_descriptors env -> daemon_ok w ->
  stays_ok (MainLoop env fuel path acceptFd writeFd readFd w).
Proof.
  intros Hp Hw. unfold MainLoop.
  do 4 (apply stays_ok_bind; [stays_ok_step | intros [] ? _ ?]).
  cbv zeta.
  apply stays_ok_bind; [apply MakeBlocking_stays_ok; assumption | intros ? ? _ ?].
  apply stays_ok_bind; [apply MakeBlocking_stays_ok; assumption | intros ? ? _ ?].
  apply stays_ok_iter; [|assumption]. intros fds v0 K0. unfold MainLoop_body. cbv zeta.
  apply stays_ok_bind.
  { unfold when. destruct (_ && _); [apply SelectLoop_stays_ok; exact K0 | stays_ok_step]. }
  intros [] v1 _ K1.
  apply stays_ok_bind; [unfold GetNumberOfReportableChildren; repeat stays_ok_step|].
  intros n v2 _ K2. destruct (n =? 0); [stays_ok_step|].
  apply stays_ok_bind; [apply iTermMultiServerAccept_stays_ok; exact K2|]. intros wfd v3 _ K3.
  destruct (wfd =? -1); [stays_ok_step|].
  apply stays_ok_bind; [apply MakeAndSendPipe_stays_ok; assumption|]. intros rfd v4 _ K4.
  apply stays_ok_bind; [apply MakeBlocking_stays_ok; assumption | intros ? v5 _ K5].
  apply stays_ok_bind; [apply MakeBlocking_stays_ok; assumption | intros ? v6 _ K6].
  destruct (_ && _); stays_ok_step.
Qed.

Lemma stays_ok_modify (f : World -> World) w :
  daemon_ok w -> (forall v, children (f v) = children v /\ trace (f v) = trace v) ->
  stays_ok (modify f w).
Proof.
  intros [Hr Ht] Hf. destruct (Hf w) as [Ec Et]. split; [rewrite Ec | rewrite Et];
    assumption.
Qed.

Lemma Initialize_stays_ok env fuel path w :
  daemon_ok w -> stays_ok (Initialize env fuel path w).
Proof.
  intros Hw.
  unfold Initialize, MakeStandardFileDescriptorsNonBlocking, MakePipe, InitializeSignals, when.
  repeat first
    [ apply MakeBlocking_stays_ok; assumption
    | apply MakeNonBlocking_stays_ok; assumption
    | apply stays_ok_modify; [assumption | intros []; split; reflexivity]
    | stays_ok_step ].
Qed.

(** X9. From [main] on, every record of the registry either is reportable
    and holds a non-negative master descriptor, or is disowned and holds -1;
    and every descriptor attached to a message is non-negative, provided
    the descriptors pipe() hands out are.  Both hold where the run returns.
    Where it halts, in the forked child or on a failed assertion, the
    attached descriptors are non-negative too, and the registry is in order
    except after a failed assertion of [AddChild], which leaves one more
    slot at its end that has not been filled in. *)
Theorem main_attaches_only_descriptors env fuel argc argv w :
  pipe_gives_descriptors env ->
  daemon_ok w ->
  match main env fuel argc argv w with
  | Done _ w' => registry_ok (children w') /\ Forall attachment_ok (trace w')
  | Halt h w' =>
      Forall attachment_ok (trace w') /\
      (registry_ok (children w') \/
       (h = AssertionFailed /\
        exists l slot, children w' = l ++ [slot] /\ registry_ok l))
  | OutOfFuel => True
  end.
Proof.
  intros Hp Hw. change (stays_ok (main env fuel argc argv w)).
  unfold main. apply stays_ok_bind; [stays_ok_step|]. intros [] w1 _ H1.
  destruct (argv !! 1%nat) as [path|]; [|stays_ok_step].
  apply stays_ok_bind.
  { apply stays_ok_modify; [assumption | intros []; split; reflexivity]. }
  intros [] w2 _ H2.
  apply stays_ok_bind; [|intros; stays_ok_step].
  unfold iTermFileDescriptorMultiServerRun.
  apply stays_ok_bind; [stays_ok_step|]. intros ? w3 _ H3.
  apply stays_ok_bind; [apply Initialize_stays_ok; exact H3|]. intros rc w4 _ H4.
  apply stays_ok_bind; [|intros; repeat stays_ok_step].
  destruct (truthy rc); [stays_ok_step | apply MainLoop_stays_ok; assumption].
Qed.


Lemma AddChild_then_lookup_witness :
  let w := registry [another 501; another 502] in
  let fs := {| fork_pid := 501; connectionFd := -1; deadMansPipe := (0, 0);
               numFileDescriptorsToPreserve := 3 |} in
  launch_round_trips env_ok sample_launch /\
  (exists w',
     AddChild env_ok sample_launch 7 "/dev/ttys001" fs w = Done tt w' /\
     children w' = [another 501; another 502; running] /\
     GetChildIndexByPID 501 w' = Done 0 w' /\
     GetChildIndexByPID 502 w' = Done 1 w') /\
  AddChild (cannot_copy env_ok) sample_launch 7 "/dev/ttys001" fs w =
    Halt AssertionFailed (with_children [another 501; another 502; stale_slot] w).
Proof.
  intros w fs.
  assert (Hrt : launch_round_trips env_ok sample_launch) by (split; reflexivity).
  split; [exact Hrt|]. split.
  - destruct (proj1 (AddChild_then_lookup env_ok sample_launch 7 "/dev/ttys001" fs w) Hrt)
      as (w' & Hrun & Hch & _ & Hold & _).
    exists w'. split; [exact Hrun|]. split; [exact Hch|]. split.
    + apply (Hold 501 0%nat (another 501)). repeat split. intros j c' Hj. lia.
    + apply (Hold 502 1%nat (another 502)). repeat split.
      intros [|j] c' Hj Hc'; [injection Hc' as <-; vm_compute; discriminate | lia].
  - destruct (proj2 (AddChild_then_lookup (cannot_copy env_ok) sample_launch 7
                       "/dev/ttys001" fs w) ltac:(vm_compute; discriminate))
      as (slot & Hrun & _ & Hslot).
    rewrite Hrun, (Hslot ltac:(discriminate)). reflexivity.
Defined.

Lemma RemoveChild_deletes_one_entry_witness :
  let w := registry [running; another 502] in
  (exists w', RemoveChild 0 w = Done tt w' /\ children w' !! 0%nat = Some (another 502)) /\
  RemoveChild 2 w = Halt AssertionFailed w.
Proof.
  intros w. split.
  - destruct (proj1 (RemoveChild_deletes_one_entry w 0) ltac:(simpl; lia))
      as (w' & Hrun & _ & _ & _ & Hshift).
    exists w'. split; [exact Hrun|]. rewrite (Hshift 0%nat ltac:(simpl; lia)). reflexivity.
  - apply (proj2 (RemoveChild_deletes_one_entry w 2)). simpl. lia.
Defined.

Lemma reaper_keeps_reportable_count_witness :
  let w := registry [running; disowned; exited] in
  exists r w',
    WaitForAllProcesses env_exits 1 1 w = Done r w' /\
    count_reportable (children w') 0 = 2 /\
    map pid (children w') = [501; 501; 501] /\
    closes_of (trace w') = [].
Proof.
  intros w.
  assert (Hrun : WaitForAllProcesses env_exits 1 1 w = Done _ _) by (vm_compute; reflexivity).
  eexists _, _. split; [exact Hrun|].
  destruct (reaper_keeps_reportable_count env_exits 1 1 w _ _ Hrun)
    as (Hn & Hp & _ & _ & Hc & _).
  split; [rewrite Hn; reflexivity|]. split; [rewrite Hp; reflexivity|].
  rewrite Hc. reflexivity.
Defined.

Lemma reaper_idle_when_all_terminated_witness :
  let w := registry [exited; disowned_exited] in
  exists r w',
    WaitForAllProcesses env_exits 1 1 w = Done r w' /\
    r = 0 /\ children w' = [exited; disowned_exited] /\ trace w' = [].
Proof.
  intros w.
  assert (Hrun : WaitForAllProcesses env_exits 1 1 w = Done _ _) by (vm_compute; reflexivity).
  eexists _, _. split; [exact Hrun|].
  apply (reaper_idle_when_all_terminated env_exits 1 1 w _ _);
    [repeat constructor; vm_compute; discriminate | exact Hrun].
Defined.

Lemma HandleLaunchRequest_adds_at_most_one_witness :
  exists r w',
    HandleLaunchRequest env_ok 1 sample_launch boot = Done r w' /\
    exists c, children w' = [c] /\ pid c = 501 /\ masterFd c = 7.
Proof.
  assert (Hrun : HandleLaunchRequest env_ok 1 sample_launch boot = Done _ _)
    by (vm_compute; reflexivity).
  eexists _, _. split; [exact Hrun|].
  destruct (HandleLaunchRequest_adds_at_most_one env_ok 1 sample_launch boot _ _ Hrun)
    as (_ & _ & [[_ [H | H]] | (c & Hc & _ & _ & Hp & Hf & _)]).
  - vm_compute in H. discriminate.
  - vm_compute in H. discriminate.
  - exists c. split; [exact Hc|]. split; [exact Hp | exact Hf].
Defined.

Lemma main_accesses_stay_in_bounds_witness :
  Z.of_nat (length sample_argv) = 2 /\
  in_bounds (main env_session 3 2 sample_argv boot).
Proof.
  split; [reflexivity|].
  apply (main_accesses_stay_in_bounds env_session 3 2 sample_argv boot). reflexivity.
Defined.

Lemma main_attaches_only_descriptors_witness :
  pipe_gives_descriptors env_session /\ daemon_ok boot /\
  (exists r w',
     main env_session 3 2 sample_argv boot = Done r w' /\
     sends_of (trace w') <> [] /\
     registry_ok (children w') /\ Forall attachment_ok (trace w')) /\
  (exists w',
     main (cannot_copy env_session) 3 2 sample_argv boot = Halt AssertionFailed w' /\
     length (children w') = 1%nat /\
     Forall attachment_ok (trace w')).
Proof.
  assert (Hp : pipe_gives_descriptors env_session) by (intros n _; vm_compute; discriminate).
  assert (Hp' : pipe_gives_descriptors (cannot_copy env_session))
    by (intros n _; vm_compute; discriminate).
  assert (Hb : daemon_ok boot) by (split; constructor).
  split; [exact Hp|]. split; [exact Hb|]. split.
  - assert (Hrun : main env_session 3 2 sample_argv boot = Done _ _)
      by (vm_compute; reflexivity).
    eexists _, _. split; [exact Hrun|]. split; [vm_compute; discriminate|].
    pose proof (main_attaches_only_descriptors env_session 3 2 sample_argv boot Hp Hb) as H.
    rewrite Hrun in H. exact H.
  - assert (Hrun : main (cannot_copy env_session) 3 2 sample_argv boot
                   = Halt AssertionFailed _) by (vm_compute; reflexivity).
    eexists. split; [exact Hrun|]. split; [reflexivity|].
    pose proof (main_attaches_only_descriptors (cannot_copy env_session) 3 2 sample_argv boot
                  Hp' Hb) as H.
    rewrite Hrun in H. exact (proj1 H).
Defined.

Lemma iTermMultiServerAccept_waits_silently_witness :
  let w := registry [running] in
  exists r w',
    iTermMultiServerAccept env_session 1 0 w = Done r w' /\
    r = 9 /\ trace w' = [] /\ count_reportable (children w') 0 = 1.
Proof.
  intros w.
  assert (Hrun : iTermMultiServerAccept env_session 1 0 w = Done _ _)
    by (vm_compute; reflexivity).
  eexists _, _. split; [exact Hrun|]. split; [reflexivity|].
  destruct (iTermMultiServerAccept_waits_silently env_session 1 0 w _ _ Hrun)
    as (_ & Ht & _ & Hn).
  split; [rewrite Ht; reflexivity | rewrite Hn; reflexivity].
Defined.


Lemma repeated_preemptive_Wait_closes_descriptor_once_witness :
  let w := registry [running] in
  exists r1 w1 r2 w2,
    HandleWait env_ok 1 (wait_for 501 1) w = Done r1 w1 /\
    HandleWait env_ok 1 (wait_for 501 1) w1 = Done r2 w2 /\
    closes_of (trace w2) = [7; -1] /\
    children w2 = [disowned].
Proof.
  intros w.
  assert (H1 : HandleWait env_ok 1 (wait_for 501 1) w = Done _ _) by (vm_compute; reflexivity).
  match type of H1 with
  | _ = Done ?r1 ?w1 =>
      assert (H2 : HandleWait env_ok 1 (wait_for 501 1) w1 = Done _ _)
        by (vm_compute; reflexivity);
      exists r1, w1
  end.
  eexists _, _. split; [exact H1|]. split; [exact H2|].
  destruct (repeated_preemptive_Wait_closes_descriptor_once env_ok 1 1 (wait_for 501 1) w
              0%nat running _ _ _ _ (first_match_head running []) eq_refl
              ltac:(vm_compute; discriminate) H1 H2) as (Hc & Hk & Hl).
  split; [rewrite Hc; reflexivity | rewrite Hk, Hl; reflexivity].
Defined.

Lemma HandleHandshake_returns_unless_EAGAIN_witness :
  let w := registry [running; disowned] in
  (forall n, fst (sendmsg env_ok n) < 0 -> snd (sendmsg env_ok n) <> EAGAIN env_ok) /\
  exists r w',
    HandleHandshake env_ok 1 (handshake_v 1) w = Done r w' /\
    children w' = [running; disowned].
Proof.
  intros w.
  assert (Hno : forall n, fst (sendmsg env_ok n) < 0 -> snd (sendmsg env_ok n) <> EAGAIN env_ok)
    by (intros n H; vm_compute in H; discriminate).
  split; [exact Hno|].
  destruct (HandleHandshake_returns_unless_EAGAIN env_ok 1 (handshake_v 1) w Hno)
    as (r & w' & Hrun & _ & Hch & _).
  exists r, w'. split; [exact Hrun | exact Hch].
Defined.

Lemma MakeBlocking_MakeNonBlocking_touch_one_flag_witness :
  (exists r w' word,
     MakeBlocking env_ok 1 3 boot = Done r w' /\
     (exists n, (0 < n)%nat /\ trace w' = trace boot ++ repeat (EvSetFlags 3 word) n) /\
     Z.land word (O_NONBLOCK env_ok) = 0) /\
  (exists r w' word,
     MakeNonBlocking env_ok 1 0 boot = Done r w' /\
     (exists n, (0 < n)%nat /\ trace w' = trace boot ++ repeat (EvSetFlags 0 word) n) /\
     Z.land word (O_NONBLOCK env_ok) = O_NONBLOCK env_ok).
Proof.
  split.
  - assert (Hrun : MakeBlocking env_ok 1 3 boot = Done _ _) by (vm_compute; reflexivity).
    destruct (proj1 (MakeBlocking_MakeNonBlocking_touch_one_flag env_ok 1 3 boot _ _) Hrun)
      as (word & (_ & _ & Hn & _) & Hbit).
    eexists _, _, word. split; [exact Hrun|]. split; [exact Hn | exact Hbit].
  - assert (Hrun : MakeNonBlocking env_ok 1 0 boot = Done _ _) by (vm_compute; reflexivity).
    destruct (proj2 (MakeBlocking_MakeNonBlocking_touch_one_flag env_ok 1 0 boot _ _) Hrun)
      as (word & (_ & _ & Hn & _) & Hbit).
    eexists _, _, word. split; [exact Hrun|]. split; [exact Hn | exact Hbit].
Defined.

Lemma Initialize_prepares_or_fails_witness :
  (exists w',
     Initialize env_ok 1 "/tmp/iterm2.socket" boot = Done 0 w' /\
     gPath w' = Some "/tmp/iterm2.socket"%string /\ sends_of (trace w') = []) /\
  (exists w',
     Initialize env_pipe_fails 1 "/tmp/iterm2.socket" boot = Done 1 w' /\
     closes_of (trace w') = []).
Proof.
  split.
  - assert (Hrun : Initialize env_ok 1 "/tmp/iterm2.socket" boot = Done 0 _)
      by (vm_compute; reflexivity).
    eexists. split; [exact Hrun|].
    destruct (Initialize_prepares_or_fails env_ok 1 _ boot _ _ Hrun)
      as (_ & _ & Hs & _ & Hok).
    split; [exact (proj1 (Hok eq_refl)) | rewrite Hs; reflexivity].
  - assert (Hrun : Initialize env_pipe_fails 1 "/tmp/iterm2.socket" boot = Done 1 _)
      by (vm_compute; reflexivity).
    eexists. split; [exact Hrun|].
    destruct (Initialize_prepares_or_fails env_pipe_fails 1 _ boot _ _ Hrun)
      as (_ & _ & _ & Hc & _).
    rewrite Hc. reflexivity.
Defined.

(** X18. [AcceptAndReject] always returns and leaves the registry alone.
    When accept fails nothing happens at all; otherwise the accepted
    descriptor is closed exactly once, whether or not the rejection could be
    encoded or sent, and at most one message is sent, to that descriptor and
    with nothing attached. *)
Theorem AcceptAndReject_closes_what_it_accepted env socket w :
  let fd := iTermFileDescriptorServerAccept env (clock w) in
  exists w',
    AcceptAndReject env socket w = Done tt w' /\
    children w' = children w /\
    closes_of (trace w') = closes_of (trace w) ++ (if fd <? 0 then [] else [fd]) /\
    (fd < 0 -> trace w' = trace w) /\
    Forall (fun s => fst (fst s) = fd /\ snd s = None)
           (drop (length (sends_of (trace w))) (sends_of (trace w'))) /\
    (length (sends_of (trace w')) <= S (length (sends_of (trace w))))%nat.
Proof.
  intros fd. destruct (AcceptAndReject_run env socket w) as (w' & Hrun & Hc & _ & _ & Ht).
  cbv zeta in Ht. fold fd in Ht.
  exists w'. split; [exact Hrun|]. split; [exact Hc|].
  rewrite Ht, closes_of_app, sends_of_app, drop_app_length, length_app.
  destruct (Z.ltb_spec fd 0) as [Hneg | Hpos].
  - rewrite !app_nil_r. simpl. repeat split; auto. lia.
  - destruct (_ =? 0); simpl; (split; [reflexivity|]); (split; [lia|]);
      (split; [repeat constructor | lia]).
Qed.

Lemma AcceptAndReject_closes_what_it_accepted_witness :
  exists w',
    AcceptAndReject env_intruder 0 boot = Done tt w' /\
    closes_of (trace w') = [9] /\ length (sends_of (trace w')) = 1%nat.
Proof.
  destruct (AcceptAndReject_closes_what_it_accepted env_intruder 0 boot)
    as (w' & Hrun & _ & Hc & _).
  exists w'. split; [exact Hrun|]. split; [exact Hc|].
  vm_compute in Hrun. injection Hrun as <-. reflexivity.
Defined.
